(** * ERC-20 front-end integration layer: hooks, deployment client, unit conversion

    A shallow embedding of
      - [lib/constants.ts], [lib/types.ts],
      - [lib/deployment.ts] (the deployment-gateway client and the factory
        registration check),
      - [lib/interactions.ts] (the ethers-based read/write helpers),
      - [hooks/useERC20Interactions.ts] and [hooks/useERC20Deploy.ts],
    together with the properties the specification states about them.

    JavaScript strings that the code only stores or compares are [string];
    strings that the unit-conversion routines take apart are lists of
    characters.  [bigint] is [Z].  An [async] function is a computation over
    an explicit world that holds the hook's state cells and the log of
    everything the function did, in program order. *)

From Stdlib Require Import ZArith List Ascii String Bool Lia.
Import ListNotations.

Local Open Scope Z_scope.

(** ** Characters and decimal digits *)

Module Js.

Definition chars := list ascii.

Definition of_string (s : string) : chars := list_ascii_of_string s.
Definition to_string (l : chars) : string := string_of_list_ascii l.

Definition zero_char : ascii := "0"%char.
Definition dot_char : ascii := "."%char.
Definition minus_char : ascii := "-"%char.

Definition is_digit (c : ascii) : bool :=
  let n := nat_of_ascii c in (48 <=? n)%nat && (n <=? 57)%nat.

Definition digit_val (c : ascii) : Z := Z.of_nat (nat_of_ascii c) - 48.

Definition digit_char (d : Z) : ascii := ascii_of_nat (48 + Z.to_nat d).

Definition all_digits (l : chars) : bool := forallb is_digit l.

(** The number a string of decimal digits spells, most significant first;
    the empty string spells 0, as [BigInt("")] is [0n]. *)
Definition digits_value (l : chars) : Z :=
  fold_left (fun acc c => 10 * acc + digit_val c) l 0.

(** [n.toString()] for a bigint [n >= 0]. *)
Fixpoint digits_aux (fuel : nat) (n : Z) (acc : chars) : chars :=
  match fuel with
  | O => acc
  | S fuel' =>
      let acc' := digit_char (n mod 10) :: acc in
      if n <? 10 then acc' else digits_aux fuel' (n / 10) acc'
  end.

Definition uint_toString (n : Z) : chars :=
  digits_aux (S (Z.to_nat (Z.log2 n))) n [].

(** [n.toString()] for any bigint. *)
Definition bigint_toString (n : Z) : chars :=
  if n <? 0 then minus_char :: uint_toString (- n) else uint_toString n.

(** [BigInt(s)] on the strings the conversion routines build: an optional
    minus sign followed by decimal digits.  A lone sign or any other
    character is a SyntaxError ([None]). *)
Definition BigInt (s : chars) : option Z :=
  match s with
  | [] => Some 0
  | c :: rest =>
      if Ascii.eqb c minus_char then
        match rest with
        | [] => None
        | _ => if all_digits rest then Some (- digits_value rest) else None
        end
      else if all_digits s then Some (digits_value s) else None
  end.

(** [s.padStart(n, '0')] and [s.padEnd(n, '0')]. *)
Definition padStart (n : nat) (s : chars) : chars :=
  repeat zero_char (n - List.length s) ++ s.

Definition padEnd (n : nat) (s : chars) : chars :=
  s ++ repeat zero_char (n - List.length s).

(** [s.replace(/(0+)$/, '')]. *)
Fixpoint drop_leading_zeros (s : chars) : chars :=
  match s with
  | c :: rest => if Ascii.eqb c zero_char then drop_leading_zeros rest else s
  | [] => []
  end.

Definition trim_trailing_zeros (s : chars) : chars :=
  rev (drop_leading_zeros (rev s)).

(** [s.startsWith('-')]. *)
Definition startsWith_minus (s : chars) : bool :=
  match s with
  | c :: _ => Ascii.eqb c minus_char
  | [] => false
  end.

(** The part of [s] before the first dot, and the part after it when
    there is one: [s.split('.')] for a string with at most one dot. *)
Fixpoint split_dot (s : chars) : chars * option chars :=
  match s with
  | [] => ([], None)
  | c :: rest =>
      if Ascii.eqb c dot_char then ([], Some rest)
      else let '(a, b) := split_dot rest in (c :: a, b)
  end.

(** The test of the decimal-number pattern: an optional minus sign, any
    number of digits, an optional dot, any number of digits, and nothing
    else. *)
Definition matches_decimal (s : chars) : bool :=
  let body := if startsWith_minus s then skipn 1 s else s in
  let '(whole, frac) := split_dot body in
  all_digits whole &&
  match frac with
  | None => true
  | Some f => all_digits f
  end.

(** [Number.prototype.toString] for a small non-negative integer such as
    an HTTP status. *)
Definition nat_toString (n : nat) : string := to_string (uint_toString (Z.of_nat n)).

(** [s.toLowerCase()] on the ASCII range. *)
Definition lower_char (c : ascii) : ascii :=
  let n := nat_of_ascii c in
  if (65 <=? n)%nat && (n <=? 90)%nat then ascii_of_nat (n + 32) else c.

Fixpoint toLowerCase (s : string) : string :=
  match s with
  | EmptyString => EmptyString
  | String c rest => String (lower_char c) (toLowerCase rest)
  end.

(** Truthiness of a string: only the empty string is falsy. *)
Definition truthy (s : string) : bool :=
  match s with
  | EmptyString => false
  | _ => true
  end.

(** [a || b] when [a] may be [undefined] (here [None]) or a string. *)
Definition or_else (a : option string) (b : string) : string :=
  match a with
  | Some s => if truthy s then s else b
  | None => b
  end.

End Js.

(** ** What a decimal string denotes

    The specification speaks of "the exact rational value raw / 10^decimals".
    [decimal_value] reads a string of the shape [-?digits(.digits)?] as a
    pair [(m, k)] standing for the rational [m / 10^k]; [denotes s raw d]
    says that this rational is [raw / 10^d]. *)

Module Decimal.
Import Js.

Definition unsigned_value (s : chars) : option (Z * nat) :=
  match split_dot s with
  | (whole, None) =>
      match whole with
      | [] => None
      | _ => if all_digits whole then Some (digits_value whole, O) else None
      end
  | (whole, Some frac) =>
      match whole, frac with
      | [], _ => None
      | _, [] => None
      | _, _ =>
          if all_digits whole && all_digits frac
          then Some (digits_value (whole ++ frac), List.length frac)
          else None
      end
  end.

Definition decimal_value (s : chars) : option (Z * nat) :=
  if startsWith_minus s then
    match unsigned_value (skipn 1 s) with
    | Some (m, k) => Some (- m, k)
    | None => None
    end
  else unsigned_value s.

Definition denotes (s : string) (raw : Z) (decimals : nat) : Prop :=
  exists m k, decimal_value (of_string s) = Some (m, k) /\
              m * 10 ^ Z.of_nat decimals = raw * 10 ^ Z.of_nat k.

(** Two decimal strings are equivalent when they denote the same rational. *)
Definition equivalent (s t : string) : Prop :=
  exists m k n j, decimal_value (of_string s) = Some (m, k) /\
                  decimal_value (of_string t) = Some (n, j) /\
                  m * 10 ^ Z.of_nat j = n * 10 ^ Z.of_nat k.

End Decimal.

(** ** Errors and thrown values

    A JavaScript [catch] may receive any value.  The code distinguishes
    [err instanceof Error] from everything else, which it wraps as
    [new Error(String(err))]. *)

(** [JsError message] is [new Error(message)].  [LibError name subject] is
    an error object built inside a dependency (viem, ethers, the runtime):
    its class name and the offending input are kept, its message text is
    not modelled. *)
Inductive Error : Type :=
| JsError (message : string)
| LibError (name : string) (subject : string).

(** [ThrownError e] is a thrown value with [instanceof Error];
    [ThrownValue rendered] is any other thrown value, with what
    [String(value)] gives for it. *)
Inductive thrown : Type :=
| ThrownError (e : Error)
| ThrownValue (rendered : string).

(** [err instanceof Error ? err : new Error(String(err))] *)
Definition normalize (t : thrown) : Error :=
  match t with
  | ThrownError e => e
  | ThrownValue s => JsError s
  end.

Definition Outcome (A : Type) : Type := (thrown + A)%type.

Definition raise {A} (e : Error) : Outcome A := inl (ThrownError e).

Definition obind {A B} (x : Outcome A) (f : A -> Outcome B) : Outcome B :=
  match x with
  | inl t => inl t
  | inr a => f a
  end.

Definition of_option {A} (e : Error) (x : option A) : Outcome A :=
  match x with
  | Some a => inr a
  | None => raise e
  end.

Declare Scope outcome_scope.
Delimit Scope outcome_scope with outcome.
Notation "x <- c1 ;; c2" := (obind c1 (fun x => c2))
  (at level 61, c1 at next level, right associativity) : outcome_scope.
Notation "' pat <- c1 ;; c2" :=
  (obind c1 (fun x => match x with pat => c2 end))
  (at level 61, pat pattern, c1 at next level, right associativity) : outcome_scope.
Notation "c1 ;; c2" := (obind c1 (fun _ => c2))
  (at level 61, right associativity) : outcome_scope.

(** ** Values parsed from JSON

    What [response.json()] resolves to is untyped: any JSON value.  The
    code reads properties of it, tests them for truthiness, stores them
    and passes one to [new Error]. *)

Section JsonValues.
Local Open Scope string_scope.

(** A number, by the two things this code can observe of one: whether it
    is zero (0 and -0 are the falsy numbers JSON can spell) and what
    [String] gives for it. *)
Record JsNumber : Type := {
  number_is_zero : bool;
  number_toString : string
}.

(** [js_undefined] is what reading an absent property gives; JSON itself
    has no spelling for it.  An object is the list of its own properties,
    in which the first entry of a key is the property. *)
#[local] Unset Elimination Schemes.
Inductive JsValue : Type :=
| js_undefined
| js_null
| js_boolean (b : bool)
| js_number (n : JsNumber)
| js_string (s : string)
| js_array (elements : list JsValue)
| js_object (properties : list (string * JsValue)).
#[local] Set Elimination Schemes.

Definition truthy_value (v : JsValue) : bool :=
  match v with
  | js_undefined | js_null => false
  | js_boolean b => b
  | js_number n => negb (number_is_zero n)
  | js_string s => Js.truthy s
  | js_array _ | js_object _ => true
  end.

(** [a || b] *)
Definition or_value (a b : JsValue) : JsValue :=
  if truthy_value a then a else b.

Fixpoint own_property (key : string) (properties : list (string * JsValue))
    : option JsValue :=
  match properties with
  | [] => None
  | (k, v) :: rest => if String.eqb k key then Some v else own_property key rest
  end.

(** The TypeError of reading the property [key] of [null] or of
    [undefined]. *)
Definition property_of_null_error (key : string) : Error := LibError "TypeError" key.

(** [value.key], for a key that no prototype defines (the code reads
    [error], [tokenAddress], [txHash], [success], [deployOutput],
    [initOutput] and [registerOutput]): the own property of an object,
    [undefined] when it has none and on a boolean, a number, a string or
    an array; the properties of [null] and [undefined] cannot be read. *)
Definition get_property (value : JsValue) (key : string) : Outcome JsValue :=
  match value with
  | js_undefined | js_null => raise (property_of_null_error key)
  | js_object properties =>
      inr match own_property key properties with
          | Some v => v
          | None => js_undefined
          end
  | _ => inr js_undefined
  end.

(** The TypeError of converting to a string an object with an own
    property [toString]: parsed from JSON that property is no function,
    and [valueOf] gives no primitive either. *)
Definition not_primitive_error : Error := LibError "TypeError" "toString".

(** [String(v)].  An array is its elements joined by commas, [null] and
    [undefined] elements counting as empty; an object is "[object Object]"
    unless an own property hides [Object.prototype.toString]. *)
Fixpoint ToString (v : JsValue) : Outcome string :=
  match v with
  | js_undefined => inr "undefined"
  | js_null => inr "null"
  | js_boolean b => inr (if b then "true" else "false")
  | js_number n => inr (number_toString n)
  | js_string s => inr s
  | js_array elements =>
      (fix join (l : list JsValue) : Outcome string :=
         match l with
         | [] => inr ""
         | x :: rest =>
             first <- match x with
                      | js_undefined | js_null => inr ""
                      | _ => ToString x
                      end ;;
             match rest with
             | [] => inr first
             | _ => others <- join rest ;; inr (first ++ "," ++ others)
             end
         end%outcome) elements
  | js_object properties =>
      match own_property "toString" properties with
      | Some _ => raise not_primitive_error
      | None => inr "[object Object]"
      end
  end.

(** [new Error(message)]: the message is [String(message)], unless
    [message] is [undefined], when the error has the empty message of the
    prototype. *)
Definition new_Error (message : JsValue) : Outcome Error :=
  match message with
  | js_undefined => inr (JsError "")
  | _ => (s <- ToString message ;; inr (JsError s))%outcome
  end.

End JsonValues.

(** ** viem's unit conversion *)

Module Viem.
Import Js.
Local Open Scope outcome_scope.

(** Modelled from the spec: viem's [formatUnits] is a dependency of the
    repository and is not under src/.  The specification gives the
    formatting rule (raw integer / 10^decimals as a decimal string); the
    definition follows the routine of the library step by step: print the
    magnitude, left-pad it with zeros to [decimals] characters, cut it
    [decimals] characters from the right, drop the trailing zeros of the
    fraction, and print the sign, the integer part (or 0) and, when the
    fraction is not empty, a dot and the fraction. *)
Definition formatUnits (value : Z) (decimals : nat) : string :=
  let display0 := bigint_toString value in
  let negative := startsWith_minus display0 in
  let display1 := if negative then skipn 1 display0 else display0 in
  let display := padStart decimals display1 in
  let cut := (List.length display - decimals)%nat in
  let integer := firstn cut display in
  let fraction := trim_trailing_zeros (skipn cut display) in
  to_string
    ((if negative then [minus_char] else []) ++
     (match integer with [] => [zero_char] | _ => integer end) ++
     (match fraction with [] => [] | _ => dot_char :: fraction end)).

Section ParseUnits.

(** [Math.round(Number(s))]: the one floating-point step of [parseUnits],
    taken only when the input has more fractional digits than [decimals]
    (or when [decimals] is 0). *)
Variable round_number : chars -> Z.

Definition syntax_error (s : chars) : Error := LibError "SyntaxError" (to_string s).

Definition BigInt_or_throw (s : chars) : Outcome Z :=
  of_option (syntax_error s) (BigInt s).

(** Modelled from the spec: viem's [parseUnits] is a dependency of the
    repository and is not under src/.  The specification says a decimal
    string at [decimals] decimals "encodes to" the raw integer; the
    definition follows the routine of the library: reject what does not
    match the decimal-number pattern, split at the dot, strip the sign and
    the trailing zeros of the fraction, round when the fraction is longer
    than [decimals], otherwise right-pad it with zeros to [decimals]
    characters, and read sign, integer part and fraction as one bigint. *)
Definition parseUnits (value : string) (decimals : nat) : Outcome Z :=
  let v := of_string value in
  if negb (matches_decimal v) then
    raise (LibError "InvalidDecimalNumberError" value)
  else
    let '(integer0, fraction_opt) := split_dot v in
    let fraction0 := match fraction_opt with Some f => f | None => [zero_char] end in
    let negative := startsWith_minus integer0 in
    let integer1 := if negative then skipn 1 integer0 else integer0 in
    let fraction1 := trim_trailing_zeros fraction0 in
    '(integer, fraction) <-
      (if Nat.eqb decimals 0 then
         if round_number (dot_char :: fraction1) =? 1 then
           i <- BigInt_or_throw integer1 ;;
           inr (bigint_toString (i + 1), [])
         else inr (integer1, [])
       else if (decimals <? List.length fraction1)%nat then
         let left := firstn (decimals - 1) fraction1 in
         let unit := firstn 1 (skipn (decimals - 1) fraction1) in
         let right := skipn decimals fraction1 in
         let rounded := round_number (unit ++ dot_char :: right) in
         fraction2 <-
           (if rounded >? 9 then
              l <- BigInt_or_throw left ;;
              inr (padStart (List.length left + 1)
                     (bigint_toString (l + 1) ++ [zero_char]))
            else inr (left ++ bigint_toString rounded)) ;;
         if (decimals <? List.length fraction2)%nat then
           i <- BigInt_or_throw integer1 ;;
           inr (bigint_toString (i + 1), firstn decimals (skipn 1 fraction2))
         else inr (integer1, firstn decimals fraction2)
       else inr (integer1, padEnd decimals fraction1)) ;;
    BigInt_or_throw ((if negative then [minus_char] else []) ++ integer ++ fraction).

End ParseUnits.

End Viem.

(** ** ethers' unit conversion *)

Module Ethers.
Import Js.
Local Open Scope outcome_scope.

Definition Zeros : chars := [zero_char; zero_char; zero_char; zero_char].

(** [while (str.length <= decimals) { str = Zeros + str; }] *)
Fixpoint pad_whole (fuel decimals : nat) (str : chars) : chars :=
  match fuel with
  | O => str
  | S fuel' =>
      if (List.length str <=? decimals)%nat
      then pad_whole fuel' decimals (Zeros ++ str)
      else str
  end.

(** [while (str[0] === "0" && str[1] !== ".") { str = str.substring(1); }] *)
Fixpoint trim_whole (str : chars) : chars :=
  match str with
  | c0 :: rest =>
      if Ascii.eqb c0 zero_char &&
         match rest with c1 :: _ => negb (Ascii.eqb c1 dot_char) | [] => true end
      then trim_whole rest
      else str
  | [] => []
  end.

(** [while (str[str.length - 1] === "0" && str[str.length - 2] !== ".")
       { str = str.substring(0, str.length - 1); }] *)
Definition trim_decimal (str : chars) : chars := rev (trim_whole (rev str)).

(** The string a [FixedNumber] of raw value [val] and [decimals] decimals
    prints as. *)
Definition fixed_toString (val : Z) (decimals : nat) : chars :=
  let negative := val <? 0 in
  let str0 := uint_toString (if negative then val * -1 else val) in
  let sign := if negative then [minus_char] else [] in
  if Nat.eqb decimals 0 then sign ++ str0
  else
    let str1 := pad_whole (S decimals) decimals str0 in
    let index := (List.length str1 - decimals)%nat in
    let str2 := firstn index str1 ++ dot_char :: skipn index str1 in
    sign ++ trim_decimal (trim_whole str2).

(** The format [{ decimals, width: 512 }], signed: [getFormat] rejects more
    than 80 decimals, [checkValue] a value outside 512 signed bits. *)
Definition check_format (decimals : nat) : Outcome unit :=
  if (decimals <=? 80)%nat then inr tt
  else raise (LibError "INVALID_ARGUMENT" "format.decimals").

Definition checkValue (val : Z) : Outcome unit :=
  if (- 2 ^ 511 <=? val) && (val <? 2 ^ 511) then inr tt
  else raise (LibError "NUMERIC_FAULT" "overflow").

(** Modelled from the spec: ethers' [formatUnits] is a dependency of the
    repository and is not under src/.  The specification gives the
    formatting rule (raw integer / 10^decimals, "1000.0" for 1000 tokens);
    the definition follows the library: a fixed-point number of the asked
    number of decimals and 512 bits is built from the raw value and
    printed with at least one digit on each side of the dot. *)
Definition formatUnits (value : Z) (decimals : nat) : Outcome string :=
  check_format decimals ;;
  checkValue value ;;
  inr (to_string (fixed_toString value decimals)).

(** [while (decimal.length < format.decimals) { decimal += Zeros; }] *)
Fixpoint pad_decimal (fuel decimals : nat) (decimal : chars) : chars :=
  match fuel with
  | O => decimal
  | S fuel' =>
      if (List.length decimal <? decimals)%nat
      then pad_decimal fuel' decimals (decimal ++ Zeros)
      else decimal
  end.

(** Modelled from the spec: ethers' [parseUnits] is a dependency of the
    repository and is not under src/.  The specification says a decimal
    string at [decimals] decimals "encodes to" the raw integer; the
    definition follows the library: the string must match the
    decimal-number pattern with at least one digit, the fraction is padded
    with zeros, digits beyond [decimals] must all be zero, and sign, whole
    part and fraction are read as one bigint that must fit 512 bits. *)
Definition parseUnits (value : string) (decimals : nat) : Outcome Z :=
  let v := of_string value in
  let negative := startsWith_minus v in
  let '(m2, m3opt) := split_dot (if negative then skipn 1 v else v) in
  let m3 := match m3opt with Some f => f | None => [] end in
  if negb (matches_decimal v && (0 <? List.length m2 + List.length m3)%nat) then
    raise (LibError "INVALID_ARGUMENT" value)
  else
    check_format decimals ;;
    let whole := match m2 with [] => [zero_char] | _ => m2 end in
    let decimal := pad_decimal decimals decimals m3 in
    if negb (forallb (Ascii.eqb zero_char) (skipn decimals decimal)) then
      raise (LibError "NUMERIC_FAULT" "underflow")
    else
      let decimal' := firstn decimals decimal in
      val <- of_option (LibError "SyntaxError" value)
               (BigInt ((if negative then [minus_char] else []) ++ whole ++ decimal')) ;;
      checkValue val ;;
      inr val.

End Ethers.

(** ** lib/constants.ts *)

Local Open Scope string_scope.

Definition Address : Type := string.
Definition Hash : Type := string.

Inductive SupportedNetwork : Type := arbitrum | arbitrum_sepolia.

Definition CHAIN_IDS (n : SupportedNetwork) : Z :=
  match n with
  | arbitrum => 42161
  | arbitrum_sepolia => 421614
  end.

Definition RPC_ENDPOINTS (n : SupportedNetwork) : string :=
  match n with
  | arbitrum => "https://arb1.arbitrum.io/rpc"
  | arbitrum_sepolia => "https://sepolia-rollup.arbitrum.io/rpc"
  end.

Definition FACTORY_ADDRESSES (n : SupportedNetwork) : Address :=
  match n with
  | arbitrum => "0xed088fd93517b0d0c3a3e4d2e2c419fb58570556"
  | arbitrum_sepolia => "0xed088fd93517b0d0c3a3e4d2e2c419fb58570556"
  end.

Definition TOKEN_DECIMALS : nat := 18.

Definition getRpcEndpoint (network : SupportedNetwork) : string :=
  RPC_ENDPOINTS network.

Definition getFactoryAddress (network : SupportedNetwork) : Address :=
  FACTORY_ADDRESSES network.

(** ** lib/types.ts *)

Record DeployTokenParams : Type := {
  dp_name : string;
  dp_symbol : string;
  dp_initialSupply : string;
  dp_factoryAddress : option Address
}.

(** The fields hold what the code stores at run time: the casts of the
    source are unchecked, so a field holds whatever JSON value the gateway
    sent for it, and [undefined] when it sent none, whatever the interface
    says. *)
Record DeployTokenResult : Type := {
  dr_tokenAddress : JsValue;
  dr_txHash : JsValue;
  dr_success : JsValue;
  dr_deployOutput : JsValue;
  dr_initOutput : JsValue;
  dr_registerOutput : JsValue
}.

Record TokenInfo : Type := {
  ti_address : Address;
  ti_name : string;
  ti_symbol : string;
  ti_decimals : nat;
  ti_totalSupply : Z;
  ti_formattedTotalSupply : string;
  ti_owner : Address;
  ti_paused : bool
}.

Record BalanceInfo : Type := {
  bi_balance : Z;
  bi_formatted : string
}.

Record AllowanceInfo : Type := {
  ai_allowance : Z;
  ai_formatted : string
}.

Inductive TransactionState : Type :=
| tx_idle
| tx_pending
| tx_confirming (hash : Hash)
| tx_success (hash : Hash)
| tx_error (error : Error).

Inductive DeploymentState : Type :=
| dep_idle
| dep_deploying
| dep_activating
| dep_initializing
| dep_registering
| dep_success (result : DeployTokenResult)
| dep_error (error : Error).

Inductive AsyncState (T : Type) : Type :=
| as_idle
| as_loading
| as_success (data : T)
| as_error (error : Error).

Arguments as_idle {T}.
Arguments as_loading {T}.
Arguments as_success {T} data.
Arguments as_error {T} error.

(** ** The gateways

    Everything behind a gateway is outside the repository; a gateway is a
    record of functions that say, for each request, what the awaited call
    settles to: a value or a thrown value. *)

(** The view functions of the token ABI, with the type each decodes to. *)
Inductive ViewFn : Type :=
| fn_name
| fn_symbol
| fn_decimals
| fn_totalSupply
| fn_owner
| fn_paused
| fn_balanceOf (account : Address)
| fn_allowance (owner spender : Address).

Definition view_result (f : ViewFn) : Type :=
  match f with
  | fn_name | fn_symbol | fn_owner => string
  | fn_decimals => nat
  | fn_totalSupply | fn_balanceOf _ | fn_allowance _ _ => Z
  | fn_paused => bool
  end.

(** An argument of a mutating call. *)
Inductive AbiValue : Type :=
| abi_address (a : Address)
| abi_uint (n : Z).

Record ContractCall : Type := {
  cc_address : Address;
  cc_functionName : string;
  cc_args : list AbiValue;
  cc_account : option Address
}.

(** viem's public client and wallet client. *)
Record PublicClient : Type := {
  readContract : Address -> forall f : ViewFn, Outcome (view_result f);
  simulateContract : ContractCall -> Outcome ContractCall;
  waitForTransactionReceipt : Hash -> Outcome unit
}.

Record WalletClient : Type := {
  account : option Address;
  writeContract : ContractCall -> Outcome Hash
}.

(** The body of the POST request to the deployment gateway, before
    [JSON.stringify]. *)
Record DeployRequestBody : Type := {
  rb_name : string;
  rb_symbol : string;
  rb_initialSupply : string;
  rb_factoryAddress : option Address;
  rb_privateKey : string;
  rb_rpcEndpoint : string
}.

Record HttpRequest : Type := {
  rq_url : string;
  rq_method : string;
  rq_headers : list (string * string);
  rq_body : DeployRequestBody
}.

(** An answer of the gateway: its status, and what [response.json()]
    settles to, a JSON value or the rejection of a body that does not
    parse. *)
Record HttpResponse : Type := {
  status : nat;
  json : Outcome JsValue
}.

(** [response.ok]: the status is in the range 200-299. *)
Definition ok (r : HttpResponse) : bool :=
  (200 <=? status r)%nat && (status r <=? 299)%nat.

(** ethers: a provider for an RPC endpoint, a wallet for a key, and the
    contracts reached through them. *)
Record EthersGateway : Type := {
  new_Wallet : string -> Outcome unit;
  eth_view : string -> Address -> forall f : ViewFn, Outcome (view_result f);
  eth_send : string -> string -> Address -> string -> list AbiValue -> Outcome Hash;
  eth_wait : Hash -> Outcome Hash;
  eth_getAllDeployedTokens : string -> Address -> Outcome (list string)
}.

(** ** The world of an async function *)

Inductive GatewayCall : Type :=
| Fetch (req : HttpRequest)
| ReadContract (address : Address) (f : ViewFn)
| SimulateContract (req : ContractCall)
| WriteContract (req : ContractCall)
| WaitForTransactionReceipt (hash : Hash)
| EthersView (rpc : string) (address : Address) (f : ViewFn)
| EthersSend (rpc key : string) (address : Address) (fn : string) (args : list AbiValue)
| EthersWait (tx : Hash)
| EthersGetAllDeployedTokens (rpc : string) (factory : Address).

Inductive StateUpdate : Type :=
| SetTokenInfo (s : AsyncState TokenInfo)
| SetBalance (s : AsyncState BalanceInfo)
| SetTxState (s : TransactionState)
| SetDeploymentState (s : DeploymentState)
| SetError (e : option Error).

Inductive Event : Type :=
| Call (c : GatewayCall)
| Set_ (u : StateUpdate).

(** The state cells of the two hooks, as [useState] holds them. *)
Record Cells : Type := {
  tokenInfo : AsyncState TokenInfo;
  balance : AsyncState BalanceInfo;
  txState : TransactionState;
  deploymentState : DeploymentState;
  error : option Error
}.

Definition initial_cells : Cells :=
  {| tokenInfo := as_idle; balance := as_idle; txState := tx_idle;
     deploymentState := dep_idle; error := None |}.

Record World : Type := {
  cells : Cells;
  log : list Event
}.

Definition initial_world : World := {| cells := initial_cells; log := [] |}.

Definition apply_update (u : StateUpdate) (c : Cells) : Cells :=
  match u with
  | SetTokenInfo s =>
      {| tokenInfo := s; balance := balance c; txState := txState c;
         deploymentState := deploymentState c; error := error c |}
  | SetBalance s =>
      {| tokenInfo := tokenInfo c; balance := s; txState := txState c;
         deploymentState := deploymentState c; error := error c |}
  | SetTxState s =>
      {| tokenInfo := tokenInfo c; balance := balance c; txState := s;
         deploymentState := deploymentState c; error := error c |}
  | SetDeploymentState s =>
      {| tokenInfo := tokenInfo c; balance := balance c; txState := txState c;
         deploymentState := s; error := error c |}
  | SetError e =>
      {| tokenInfo := tokenInfo c; balance := balance c; txState := txState c;
         deploymentState := deploymentState c; error := e |}
  end.

(** An async function: from a world to what its promise settles to and the
    world it leaves. *)
Definition Async (A : Type) : Type := World -> Outcome A * World.

Definition ret {A} (a : A) : Async A := fun w => (inr a, w).

Definition bind {A B} (m : Async A) (f : A -> Async B) : Async B :=
  fun w =>
    match m w with
    | (inl t, w') => (inl t, w')
    | (inr a, w') => f a w'
    end.

Definition throw {A} (e : Error) : Async A := fun w => (raise e, w).

(** A computation that has already settled, such as a pure library call. *)
Definition settle {A} (r : Outcome A) : Async A := fun w => (r, w).

(** [try { body } catch (err) { handler(err) }] *)
Definition try_catch {A} (body : Async A) (handler : thrown -> Async A) : Async A :=
  fun w =>
    match body w with
    | (inl t, w') => handler t w'
    | (inr a, w') => (inr a, w')
    end.

(** A state setter: the cell changes and the change is logged. *)
Definition set (u : StateUpdate) : Async unit :=
  fun w => (inr tt, {| cells := apply_update u (cells w); log := log w ++ [Set_ u] |}).

(** Issuing a gateway call without awaiting it yet. *)
Definition issue (c : GatewayCall) : Async unit :=
  fun w => (inr tt, {| cells := cells w; log := log w ++ [Call c] |}).

(** [await gateway(request)]: the call is logged, then it settles. *)
Definition await {A} (c : GatewayCall) (r : Outcome A) : Async A :=
  bind (issue c) (fun _ => settle r).

Declare Scope async_scope.
Delimit Scope async_scope with async.
Notation "x <- c1 ;; c2" := (bind c1 (fun x => c2))
  (at level 61, c1 at next level, right associativity) : async_scope.
Notation "c1 ;; c2" := (bind c1 (fun _ => c2))
  (at level 61, right associativity) : async_scope.

(** What a log shows. *)
Definition is_call (e : Event) : bool :=
  match e with Call _ => true | Set_ _ => false end.

Definition calls (l : list Event) : list GatewayCall :=
  flat_map (fun e => match e with Call c => [c] | Set_ _ => [] end) l.

Definition tx_states (l : list Event) : list TransactionState :=
  flat_map (fun e => match e with Set_ (SetTxState s) => [s] | _ => [] end) l.

(** [!x] for an optional string: absent and empty are both falsy. *)
Definition missing (x : option string) : bool :=
  match x with
  | Some s => negb (Js.truthy s)
  | None => true
  end.

Local Open Scope async_scope.

(** ** lib/deployment.ts *)

Module Deployment.

Section Gateway.

Variable fetch : HttpRequest -> Outcome HttpResponse.
Variable ethers : EthersGateway.

(** The object the [.catch] handler of [response.json()] returns. *)
Definition unknown_error_body : JsValue :=
  js_object [("error", js_string "Unknown error")].

Definition deployERC20TokenViaAPI (params : DeployTokenParams)
    (privateKey rpcEndpoint deploymentApiUrl : string) : Async DeployTokenResult :=
  let req :=
    {| rq_url := deploymentApiUrl ++ "/deploy-token";
       rq_method := "POST";
       rq_headers := [("Content-Type", "application/json")];
       rq_body :=
         {| rb_name := dp_name params;
            rb_symbol := dp_symbol params;
            rb_initialSupply := dp_initialSupply params;
            rb_factoryAddress := dp_factoryAddress params;
            rb_privateKey := privateKey;
            rb_rpcEndpoint := rpcEndpoint |} |} in
  response <- await (Fetch req) (fetch req) ;;
  if negb (ok response) then
    let errorData :=
      match json response with
      | inr value => value
      | inl _ => unknown_error_body
      end in
    message <- settle (get_property errorData "error") ;;
    err <- settle (new_Error
             (or_value message
                (js_string ("Deployment failed with status "
                            ++ Js.nat_toString (status response))))) ;;
    throw err
  else
    result <- settle (json response) ;;
    tokenAddress <- settle (get_property result "tokenAddress") ;;
    txHash <- settle (get_property result "txHash") ;;
    success <- settle (get_property result "success") ;;
    deployOutput <- settle (get_property result "deployOutput") ;;
    initOutput <- settle (get_property result "initOutput") ;;
    registerOutput <- settle (get_property result "registerOutput") ;;
    ret {| dr_tokenAddress := tokenAddress;
           dr_txHash := or_value txHash (js_string "0x");
           dr_success := success;
           dr_deployOutput := deployOutput;
           dr_initOutput := initOutput;
           dr_registerOutput := registerOutput |}.

Definition isTokenRegistered (tokenAddress factoryAddress : Address)
    (rpcEndpoint : string) : Async bool :=
  try_catch
    (allTokens <- await (EthersGetAllDeployedTokens rpcEndpoint factoryAddress)
                    (eth_getAllDeployedTokens ethers rpcEndpoint factoryAddress) ;;
     ret (existsb
            (fun addr => String.eqb (Js.toLowerCase addr) (Js.toLowerCase tokenAddress))
            allTokens))
    (fun _ => ret false).

End Gateway.

End Deployment.

(** ** lib/interactions.ts (ethers) *)

Module Interactions.

Section Gateway.

Variable ethers : EthersGateway.

(** [Promise.all] over the six reads: all are issued before any is
    awaited; when several reject, the model reports the first in array
    order. *)
Definition getTokenInfo (contractAddress : Address) (rpcEndpoint : string)
    : Async TokenInfo :=
  let view := eth_view ethers rpcEndpoint contractAddress in
  issue (EthersView rpcEndpoint contractAddress fn_name) ;;
  issue (EthersView rpcEndpoint contractAddress fn_symbol) ;;
  issue (EthersView rpcEndpoint contractAddress fn_decimals) ;;
  issue (EthersView rpcEndpoint contractAddress fn_totalSupply) ;;
  issue (EthersView rpcEndpoint contractAddress fn_owner) ;;
  issue (EthersView rpcEndpoint contractAddress fn_paused) ;;
  name <- settle (view fn_name) ;;
  symbol <- settle (view fn_symbol) ;;
  decimals <- settle (view fn_decimals) ;;
  totalSupply <- settle (view fn_totalSupply) ;;
  owner <- settle (view fn_owner) ;;
  paused <- settle (view fn_paused) ;;
  formatted <- settle (Ethers.formatUnits totalSupply decimals) ;;
  ret {| ti_address := contractAddress;
         ti_name := name;
         ti_symbol := symbol;
         ti_decimals := decimals;
         ti_totalSupply := totalSupply;
         ti_formattedTotalSupply := formatted;
         ti_owner := owner;
         ti_paused := paused |}.

Definition getBalance (contractAddress accountAddress : Address)
    (rpcEndpoint : string) : Async BalanceInfo :=
  balance <- await (EthersView rpcEndpoint contractAddress (fn_balanceOf accountAddress))
                   (eth_view ethers rpcEndpoint contractAddress (fn_balanceOf accountAddress)) ;;
  formatted <- settle (Ethers.formatUnits balance TOKEN_DECIMALS) ;;
  ret {| bi_balance := balance; bi_formatted := formatted |}.

Definition getAllowance (contractAddress ownerAddress spenderAddress : Address)
    (rpcEndpoint : string) : Async AllowanceInfo :=
  allowance <- await (EthersView rpcEndpoint contractAddress
                        (fn_allowance ownerAddress spenderAddress))
                     (eth_view ethers rpcEndpoint contractAddress
                        (fn_allowance ownerAddress spenderAddress)) ;;
  formatted <- settle (Ethers.formatUnits allowance TOKEN_DECIMALS) ;;
  ret {| ai_allowance := allowance; ai_formatted := formatted |}.

Definition transfer (contractAddress to : Address) (amount privateKey rpcEndpoint : string)
    : Async Hash :=
  settle (new_Wallet ethers privateKey) ;;
  amountWei <- settle (Ethers.parseUnits amount TOKEN_DECIMALS) ;;
  let args := [abi_address to; abi_uint amountWei] in
  tx <- await (EthersSend rpcEndpoint privateKey contractAddress "transfer" args)
              (eth_send ethers rpcEndpoint privateKey contractAddress "transfer" args) ;;
  receipt <- await (EthersWait tx) (eth_wait ethers tx) ;;
  ret receipt.

Definition approve (contractAddress spender : Address) (amount privateKey rpcEndpoint : string)
    : Async Hash :=
  settle (new_Wallet ethers privateKey) ;;
  amountWei <- settle (Ethers.parseUnits amount TOKEN_DECIMALS) ;;
  let args := [abi_address spender; abi_uint amountWei] in
  tx <- await (EthersSend rpcEndpoint privateKey contractAddress "approve" args)
              (eth_send ethers rpcEndpoint privateKey contractAddress "approve" args) ;;
  receipt <- await (EthersWait tx) (eth_wait ethers tx) ;;
  ret receipt.

Definition transferFrom (contractAddress from to : Address)
    (amount privateKey rpcEndpoint : string) : Async Hash :=
  settle (new_Wallet ethers privateKey) ;;
  amountWei <- settle (Ethers.parseUnits amount TOKEN_DECIMALS) ;;
  let args := [abi_address from; abi_address to; abi_uint amountWei] in
  tx <- await (EthersSend rpcEndpoint privateKey contractAddress "transferFrom" args)
              (eth_send ethers rpcEndpoint privateKey contractAddress "transferFrom" args) ;;
  receipt <- await (EthersWait tx) (eth_wait ethers tx) ;;
  ret receipt.

Definition mint (contractAddress to : Address) (amount privateKey rpcEndpoint : string)
    : Async Hash :=
  settle (new_Wallet ethers privateKey) ;;
  amountWei <- settle (Ethers.parseUnits amount TOKEN_DECIMALS) ;;
  let args := [abi_address to; abi_uint amountWei] in
  tx <- await (EthersSend rpcEndpoint privateKey contractAddress "mint" args)
              (eth_send ethers rpcEndpoint privateKey contractAddress "mint" args) ;;
  receipt <- await (EthersWait tx) (eth_wait ethers tx) ;;
  ret receipt.

Definition burn (contractAddress : Address) (amount privateKey rpcEndpoint : string)
    : Async Hash :=
  settle (new_Wallet ethers privateKey) ;;
  amountWei <- settle (Ethers.parseUnits amount TOKEN_DECIMALS) ;;
  let args := [abi_uint amountWei] in
  tx <- await (EthersSend rpcEndpoint privateKey contractAddress "burn" args)
              (eth_send ethers rpcEndpoint privateKey contractAddress "burn" args) ;;
  receipt <- await (EthersWait tx) (eth_wait ethers tx) ;;
  ret receipt.

Definition pause (contractAddress : Address) (privateKey rpcEndpoint : string)
    : Async Hash :=
  settle (new_Wallet ethers privateKey) ;;
  tx <- await (EthersSend rpcEndpoint privateKey contractAddress "pause" [])
              (eth_send ethers rpcEndpoint privateKey contractAddress "pause" []) ;;
  receipt <- await (EthersWait tx) (eth_wait ethers tx) ;;
  ret receipt.

Definition unpause (contractAddress : Address) (privateKey rpcEndpoint : string)
    : Async Hash :=
  settle (new_Wallet ethers privateKey) ;;
  tx <- await (EthersSend rpcEndpoint privateKey contractAddress "unpause" [])
              (eth_send ethers rpcEndpoint privateKey contractAddress "unpause" []) ;;
  receipt <- await (EthersWait tx) (eth_wait ethers tx) ;;
  ret receipt.

Definition transferOwnership (contractAddress newOwner : Address)
    (privateKey rpcEndpoint : string) : Async Hash :=
  settle (new_Wallet ethers privateKey) ;;
  let args := [abi_address newOwner] in
  tx <- await (EthersSend rpcEndpoint privateKey contractAddress "transferOwnership" args)
              (eth_send ethers rpcEndpoint privateKey contractAddress "transferOwnership" args) ;;
  receipt <- await (EthersWait tx) (eth_wait ethers tx) ;;
  ret receipt.

(** The eight write helpers as one request type. *)
Inductive LibWrite : Type :=
| lw_transfer (to : Address) (amount : string)
| lw_approve (spender : Address) (amount : string)
| lw_transferFrom (from to : Address) (amount : string)
| lw_mint (to : Address) (amount : string)
| lw_burn (amount : string)
| lw_pause
| lw_unpause
| lw_transferOwnership (newOwner : Address).

Definition run_write (contractAddress : Address) (op : LibWrite)
    (privateKey rpcEndpoint : string) : Async Hash :=
  match op with
  | lw_transfer to amount => transfer contractAddress to amount privateKey rpcEndpoint
  | lw_approve spender amount => approve contractAddress spender amount privateKey rpcEndpoint
  | lw_transferFrom from to amount =>
      transferFrom contractAddress from to amount privateKey rpcEndpoint
  | lw_mint to amount => mint contractAddress to amount privateKey rpcEndpoint
  | lw_burn amount => burn contractAddress amount privateKey rpcEndpoint
  | lw_pause => pause contractAddress privateKey rpcEndpoint
  | lw_unpause => unpause contractAddress privateKey rpcEndpoint
  | lw_transferOwnership newOwner =>
      transferOwnership contractAddress newOwner privateKey rpcEndpoint
  end.

End Gateway.

End Interactions.

(** ** hooks/useERC20Deploy.ts *)

Module UseERC20Deploy.

Definition DEFAULT_DEPLOYMENT_API_URL : string := "http://localhost:4000".

Section Hook.

Variable fetch : HttpRequest -> Outcome HttpResponse.

(** The options of the hook. *)
Variable privateKey : option string.
Variable rpcEndpoint : option string.
Variable network : SupportedNetwork.
Variable deploymentApiUrl_opt : option string.

Definition deploymentApiUrl : string :=
  match deploymentApiUrl_opt with
  | Some u => u
  | None => DEFAULT_DEPLOYMENT_API_URL
  end.

Definition actualRpcEndpoint : string := Js.or_else rpcEndpoint (getRpcEndpoint network).
Definition factoryAddress : Address := getFactoryAddress network.

Definition deployToken (params : DeployTokenParams) : Async DeployTokenResult :=
  match privateKey with
  | Some key =>
      if negb (Js.truthy key) then throw (JsError "Private key is required for deployment")
      else
        set (SetError None) ;;
        set (SetDeploymentState dep_deploying) ;;
        try_catch
          (result <- Deployment.deployERC20TokenViaAPI fetch
                       {| dp_name := dp_name params;
                          dp_symbol := dp_symbol params;
                          dp_initialSupply := dp_initialSupply params;
                          dp_factoryAddress :=
                            Some (Js.or_else (dp_factoryAddress params) factoryAddress) |}
                       key actualRpcEndpoint deploymentApiUrl ;;
           set (SetDeploymentState (dep_success result)) ;;
           ret result)
          (fun err =>
             let error := normalize err in
             set (SetError (Some error)) ;;
             set (SetDeploymentState (dep_error error)) ;;
             throw error)
  | None => throw (JsError "Private key is required for deployment")
  end.

Definition reset : Async unit :=
  set (SetDeploymentState dep_idle) ;;
  set (SetError None).

Definition isDeploying (c : Cells) : bool :=
  match deploymentState c with
  | dep_deploying | dep_activating | dep_initializing | dep_registering => true
  | _ => false
  end.

End Hook.

End UseERC20Deploy.

(** ** hooks/useERC20Interactions.ts *)

Module UseERC20Interactions.

(** A call whose promise the caller drops: [refetchBalance();].  The model
    runs it to completion at that point and discards what it settles to. *)
Definition detach {A} (m : Async A) : Async unit :=
  fun w => let '(_, w') := m w in (inr tt, w').

Section Hook.

(** [Math.round(Number(s))], see [Viem.parseUnits]. *)
Variable round_number : Js.chars -> Z.

(** The options of the hook. *)
Variable contractAddress : Address.
Variable publicClient : option PublicClient.
Variable walletClient : option WalletClient.
Variable userAddress : option Address.

(** [Promise.all] over the six reads: all are issued before any is
    awaited; when several reject, the model reports the first in array
    order. *)
Definition refetchTokenInfo : Async unit :=
  match publicClient with
  | None => ret tt
  | Some pc =>
      set (SetTokenInfo as_loading) ;;
      try_catch
        (issue (ReadContract contractAddress fn_name) ;;
         issue (ReadContract contractAddress fn_symbol) ;;
         issue (ReadContract contractAddress fn_decimals) ;;
         issue (ReadContract contractAddress fn_totalSupply) ;;
         issue (ReadContract contractAddress fn_owner) ;;
         issue (ReadContract contractAddress fn_paused) ;;
         name <- settle (readContract pc contractAddress fn_name) ;;
         symbol <- settle (readContract pc contractAddress fn_symbol) ;;
         decimals <- settle (readContract pc contractAddress fn_decimals) ;;
         totalSupply <- settle (readContract pc contractAddress fn_totalSupply) ;;
         owner <- settle (readContract pc contractAddress fn_owner) ;;
         paused <- settle (readContract pc contractAddress fn_paused) ;;
         set (SetTokenInfo (as_success
           {| ti_address := contractAddress;
              ti_name := name;
              ti_symbol := symbol;
              ti_decimals := decimals;
              ti_totalSupply := totalSupply;
              ti_formattedTotalSupply := Viem.formatUnits totalSupply decimals;
              ti_owner := owner;
              ti_paused := paused |})))
        (fun err => set (SetTokenInfo (as_error (normalize err))))
  end.

Definition refetchBalance : Async unit :=
  match publicClient, userAddress with
  | Some pc, Some user =>
      if negb (Js.truthy user) then set (SetBalance as_idle)
      else
        set (SetBalance as_loading) ;;
        try_catch
          (balanceValue <- await (ReadContract contractAddress (fn_balanceOf user))
                             (readContract pc contractAddress (fn_balanceOf user)) ;;
           set (SetBalance (as_success
             {| bi_balance := balanceValue;
                bi_formatted := Viem.formatUnits balanceValue TOKEN_DECIMALS |})))
          (fun err => set (SetBalance (as_error (normalize err))))
  | _, _ => set (SetBalance as_idle)
  end.

Definition getAllowance (spender : Address) : Async AllowanceInfo :=
  match publicClient, userAddress with
  | Some pc, Some user =>
      if negb (Js.truthy user)
      then throw (JsError "Public client and user address are required")
      else
        allowance <- await (ReadContract contractAddress (fn_allowance user spender))
                       (readContract pc contractAddress (fn_allowance user spender)) ;;
        ret {| ai_allowance := allowance;
               ai_formatted := Viem.formatUnits allowance TOKEN_DECIMALS |}
  | _, _ => throw (JsError "Public client and user address are required")
  end.

Definition executeTransaction (functionName : string) (args : list AbiValue)
    : Async Hash :=
  match walletClient, publicClient with
  | Some wc, Some pc =>
      set (SetError None) ;;
      set (SetTxState tx_pending) ;;
      try_catch
        (let call := {| cc_address := contractAddress;
                        cc_functionName := functionName;
                        cc_args := args;
                        cc_account := account wc |} in
         request <- await (SimulateContract call) (simulateContract pc call) ;;
         hash <- await (WriteContract request) (writeContract wc request) ;;
         set (SetTxState (tx_confirming hash)) ;;
         await (WaitForTransactionReceipt hash) (waitForTransactionReceipt pc hash) ;;
         set (SetTxState (tx_success hash)) ;;
         ret hash)
        (fun err =>
           let error := normalize err in
           set (SetError (Some error)) ;;
           set (SetTxState (tx_error error)) ;;
           throw error)
  | _, _ => throw (JsError "Wallet client is required for transactions")
  end.

Definition transfer (to : Address) (amount : string) : Async Hash :=
  amountWei <- settle (Viem.parseUnits round_number amount TOKEN_DECIMALS) ;;
  hash <- executeTransaction "transfer" [abi_address to; abi_uint amountWei] ;;
  detach refetchBalance ;;
  ret hash.

Definition approve (spender : Address) (amount : string) : Async Hash :=
  amountWei <- settle (Viem.parseUnits round_number amount TOKEN_DECIMALS) ;;
  executeTransaction "approve" [abi_address spender; abi_uint amountWei].

Definition transferFrom (from to : Address) (amount : string) : Async Hash :=
  amountWei <- settle (Viem.parseUnits round_number amount TOKEN_DECIMALS) ;;
  hash <- executeTransaction "transferFrom"
            [abi_address from; abi_address to; abi_uint amountWei] ;;
  detach refetchBalance ;;
  ret hash.

Definition mint (to : Address) (amount : string) : Async Hash :=
  amountWei <- settle (Viem.parseUnits round_number amount TOKEN_DECIMALS) ;;
  hash <- executeTransaction "mint" [abi_address to; abi_uint amountWei] ;;
  detach refetchTokenInfo ;;
  detach refetchBalance ;;
  ret hash.

Definition burn (amount : string) : Async Hash :=
  amountWei <- settle (Viem.parseUnits round_number amount TOKEN_DECIMALS) ;;
  hash <- executeTransaction "burn" [abi_uint amountWei] ;;
  detach refetchTokenInfo ;;
  detach refetchBalance ;;
  ret hash.

Definition pause : Async Hash :=
  hash <- executeTransaction "pause" [] ;;
  detach refetchTokenInfo ;;
  ret hash.

Definition unpause : Async Hash :=
  hash <- executeTransaction "unpause" [] ;;
  detach refetchTokenInfo ;;
  ret hash.

Definition transferOwnership (newOwner : Address) : Async Hash :=
  hash <- executeTransaction "transferOwnership" [abi_address newOwner] ;;
  detach refetchTokenInfo ;;
  ret hash.

Definition isLoading (c : Cells) : bool :=
  match txState c with
  | tx_pending | tx_confirming _ => true
  | _ => false
  end.

(** The eight write operations of the hook's return value, as one
    request type, so that a statement can range over all of them. *)
Inductive WriteOp : Type :=
| op_transfer (to : Address) (amount : string)
| op_approve (spender : Address) (amount : string)
| op_transferFrom (from to : Address) (amount : string)
| op_mint (to : Address) (amount : string)
| op_burn (amount : string)
| op_pause
| op_unpause
| op_transferOwnership (newOwner : Address).

Definition run (op : WriteOp) : Async Hash :=
  match op with
  | op_transfer to amount => transfer to amount
  | op_approve spender amount => approve spender amount
  | op_transferFrom from to amount => transferFrom from to amount
  | op_mint to amount => mint to amount
  | op_burn amount => burn amount
  | op_pause => pause
  | op_unpause => unpause
  | op_transferOwnership newOwner => transferOwnership newOwner
  end.

(** The decimal amount an operation takes, when it takes one. *)
Definition amount_of (op : WriteOp) : option string :=
  match op with
  | op_transfer _ a | op_approve _ a | op_transferFrom _ _ a
  | op_mint _ a | op_burn a => Some a
  | op_pause | op_unpause | op_transferOwnership _ => None
  end.

(** The amount parses: [parseUnits] returns for it. *)
Definition amount_ok (op : WriteOp) : Prop :=
  match amount_of op with
  | Some a => exists n, Viem.parseUnits round_number a TOKEN_DECIMALS = inr n
  | None => True
  end.

End Hook.

End UseERC20Interactions.

(** ** lib/deployment.ts: the two signed calls

    [initializeToken] and [registerTokenInFactory] pass strings to the
    contracts, so their calls are recorded with arguments of their own. *)

Module DeploymentWrites.

Inductive EthersArg : Type :=
| arg_address (a : Address)
| arg_string (s : string)
| arg_uint (n : Z).

Inductive SignerCall : Type :=
| SendTx (rpc key : string) (address : Address) (fn : string) (args : list EthersArg)
| WaitTx (tx : Hash).

(** A wallet for a key, the contracts reached through it, and the wait for
    a sent transaction, which gives the hash of the receipt. *)
Record EthersSigner : Type := {
  sg_new_Wallet : string -> Outcome unit;
  sg_send : string -> string -> Address -> string -> list EthersArg -> Outcome Hash;
  sg_wait : Hash -> Outcome Hash
}.

(** An async function that only talks to the signer: from the calls made
    so far to what its promise settles to and the calls made then. *)
Definition Traced (A : Type) : Type := list SignerCall -> Outcome A * list SignerCall.

Definition tret {A} (a : A) : Traced A := fun l => (inr a, l).

Definition tbind {A B} (m : Traced A) (f : A -> Traced B) : Traced B :=
  fun l =>
    match m l with
    | (inl t, l') => (inl t, l')
    | (inr a, l') => f a l'
    end.

Definition tsettle {A} (r : Outcome A) : Traced A := fun l => (r, l).

Definition tawait {A} (c : SignerCall) (r : Outcome A) : Traced A :=
  fun l => (r, (l ++ [c])%list).

Section Gateway.

Variable signer : EthersSigner.

(** [BigInt(s)] for a string the caller supplies: the bigint the runtime
    reads the string as, or the SyntaxError it throws. *)
Variable StringToBigInt : string -> Outcome Z.

Definition initializeToken (contractAddress : Address)
    (name symbol initialSupply privateKey rpcEndpoint : string) : Traced Hash :=
  tbind (tsettle (sg_new_Wallet signer privateKey)) (fun _ =>
  tbind (tsettle (StringToBigInt initialSupply)) (fun supply =>
  let args := [arg_string name; arg_string symbol; arg_uint supply] in
  tbind (tawait (SendTx rpcEndpoint privateKey contractAddress "init" args)
           (sg_send signer rpcEndpoint privateKey contractAddress "init" args)) (fun tx =>
  tbind (tawait (WaitTx tx) (sg_wait signer tx)) (fun receipt =>
  tret receipt)))).

(** [ethers.parseEther(s)] is [parseUnits(s, 18)]. *)
Definition registerTokenInFactory (tokenAddress : Address)
    (name symbol initialSupply : string) (factoryAddress : Address)
    (privateKey rpcEndpoint : string) : Traced Hash :=
  tbind (tsettle (sg_new_Wallet signer privateKey)) (fun _ =>
  tbind (tsettle (Ethers.parseUnits initialSupply 18)) (fun initialSupplyWei =>
  let args := [arg_address tokenAddress; arg_string name; arg_string symbol;
               arg_uint initialSupplyWei] in
  tbind (tawait (SendTx rpcEndpoint privateKey factoryAddress "registerToken" args)
           (sg_send signer rpcEndpoint privateKey factoryAddress "registerToken" args))
    (fun tx =>
  tbind (tawait (WaitTx tx) (sg_wait signer tx)) (fun receipt =>
  tret receipt)))).

End Gateway.

(** A signer whose every call succeeds, and the reading of decimal digits
    as a bigint. *)
Definition sample_signer : EthersSigner :=
  {| sg_new_Wallet := fun _ => inr tt;
     sg_send := fun _ _ _ _ _ => inr "0x7e57";
     sg_wait := fun tx => inr tx |}.

Definition decimal_BigInt (s : string) : Outcome Z :=
  of_option (LibError "SyntaxError" s) (Js.BigInt (Js.of_string s)).

End DeploymentWrites.

(** ** Vocabulary of the statements *)

(** Case-insensitive comparison of two ASCII strings, character by
    character: two characters agree when they are equal or are the upper
    and lower case of one letter. *)
Definition is_upper (c : ascii) : bool :=
  let n := nat_of_ascii c in (65 <=? n)%nat && (n <=? 90)%nat.

Definition is_lower (c : ascii) : bool :=
  let n := nat_of_ascii c in (97 <=? n)%nat && (n <=? 122)%nat.

Definition same_letter (c1 c2 : ascii) : bool :=
  Ascii.eqb c1 c2
  || (is_upper c1 && is_lower c2 && (nat_of_ascii c2 =? nat_of_ascii c1 + 32)%nat)
  || (is_lower c1 && is_upper c2 && (nat_of_ascii c1 =? nat_of_ascii c2 + 32)%nat).

Fixpoint eq_nocase (s t : string) : bool :=
  match s, t with
  | EmptyString, EmptyString => true
  | String c1 s', String c2 t' => same_letter c1 c2 && eq_nocase s' t'
  | _, _ => false
  end.

(** The amounts this layer hands to the chain gateway in calls of the
    token's [transfer] function.  ([writeContract] relays the request the
    gateway itself prepared in [simulateContract].) *)
Definition last_uint (args : list AbiValue) : list Z :=
  match rev args with
  | abi_uint n :: _ => [n]
  | _ => []
  end.

Definition transfer_amounts (l : list Event) : list Z :=
  flat_map
    (fun e =>
       match e with
       | Call (SimulateContract c) =>
           if String.eqb (cc_functionName c) "transfer" then last_uint (cc_args c) else []
       | Call (EthersSend _ _ _ fn args) =>
           if String.eqb fn "transfer" then last_uint args else []
       | _ => []
       end) l.

(** The events a computation adds to the log of the world it starts in. *)
Definition new_events {A} (m : Async A) (w : World) : list Event :=
  skipn (List.length (log w)) (log (snd (m w))).

(** The lifecycle of a write, in the words of the specification: pending,
    then confirming with the hash that submission returned, then success
    with that same hash once the receipt has been awaited; and when one of
    simulate, submit, wait throws, failed with the normalized error, which
    is also what the caller gets. *)
Definition tx_lifecycle (pc : PublicClient) (wc : WalletClient) (call : ContractCall)
    (states : list TransactionState) (result : Outcome Hash) : Prop :=
  match simulateContract pc call with
  | inl t =>
      states = [tx_pending; tx_error (normalize t)] /\ result = raise (normalize t)
  | inr request =>
      match writeContract wc request with
      | inl t =>
          states = [tx_pending; tx_error (normalize t)] /\ result = raise (normalize t)
      | inr hash =>
          match waitForTransactionReceipt pc hash with
          | inl t =>
              states = [tx_pending; tx_confirming hash; tx_error (normalize t)] /\
              result = raise (normalize t)
          | inr _ =>
              states = [tx_pending; tx_confirming hash; tx_success hash] /\
              result = inr hash
          end
      end
  end.

(** The ABI function each write operation calls. *)
Definition function_of (op : UseERC20Interactions.WriteOp) : string :=
  match op with
  | UseERC20Interactions.op_transfer _ _ => "transfer"
  | UseERC20Interactions.op_approve _ _ => "approve"
  | UseERC20Interactions.op_transferFrom _ _ _ => "transferFrom"
  | UseERC20Interactions.op_mint _ _ => "mint"
  | UseERC20Interactions.op_burn _ => "burn"
  | UseERC20Interactions.op_pause => "pause"
  | UseERC20Interactions.op_unpause => "unpause"
  | UseERC20Interactions.op_transferOwnership _ => "transferOwnership"
  end.

(** A computation that only refreshes read state: whatever it logs, it
    sets no transaction state, hands no transfer amount to the gateway,
    and leaves the transaction cell and the error cell alone. *)
Definition refresh_only {A} (m : Async A) : Prop :=
  forall w, exists evs,
    log (snd (m w)) = (log w ++ evs)%list /\
    tx_states evs = [] /\ transfer_amounts evs = [] /\
    txState (cells (snd (m w))) = txState (cells w) /\
    error (cells (snd (m w))) = error (cells w).

(** What a write leaves behind, started in world [w]: the events it added
    begin their gateway calls with the simulation of [call], the
    transaction states among them follow the lifecycle, the transaction
    cell holds the last of them, the error cell holds the normalized error
    or nothing, and the transfer amounts handed over are [amounts]. *)
Definition write_report (pc : PublicClient) (wc : WalletClient) (call : ContractCall)
    (amounts : list Z) (w : World) (res : Outcome Hash * World) : Prop :=
  exists evs,
    log (snd res) = (log w ++ evs)%list /\
    hd_error (calls evs) = Some (SimulateContract call) /\
    tx_lifecycle pc wc call (tx_states evs) (fst res) /\
    txState (cells (snd res)) = last (tx_states evs) tx_idle /\
    error (cells (snd res))
      = match fst res with inl t => Some (normalize t) | inr _ => None end /\
    transfer_amounts evs = amounts.

(** A formatted string [s] for the raw amount [raw] that was computed at
    the fixed 18 decimals: it is an exact expansion of raw / 10^18, and,
    unless the amount is zero, of raw / 10^d for no other [d]. *)
Definition at_18_decimals (s : string) (raw : Z) : Prop :=
  Decimal.denotes s raw TOKEN_DECIMALS /\
  (raw <> 0%Z -> forall d, d <> TOKEN_DECIMALS -> ~ Decimal.denotes s raw d).

(** Everything a write does, in the order it does it: the error cell is
    cleared and the transaction state set to pending, then the simulation
    is requested; when it returns, the request it returned is submitted;
    when that returns a hash, the state is set to confirming with the hash
    and then the wait for the receipt is issued; when the wait returns, the
    state is set to success with the same hash.  The step that throws is
    followed by the normalized error being stored and the state set to
    failed with it, and by nothing else. *)
Definition failure_events (e : Error) : list Event :=
  [Set_ (SetError (Some e)); Set_ (SetTxState (tx_error e))].

Definition write_events (pc : PublicClient) (wc : WalletClient) (call : ContractCall)
    : list Event :=
  Set_ (SetError None) :: Set_ (SetTxState tx_pending) :: Call (SimulateContract call) ::
  match simulateContract pc call with
  | inl t => failure_events (normalize t)
  | inr request =>
      Call (WriteContract request) ::
      match writeContract wc request with
      | inl t => failure_events (normalize t)
      | inr hash =>
          Set_ (SetTxState (tx_confirming hash)) ::
          Call (WaitForTransactionReceipt hash) ::
          match waitForTransactionReceipt pc hash with
          | inl t => failure_events (normalize t)
          | inr _ => [Set_ (SetTxState (tx_success hash))]
          end
      end
  end.

(** The events that belong to a write: updates of the transaction state
    and of the error cell, and the simulate, submit and wait calls. *)
Definition is_write_event (e : Event) : bool :=
  match e with
  | Set_ (SetTxState _) | Set_ (SetError _) => true
  | Call (SimulateContract _) | Call (WriteContract _)
  | Call (WaitForTransactionReceipt _) => true
  | _ => false
  end.

(** A computation that adds no event of a write. *)
Definition adds_no_write_event {A} (m : Async A) : Prop :=
  forall w, exists evs,
    log (snd (m w)) = (log w ++ evs)%list /\ filter is_write_event evs = [].

(** The events a write operation has added from world [w]: those of the
    write, followed by events that are none of a write's. *)
Definition events_report (pc : PublicClient) (wc : WalletClient) (call : ContractCall)
    (w : World) (res : Outcome Hash * World) : Prop :=
  exists rest,
    log (snd res) = (log w ++ write_events pc wc call ++ rest)%list /\
    filter is_write_event rest = [].

(** A uint256, the type of the balances and allowances of the ABI. *)
Definition uint256 (n : Z) : Prop := 0 <= n < 2 ^ 256.

(** ** Vocabulary of the further statements *)

Definition deployment_states (l : list Event) : list DeploymentState :=
  flat_map (fun e => match e with Set_ (SetDeploymentState s) => [s] | _ => [] end) l.

Definition balance_states (l : list Event) : list (AsyncState BalanceInfo) :=
  flat_map (fun e => match e with Set_ (SetBalance s) => [s] | _ => [] end) l.

Definition token_info_states (l : list Event) : list (AsyncState TokenInfo) :=
  flat_map (fun e => match e with Set_ (SetTokenInfo s) => [s] | _ => [] end) l.

(** The request [deployToken] sends for the hook options and the
    parameters of the call, field by field. *)
Definition deploy_request (key : string) (rpcEndpoint : option string)
    (network : SupportedNetwork) (apiUrl : option string) (params : DeployTokenParams)
    : HttpRequest :=
  {| rq_url := (match apiUrl with Some u => u | None => "http://localhost:4000" end)
               ++ "/deploy-token";
     rq_method := "POST";
     rq_headers := [("Content-Type", "application/json")];
     rq_body :=
       {| rb_name := dp_name params;
          rb_symbol := dp_symbol params;
          rb_initialSupply := dp_initialSupply params;
          rb_factoryAddress :=
            Some (match dp_factoryAddress params with
                  | Some (String c a) => String c a
                  | _ => FACTORY_ADDRESSES network
                  end);
          rb_privateKey := key;
          rb_rpcEndpoint :=
            match rpcEndpoint with
            | Some (String c r) => String c r
            | _ => RPC_ENDPOINTS network
            end |} |}.

(** The world [deployToken] leaves when it fails with [e], and when it
    succeeds with [r], having sent [req] from world [w]. *)
Definition deploy_failed (w : World) (req : HttpRequest) (e : Error) : World :=
  {| cells := {| tokenInfo := tokenInfo (cells w); balance := balance (cells w);
                 txState := txState (cells w);
                 deploymentState := dep_error e; error := Some e |};
     log := (log w ++ [Set_ (SetError None); Set_ (SetDeploymentState dep_deploying);
                       Call (Fetch req);
                       Set_ (SetError (Some e)); Set_ (SetDeploymentState (dep_error e))])%list |}.

Definition deploy_succeeded (w : World) (req : HttpRequest) (r : DeployTokenResult) : World :=
  {| cells := {| tokenInfo := tokenInfo (cells w); balance := balance (cells w);
                 txState := txState (cells w);
                 deploymentState := dep_success r; error := None |};
     log := (log w ++ [Set_ (SetError None); Set_ (SetDeploymentState dep_deploying);
                       Call (Fetch req);
                       Set_ (SetDeploymentState (dep_success r))])%list |}.

(** The error [deployERC20TokenViaAPI] builds for an answer outside
    200-299, or what building it throws. *)
Definition non_2xx_error (response : HttpResponse) : Outcome Error :=
  (let errorData :=
     match json response with
     | inr value => value
     | inl _ => js_object [("error", js_string "Unknown error")]
     end in
   message <- get_property errorData "error" ;;
   new_Error (or_value message
                (js_string ("Deployment failed with status "
                            ++ Js.nat_toString (status response)))))%outcome.

(** What [deployERC20TokenViaAPI] settles to, by the answer of the
    gateway. *)
Definition api_outcome (response : HttpResponse) : Outcome DeployTokenResult :=
  (if ok response then
     result <- json response ;;
     tokenAddress <- get_property result "tokenAddress" ;;
     txHash <- get_property result "txHash" ;;
     success <- get_property result "success" ;;
     deployOutput <- get_property result "deployOutput" ;;
     initOutput <- get_property result "initOutput" ;;
     registerOutput <- get_property result "registerOutput" ;;
     inr {| dr_tokenAddress := tokenAddress;
            dr_txHash := or_value txHash (js_string "0x");
            dr_success := success;
            dr_deployOutput := deployOutput;
            dr_initOutput := initOutput;
            dr_registerOutput := registerOutput |}
   else
     err <- non_2xx_error response ;;
     raise err)%outcome.

(** The world a balance refresh leaves, started in [w] with a read client
    and the account [user], when the cell ends as [final]. *)
Definition balance_refreshed (w : World) (contractAddress user : Address)
    (final : AsyncState BalanceInfo) : World :=
  {| cells := {| tokenInfo := tokenInfo (cells w); balance := final;
                 txState := txState (cells w);
                 deploymentState := deploymentState (cells w); error := error (cells w) |};
     log := (log w ++ [Set_ (SetBalance as_loading);
                       Call (ReadContract contractAddress (fn_balanceOf user));
                       Set_ (SetBalance final)])%list |}.

(** The six reads of a token-info refresh, in the order they are issued. *)
Definition token_info_reads (contractAddress : Address) : list GatewayCall :=
  [ReadContract contractAddress fn_name; ReadContract contractAddress fn_symbol;
   ReadContract contractAddress fn_decimals; ReadContract contractAddress fn_totalSupply;
   ReadContract contractAddress fn_owner; ReadContract contractAddress fn_paused].

(** The world a token-info refresh leaves, started in [w] with a read
    client, when the cell ends as [final]. *)
Definition token_info_refreshed (w : World) (contractAddress : Address)
    (final : AsyncState TokenInfo) : World :=
  {| cells := {| tokenInfo := final; balance := balance (cells w);
                 txState := txState (cells w);
                 deploymentState := deploymentState (cells w); error := error (cells w) |};
     log := (log w ++ Set_ (SetTokenInfo as_loading)
                      :: map Call (token_info_reads contractAddress)
                      ++ [Set_ (SetTokenInfo final)])%list |}.

(** All six reads of the token return. *)
Definition token_reads_return (pc : PublicClient) (contractAddress : Address) : Prop :=
  (exists v, readContract pc contractAddress fn_name = inr v) /\
  (exists v, readContract pc contractAddress fn_symbol = inr v) /\
  (exists v, readContract pc contractAddress fn_decimals = inr v) /\
  (exists v, readContract pc contractAddress fn_totalSupply = inr v) /\
  (exists v, readContract pc contractAddress fn_owner = inr v) /\
  (exists v, readContract pc contractAddress fn_paused = inr v).





(** A computation that, from any world, adds events whose gateway calls
    are [cs]. *)
Definition emits_calls {A} (m : Async A) (cs : list GatewayCall) : Prop :=
  forall w, exists evs, log (snd (m w)) = (log w ++ evs)%list /\ calls evs = cs.


(** The ABI function each ethers write helper calls, and the decimal
    amount it takes, when it takes one. *)
Definition lib_function_of (op : Interactions.LibWrite) : string :=
  match op with
  | Interactions.lw_transfer _ _ => "transfer"
  | Interactions.lw_approve _ _ => "approve"
  | Interactions.lw_transferFrom _ _ _ => "transferFrom"
  | Interactions.lw_mint _ _ => "mint"
  | Interactions.lw_burn _ => "burn"
  | Interactions.lw_pause => "pause"
  | Interactions.lw_unpause => "unpause"
  | Interactions.lw_transferOwnership _ => "transferOwnership"
  end.

Definition lib_amount_of (op : Interactions.LibWrite) : option string :=
  match op with
  | Interactions.lw_transfer _ a | Interactions.lw_approve _ a
  | Interactions.lw_transferFrom _ _ a | Interactions.lw_mint _ a
  | Interactions.lw_burn a => Some a
  | Interactions.lw_pause | Interactions.lw_unpause
  | Interactions.lw_transferOwnership _ => None
  end.

Definition lib_amount_ok (op : Interactions.LibWrite) : Prop :=
  match lib_amount_of op with
  | Some a => exists n, Ethers.parseUnits a TOKEN_DECIMALS = inr n
  | None => True
  end.

(** The six reads of the ethers [getTokenInfo], in the order they are
    issued. *)
Definition lib_token_info_reads (rpc : string) (contractAddress : Address)
    : list GatewayCall :=
  [EthersView rpc contractAddress fn_name; EthersView rpc contractAddress fn_symbol;
   EthersView rpc contractAddress fn_decimals; EthersView rpc contractAddress fn_totalSupply;
   EthersView rpc contractAddress fn_owner; EthersView rpc contractAddress fn_paused].

(** The steps the ethers write helpers share once wallet and amount are
    validated: send the transaction, wait for it, return the hash of the
    receipt. *)
Definition send_and_wait (ethers : EthersGateway) (rpc key : string)
    (contractAddress : Address) (fn : string) (args : list AbiValue) : Async Hash :=
  tx <- await (EthersSend rpc key contractAddress fn args)
              (eth_send ethers rpc key contractAddress fn args) ;;
  receipt <- await (EthersWait tx) (eth_wait ethers tx) ;;
  ret receipt.

(** The pieces of a printed decimal: its sign, and its fraction with the
    dot in front when there is a fraction. *)
Definition sign_of (neg : bool) : Js.chars := if neg then [Js.minus_char] else [].

Definition dotted (frac : Js.chars) : Js.chars :=
  match frac with [] => [] | _ => Js.dot_char :: frac end.

(** ** Sample gateways

    Concrete gateways on which the statements below are run: a token of
    1000 units at 18 decimals whose every call succeeds, and a token of 6
    decimals with an empty balance. *)

Definition sample_public_client : PublicClient :=
  {| readContract := fun _ f =>
       match f return Outcome (view_result f) with
       | fn_name => inr "Token"
       | fn_symbol => inr "TKN"
       | fn_decimals => inr 18%nat
       | fn_totalSupply => inr 1000000000000000000000%Z
       | fn_owner => inr "0x0f"
       | fn_paused => inr false
       | fn_balanceOf _ => inr 5500000000000000000%Z
       | fn_allowance _ _ => inr 1500000000000000000%Z
       end;
     simulateContract := fun call => inr call;
     waitForTransactionReceipt := fun _ => inr tt |}.

Definition sample_wallet_client : WalletClient :=
  {| account := Some "0xaa"; writeContract := fun _ => inr "0x7e57" |}.

Definition sample_ethers : EthersGateway :=
  {| new_Wallet := fun _ => inr tt;
     eth_view := fun _ _ f => readContract sample_public_client "" f;
     eth_send := fun _ _ _ _ _ => inr "0x7e57";
     eth_wait := fun tx => inr tx;
     eth_getAllDeployedTokens := fun _ _ => inr ["0xAbCd"; "0x1234"] |}.

Definition six_decimals_client : PublicClient :=
  {| readContract := fun _ f =>
       match f return Outcome (view_result f) with
       | fn_name => inr "Coin"
       | fn_symbol => inr "CN"
       | fn_decimals => inr 6%nat
       | fn_totalSupply => inr 1000000%Z
       | fn_owner => inr "0x0f"
       | fn_paused => inr false
       | fn_balanceOf _ => inr 0%Z
       | fn_allowance _ _ => inr 0%Z
       end;
     simulateContract := fun call => inr call;
     waitForTransactionReceipt := fun _ => inr tt |}.

Definition six_decimals_ethers : EthersGateway :=
  {| new_Wallet := fun _ => inr tt;
     eth_view := fun _ _ f => readContract six_decimals_client "" f;
     eth_send := fun _ _ _ _ _ => inr "0x7e57";
     eth_wait := fun tx => inr tx;
     eth_getAllDeployedTokens := fun _ _ => inr [] |}.

(** No rounding: a stand-in for [Math.round(Number(s))] where a run never
    reaches it. *)
Definition no_rounding : Js.chars -> Z := fun _ => 0%Z.

Definition sample_params : DeployTokenParams :=
  {| dp_name := "Token"; dp_symbol := "TKN"; dp_initialSupply := "1000";
     dp_factoryAddress := None |}.

(** * Properties *)

(** ** Decimal digits *)

Module JsFacts.
Import Js.
Local Open Scope list_scope.
Local Open Scope Z_scope.

Lemma digit_char_val d : 0 <= d < 10 -> digit_val (digit_char d) = d.
Proof.
  intros H. unfold digit_val, digit_char.
  rewrite nat_ascii_embedding by lia. lia.
Qed.

Lemma digit_char_is_digit d : 0 <= d < 10 -> is_digit (digit_char d) = true.
Proof.
  intros H. unfold is_digit, digit_char.
  rewrite nat_ascii_embedding by lia.
  apply andb_true_intro; split; apply Nat.leb_le; lia.
Qed.

Lemma is_digit_val_range c : is_digit c = true -> 0 <= digit_val c < 10.
Proof.
  unfold is_digit, digit_val. intros H.
  apply andb_prop in H as [H1 H2].
  apply Nat.leb_le in H1, H2. lia.
Qed.

Lemma is_digit_not_dot c : is_digit c = true -> Ascii.eqb c dot_char = false.
Proof.
  intros H. destruct (Ascii.eqb_spec c dot_char) as [->|]; [discriminate H | reflexivity].
Qed.

Lemma is_digit_not_minus c : is_digit c = true -> Ascii.eqb c minus_char = false.
Proof.
  intros H. destruct (Ascii.eqb_spec c minus_char) as [->|]; [discriminate H | reflexivity].
Qed.

Lemma all_digits_app a b : all_digits (a ++ b) = all_digits a && all_digits b.
Proof. apply forallb_app. Qed.

Lemma all_digits_repeat_zero n : all_digits (repeat zero_char n) = true.
Proof. induction n; simpl; auto. Qed.

Lemma value_fold l : forall acc,
  fold_left (fun a c => 10 * a + digit_val c) l acc
  = acc * 10 ^ Z.of_nat (List.length l) + digits_value l.
Proof.
  unfold digits_value. induction l as [|c l IH]; intros acc.
  - simpl. lia.
  - cbn [fold_left List.length]. rewrite IH. rewrite (IH (10 * 0 + digit_val c)).
    rewrite Nat2Z.inj_succ, Z.pow_succ_r by lia. ring.
Qed.

Lemma digits_value_app a b :
  digits_value (a ++ b) = digits_value a * 10 ^ Z.of_nat (List.length b) + digits_value b.
Proof.
  unfold digits_value at 1. rewrite fold_left_app.
  fold (digits_value a). apply value_fold.
Qed.

Lemma digits_value_cons c l :
  digits_value (c :: l) = digit_val c * 10 ^ Z.of_nat (List.length l) + digits_value l.
Proof. apply (digits_value_app [c] l). Qed.

Lemma digits_value_repeat_zero n : digits_value (repeat zero_char n) = 0.
Proof.
  induction n; [reflexivity|].
  cbn [repeat]. rewrite digits_value_cons, IHn. reflexivity.
Qed.

Lemma digits_value_nonneg l : all_digits l = true -> 0 <= digits_value l.
Proof.
  induction l as [|c l IH]; intros H; [reflexivity|].
  simpl in H. apply andb_prop in H as [Hc Hl].
  rewrite digits_value_cons. apply is_digit_val_range in Hc.
  specialize (IH Hl). nia.
Qed.

Lemma digits_value_single c : digits_value [c] = digit_val c.
Proof. unfold digits_value. cbn [fold_left]. lia. Qed.

Lemma one_digit n : 0 <= n < 10 ->
  all_digits [digit_char (n mod 10)] = true /\
  [digit_char (n mod 10)] <> [] /\
  digits_value [digit_char (n mod 10)] = n.
Proof.
  intros H. rewrite Z.mod_small by lia. repeat split.
  - cbn [all_digits forallb]. rewrite digit_char_is_digit by lia. reflexivity.
  - discriminate.
  - rewrite digits_value_single. apply digit_char_val. lia.
Qed.

(** The printer: digits only, at least one, spelling the number. *)
Lemma digits_aux_spec fuel : forall n acc,
  0 <= n < 2 ^ Z.of_nat (S fuel) ->
  exists ds, digits_aux (S fuel) n acc = ds ++ acc /\
             all_digits ds = true /\ ds <> [] /\ digits_value ds = n.
Proof.
  induction fuel as [|fuel IH]; intros n acc Hn.
  - exists [digit_char (n mod 10)].
    assert (Hlt : n < 10) by (change (2 ^ Z.of_nat 1) with 2 in Hn; lia).
    split; [|apply one_digit; lia].
    cbn [digits_aux]. destruct (n <? 10); reflexivity.
  - assert (Hm : 0 <= n mod 10 < 10) by (apply Z.mod_pos_bound; lia).
    change (digits_aux (S (S fuel)) n acc) with
      (if n <? 10 then digit_char (n mod 10) :: acc
       else digits_aux (S fuel) (n / 10) (digit_char (n mod 10) :: acc)).
    destruct (Z.ltb_spec n 10) as [Hlt|Hge].
    + exists [digit_char (n mod 10)]. split; [reflexivity | apply one_digit; lia].
    + assert (Hq : 0 <= n / 10 < 2 ^ Z.of_nat (S fuel)).
      { split; [apply Z.div_pos; lia|].
        apply Z.div_lt_upper_bound; [lia|].
        rewrite (Nat2Z.inj_succ (S fuel)), Z.pow_succ_r in Hn by lia. lia. }
      destruct (IH (n / 10) (digit_char (n mod 10) :: acc) Hq) as (ds & E & Hd & Hne & Hv).
      exists (ds ++ [digit_char (n mod 10)]). repeat split.
      * rewrite E, <- app_assoc. reflexivity.
      * rewrite all_digits_app, Hd. cbn [all_digits forallb andb].
        rewrite digit_char_is_digit by assumption. reflexivity.
      * destruct ds; discriminate.
      * rewrite digits_value_app, Hv, digits_value_single.
        rewrite digit_char_val by assumption.
        cbn [List.length]. change (10 ^ Z.of_nat 1) with 10.
        pose proof (Z.div_mod n 10). lia.
Qed.

Lemma uint_toString_spec n : 0 <= n ->
  all_digits (uint_toString n) = true /\ uint_toString n <> [] /\
  digits_value (uint_toString n) = n.
Proof.
  intros Hn. unfold uint_toString.
  assert (Hb : 0 <= n < 2 ^ Z.of_nat (S (Z.to_nat (Z.log2 n)))).
  { split; [assumption|].
    rewrite Nat2Z.inj_succ, Z2Nat.id by apply Z.log2_nonneg.
    destruct (Z.eq_dec n 0) as [->|]; [reflexivity|].
    apply Z.log2_spec. lia. }
  destruct (digits_aux_spec _ n [] Hb) as (ds & E & Hd & Hne & Hv).
  rewrite E, app_nil_r. auto.
Qed.

End JsFacts.

(** ** String surgery *)

Module SurgeryFacts.
Import Js JsFacts.
Local Open Scope list_scope.
Local Open Scope Z_scope.

Lemma padStart_spec n s :
  exists j, padStart n s = repeat zero_char j ++ s /\
            (n <= List.length (padStart n s))%nat.
Proof.
  unfold padStart. exists (n - List.length s)%nat. split; [reflexivity|].
  rewrite length_app, repeat_length. lia.
Qed.

Lemma drop_leading_zeros_spec s :
  exists j, s = repeat zero_char j ++ drop_leading_zeros s.
Proof.
  induction s as [|c s (j & IH)].
  - exists O. reflexivity.
  - cbn [drop_leading_zeros]. destruct (Ascii.eqb_spec c zero_char) as [->|].
    + exists (S j). cbn [repeat app]. f_equal. exact IH.
    + exists O. reflexivity.
Qed.

Lemma rev_repeat {A} (x : A) n : rev (repeat x n) = repeat x n.
Proof.
  induction n; [reflexivity|].
  cbn [repeat rev]. rewrite IHn. symmetry. apply repeat_cons.
Qed.

Lemma trim_trailing_zeros_spec s :
  exists j, s = trim_trailing_zeros s ++ repeat zero_char j.
Proof.
  unfold trim_trailing_zeros.
  destruct (drop_leading_zeros_spec (rev s)) as (j & E).
  exists j. apply (f_equal (@rev ascii)) in E.
  rewrite rev_involutive, rev_app_distr, rev_repeat in E. exact E.
Qed.

Lemma split_dot_digits ds :
  all_digits ds = true -> split_dot ds = (ds, None).
Proof.
  induction ds as [|c ds IH]; intros H; [reflexivity|].
  cbn [all_digits forallb] in H. apply andb_prop in H as [Hc Hd].
  cbn [split_dot]. rewrite (is_digit_not_dot _ Hc), (IH Hd). reflexivity.
Qed.

Lemma split_dot_digits_dot ds rest :
  all_digits ds = true -> split_dot (ds ++ dot_char :: rest) = (ds, Some rest).
Proof.
  induction ds as [|c ds IH]; intros H; [reflexivity|].
  cbn [all_digits forallb] in H. apply andb_prop in H as [Hc Hd].
  cbn [split_dot app]. rewrite (is_digit_not_dot _ Hc), (IH Hd). reflexivity.
Qed.

Lemma startsWith_minus_digits ds rest :
  all_digits ds = true -> ds <> [] -> startsWith_minus (ds ++ rest) = false.
Proof.
  destruct ds as [|c ds]; intros H Hne; [congruence|].
  cbn [all_digits forallb] in H. apply andb_prop in H as [Hc _].
  cbn [app startsWith_minus]. apply is_digit_not_minus. exact Hc.
Qed.

Lemma of_to_string l : of_string (to_string l) = l.
Proof. apply list_ascii_of_string_of_list_ascii. Qed.

Lemma pow10_add a b : 10 ^ Z.of_nat (a + b) = 10 ^ Z.of_nat a * 10 ^ Z.of_nat b.
Proof. rewrite Nat2Z.inj_add, Z.pow_add_r by lia. reflexivity. Qed.

Lemma pow10_pos a : 0 < 10 ^ Z.of_nat a.
Proof. apply Z.pow_pos_nonneg; lia. Qed.

End SurgeryFacts.

(** ** What the formatted strings denote *)

Module DecimalFacts.
Import Js JsFacts SurgeryFacts Decimal.
Local Open Scope list_scope.
Local Open Scope Z_scope.

(** The shape both libraries print: digits, then possibly a dot and more
    digits.  [whole] and [frac ++ zeros] are the two halves of a digit
    string of value [n] cut [d] characters from the right. *)
Lemma unsigned_value_shape whole frac j n d :
  all_digits whole = true -> whole <> [] -> all_digits frac = true ->
  (List.length frac + j = d)%nat ->
  digits_value whole * 10 ^ Z.of_nat d + digits_value frac * 10 ^ Z.of_nat j = n ->
  exists m k,
    unsigned_value (whole ++ match frac with [] => [] | _ => dot_char :: frac end)
      = Some (m, k) /\
    m * 10 ^ Z.of_nat d = n * 10 ^ Z.of_nat k.
Proof.
  intros Hw Hne Hf Hlen Hn. unfold unsigned_value.
  destruct frac as [|c frac'].
  - rewrite app_nil_r, (split_dot_digits _ Hw), Hw.
    destruct whole; [congruence|].
    eexists _, O. split; [reflexivity|].
    rewrite <- Hn. change (digits_value []) with 0. change (10 ^ Z.of_nat 0) with 1. ring.
  - rewrite (split_dot_digits_dot _ _ Hw), Hw, Hf.
    destruct whole; [congruence|]. cbn [andb].
    eexists _, _. split; [reflexivity|].
    rewrite digits_value_app, <- Hn, <- Hlen, pow10_add. ring.
Qed.

Lemma denotes_signed (neg : bool) body n d :
  startsWith_minus body = false ->
  (exists m k, unsigned_value body = Some (m, k) /\
               m * 10 ^ Z.of_nat d = n * 10 ^ Z.of_nat k) ->
  denotes (to_string ((if neg then [minus_char] else []) ++ body))
          (if neg then - n else n) d.
Proof.
  intros Hs (m & k & E & Hv). unfold denotes, decimal_value. rewrite of_to_string.
  destruct neg; cbn [app].
  - cbn [startsWith_minus skipn]. rewrite Ascii.eqb_refl, E.
    exists (- m), k. split; [reflexivity | lia].
  - rewrite Hs, E. exists m, k. split; [reflexivity | assumption].
Qed.

(** A decimal string fixes the number of decimals of a non-zero amount. *)
Lemma denotes_decimals_unique s raw a b :
  raw <> 0 -> denotes s raw a -> denotes s raw b -> a = b.
Proof.
  intros Hr (m & k & E1 & H1) (m' & k' & E2 & H2).
  rewrite E1 in E2. injection E2 as <- <-.
  assert (Hm : m <> 0).
  { intros ->. pose proof (pow10_pos k). nia. }
  assert (Hp : 10 ^ Z.of_nat a = 10 ^ Z.of_nat b).
  { apply (Z.mul_reg_l _ _ m); [assumption | lia]. }
  apply Z.pow_inj_r in Hp; lia.
Qed.

Lemma denotes_zero_any_decimals s a b : denotes s 0 a -> denotes s 0 b.
Proof.
  intros (m & k & E & H). exists m, k. split; [assumption|].
  assert (m = 0) by (pose proof (pow10_pos a); nia). subst. lia.
Qed.

End DecimalFacts.

Module ViemFacts.
Import Js JsFacts SurgeryFacts Decimal DecimalFacts.
Local Open Scope list_scope.
Local Open Scope Z_scope.

(** Cutting a digit string [d] characters from the right and dropping the
    trailing zeros of the right half loses nothing. *)
Lemma cut_digits display d :
  all_digits display = true -> (d <= List.length display)%nat ->
  let cut := (List.length display - d)%nat in
  let frac := trim_trailing_zeros (skipn cut display) in
  exists j,
    all_digits (firstn cut display) = true /\ all_digits frac = true /\
    (List.length frac + j = d)%nat /\
    digits_value (firstn cut display) * 10 ^ Z.of_nat d
      + digits_value frac * 10 ^ Z.of_nat j = digits_value display.
Proof.
  intros Hd Hlen cut frac.
  destruct (trim_trailing_zeros_spec (skipn cut display)) as (j & E).
  fold frac in E. exists j.
  assert (Hsplit : display = firstn cut display ++ frac ++ repeat zero_char j).
  { rewrite <- E. symmetry. apply firstn_skipn. }
  assert (Hl : List.length (skipn cut display) = d).
  { rewrite length_skipn. unfold cut. lia. }
  rewrite Hsplit, !all_digits_app in Hd.
  apply andb_prop in Hd as [H1 H2]. apply andb_prop in H2 as [H2 _].
  repeat split; try assumption.
  - rewrite E, length_app, repeat_length in Hl. exact Hl.
  - assert (Hv : digits_value display
                 = digits_value (firstn cut display ++ skipn cut display))
      by (rewrite firstn_skipn; reflexivity).
    rewrite Hv, digits_value_app, Hl.
    rewrite E, digits_value_app, digits_value_repeat_zero, repeat_length. ring.
Qed.

Lemma whole_or_zero integer :
  all_digits integer = true ->
  let whole := match integer with [] => [zero_char] | _ => integer end in
  all_digits whole = true /\ whole <> [] /\ digits_value whole = digits_value integer.
Proof.
  intros H. destruct integer; cbn zeta.
  - repeat split; discriminate.
  - repeat split; [assumption | discriminate].
Qed.

(** [formatUnits] of a magnitude, without the sign. *)
Lemma format_magnitude n d (neg : bool) :
  0 <= n ->
  let display := padStart d (uint_toString n) in
  let cut := (List.length display - d)%nat in
  let integer := firstn cut display in
  let fraction := trim_trailing_zeros (skipn cut display) in
  denotes
    (to_string
       ((if neg then [minus_char] else []) ++
        (match integer with [] => [zero_char] | _ => integer end) ++
        (match fraction with [] => [] | _ => dot_char :: fraction end)))
    (if neg then - n else n) d.
Proof.
  intros Hn display cut integer fraction.
  destruct (uint_toString_spec n Hn) as (Hd & Hne & Hv).
  destruct (padStart_spec d (uint_toString n)) as (j & Epad & Hlen).
  fold display in Epad, Hlen.
  assert (Hdd : all_digits display = true).
  { rewrite Epad, all_digits_app, all_digits_repeat_zero, Hd. reflexivity. }
  assert (Hdv : digits_value display = n).
  { rewrite Epad, digits_value_app, digits_value_repeat_zero, Hv. ring. }
  destruct (cut_digits display d Hdd Hlen) as (k & Hi & Hf & Hl & Hval).
  fold cut in Hi, Hval. fold integer in Hi, Hval. fold fraction in Hf, Hl, Hval.
  destruct (whole_or_zero integer Hi) as (Hw & Hwne & Hwv).
  apply denotes_signed.
  - apply startsWith_minus_digits; assumption.
  - apply (unsigned_value_shape _ fraction k n d); try assumption.
    rewrite Hwv, Hval. exact Hdv.
Qed.

(** [formatUnits value decimals] is an exact decimal expansion of
    value / 10^decimals, for every bigint and every number of decimals. *)
Lemma viem_formatUnits_denotes value decimals :
  denotes (Viem.formatUnits value decimals) value decimals.
Proof.
  unfold Viem.formatUnits, bigint_toString.
  destruct (Z.ltb_spec value 0) as [Hneg|Hpos].
  - cbn [startsWith_minus skipn]. rewrite Ascii.eqb_refl.
    assert (Hn : 0 <= - value) by lia.
    pose proof (format_magnitude (- value) decimals true Hn) as H.
    cbn zeta in H. rewrite Z.opp_involutive in H. exact H.
  - destruct (uint_toString_spec value Hpos) as (Hd & Hne & _).
    pose proof (startsWith_minus_digits (uint_toString value) [] Hd Hne) as Hs.
    rewrite app_nil_r in Hs. rewrite Hs.
    apply (format_magnitude value decimals false Hpos).
Qed.

End ViemFacts.

Module EthersFacts.
Import Js JsFacts SurgeryFacts Decimal DecimalFacts.
Local Open Scope list_scope.
Local Open Scope Z_scope.

Lemma all_digits_rev l : all_digits (rev l) = all_digits l.
Proof.
  induction l as [|c l IH]; [reflexivity|].
  cbn [rev]. rewrite all_digits_app, IH. cbn [all_digits forallb].
  rewrite andb_true_r. apply andb_comm.
Qed.

(** The padding loop only adds zeros in front, and with fuel for
    [decimals + 1] rounds it ends with more than [decimals] characters. *)
Lemma pad_whole_spec fuel d : forall s,
  exists j, Ethers.pad_whole fuel d s = repeat zero_char j ++ s /\
            ((d < List.length (Ethers.pad_whole fuel d s))%nat \/
             (List.length s + 4 * fuel <= List.length (Ethers.pad_whole fuel d s))%nat).
Proof.
  induction fuel as [|fuel IH]; intros s.
  - exists O. cbn [Ethers.pad_whole repeat app]. split; [reflexivity | right; lia].
  - cbn [Ethers.pad_whole]. destruct (Nat.leb_spec (List.length s) d) as [Hle|Hgt].
    + destruct (IH (Ethers.Zeros ++ s)) as (j & E & Hl).
      exists (j + 4)%nat. split.
      * rewrite E, repeat_app, <- app_assoc. reflexivity.
      * destruct Hl as [Hl|Hl]; [left; exact Hl | right].
        rewrite length_app in Hl. cbn [Ethers.Zeros List.length] in Hl. lia.
    + exists O. split; [reflexivity | left; exact Hgt].
Qed.

Lemma pad_whole_enough d s :
  exists j, Ethers.pad_whole (S d) d s = repeat zero_char j ++ s /\
            (d < List.length (Ethers.pad_whole (S d) d s))%nat.
Proof.
  destruct (pad_whole_spec (S d) d s) as (j & E & Hl).
  exists j. split; [exact E | lia].
Qed.

Lemma trim_whole_cons c0 rest :
  Ethers.trim_whole (c0 :: rest)
  = if Ascii.eqb c0 zero_char &&
       match rest with c1 :: _ => negb (Ascii.eqb c1 dot_char) | [] => true end
    then Ethers.trim_whole rest else c0 :: rest.
Proof. reflexivity. Qed.

(** Trimming in front of a dot keeps at least one digit and removes only
    zeros. *)
Lemma trim_whole_spec ds : forall rest,
  all_digits ds = true -> ds <> [] ->
  exists j ds',
    Ethers.trim_whole (ds ++ dot_char :: rest) = ds' ++ dot_char :: rest /\
    ds = repeat zero_char j ++ ds' /\ ds' <> [].
Proof.
  induction ds as [|c ds IH]; intros rest Hd Hne; [congruence|].
  cbn [all_digits forallb] in Hd. apply andb_prop in Hd as [Hc Hd].
  destruct ds as [|c1 ds1].
  - exists O, [c]. cbn [app]. rewrite trim_whole_cons, Ascii.eqb_refl.
    cbn [negb]. rewrite andb_false_r. repeat split; discriminate.
  - cbn [app]. rewrite trim_whole_cons.
    assert (Hc1 : Ascii.eqb c1 dot_char = false).
    { cbn [all_digits forallb] in Hd. apply andb_prop in Hd as [H1 _].
      apply is_digit_not_dot. exact H1. }
    rewrite Hc1. cbn [negb]. rewrite andb_true_r.
    destruct (Ascii.eqb_spec c zero_char) as [->|Hnz].
    + destruct (IH rest Hd) as (j & ds' & E & Eds & Hne'); [discriminate|].
      exists (S j), ds'. cbn [app] in E. rewrite E. repeat split; try assumption.
      cbn [repeat app]. f_equal. exact Eds.
    + exists O, (c :: c1 :: ds1). repeat split; discriminate.
Qed.

Lemma rev_around_dot a b :
  rev (a ++ dot_char :: b) = rev b ++ dot_char :: rev a.
Proof. rewrite rev_app_distr. cbn [rev]. rewrite <- app_assoc. reflexivity. Qed.

Lemma trim_decimal_spec whole frac0 :
  all_digits frac0 = true -> frac0 <> [] ->
  exists j frac,
    Ethers.trim_decimal (whole ++ dot_char :: frac0) = whole ++ dot_char :: frac /\
    frac0 = frac ++ repeat zero_char j /\ frac <> [].
Proof.
  intros Hd Hne. unfold Ethers.trim_decimal. rewrite rev_around_dot.
  destruct (trim_whole_spec (rev frac0) (rev whole)) as (j & fr & E & Efr & Hfr).
  - rewrite all_digits_rev. exact Hd.
  - intros H. apply (f_equal (@rev ascii)) in H. rewrite rev_involutive in H.
    exact (Hne H).
  - exists j, (rev fr). rewrite E, rev_around_dot, rev_involutive. repeat split.
    + apply (f_equal (@rev ascii)) in Efr.
      rewrite rev_involutive, rev_app_distr, rev_repeat in Efr. exact Efr.
    + intros H. apply (f_equal (@rev ascii)) in H. rewrite rev_involutive in H.
      exact (Hfr H).
Qed.

(** The printed magnitude of a fixed-point number, for [decimals > 0]. *)
Lemma fixed_magnitude n d :
  0 <= n -> d <> O ->
  let str1 := Ethers.pad_whole (S d) d (uint_toString n) in
  let index := (List.length str1 - d)%nat in
  let str2 := firstn index str1 ++ dot_char :: skipn index str1 in
  startsWith_minus (Ethers.trim_decimal (Ethers.trim_whole str2)) = false /\
  exists m k,
    unsigned_value (Ethers.trim_decimal (Ethers.trim_whole str2)) = Some (m, k) /\
    m * 10 ^ Z.of_nat d = n * 10 ^ Z.of_nat k.
Proof.
  intros Hn Hd0 str1 index str2.
  destruct (uint_toString_spec n Hn) as (Hd & Hne & Hv).
  destruct (pad_whole_enough d (uint_toString n)) as (p & Epad & Hlen).
  fold str1 in Epad, Hlen.
  assert (Hds : all_digits str1 = true).
  { rewrite Epad, all_digits_app, all_digits_repeat_zero, Hd. reflexivity. }
  assert (Hval : digits_value str1 = n).
  { rewrite Epad, digits_value_app, digits_value_repeat_zero, Hv. ring. }
  assert (Hcat : str1 = firstn index str1 ++ skipn index str1)
    by (symmetry; apply firstn_skipn).
  assert (Hlf : List.length (skipn index str1) = d)
    by (rewrite length_skipn; unfold index; lia).
  assert (Hlw : List.length (firstn index str1) = index)
    by (apply firstn_length_le; unfold index; lia).
  set (whole := firstn index str1) in *. set (frac0 := skipn index str1) in *.
  rewrite Hcat, all_digits_app in Hds. apply andb_prop in Hds as [Hw Hf].
  assert (Hwne : whole <> []).
  { intros E. rewrite E in Hlw. cbn [List.length] in Hlw. unfold index in Hlw. lia. }
  assert (Hfne : frac0 <> []).
  { intros E. rewrite E in Hlf. cbn [List.length] in Hlf. congruence. }
  destruct (trim_whole_spec whole frac0 Hw Hwne) as (j & whole' & Ew & Ewh & Hwne').
  destruct (trim_decimal_spec whole' frac0 Hf Hfne) as (k & frac & Et & Efr & Hfrne).
  unfold str2. rewrite Ew, Et.
  assert (Hw' : all_digits whole' = true).
  { rewrite Ewh, all_digits_app in Hw. apply andb_prop in Hw as [_ H]. exact H. }
  assert (Hf' : all_digits frac = true).
  { rewrite Efr, all_digits_app in Hf. apply andb_prop in Hf as [H _]. exact H. }
  split; [apply startsWith_minus_digits; assumption|].
  pose proof (unsigned_value_shape whole' frac k n d Hw' Hwne' Hf') as Hshape.
  destruct frac as [|c frac']; [congruence|].
  apply Hshape.
  - rewrite Efr, length_app, repeat_length in Hlf. exact Hlf.
  - rewrite <- Hval, Hcat, digits_value_app, Hlf.
    rewrite Ewh, Efr, !digits_value_app, !digits_value_repeat_zero, repeat_length. ring.
Qed.

Lemma fixed_body_denotes n d (neg : bool) :
  0 <= n ->
  let sign := if neg then [minus_char] else [] in
  denotes
    (to_string
       (if Nat.eqb d 0 then sign ++ uint_toString n
        else
          let str1 := Ethers.pad_whole (S d) d (uint_toString n) in
          let index := (List.length str1 - d)%nat in
          let str2 := firstn index str1 ++ dot_char :: skipn index str1 in
          sign ++ Ethers.trim_decimal (Ethers.trim_whole str2)))
    (if neg then - n else n) d.
Proof.
  intros Hn sign.
  destruct (Nat.eqb_spec d 0) as [->|Hd0].
  - destruct (uint_toString_spec n Hn) as (Hd & Hne & Hv).
    apply denotes_signed.
    + pose proof (startsWith_minus_digits (uint_toString n) [] Hd Hne) as Hs.
      rewrite app_nil_r in Hs. exact Hs.
    + pose proof (unsigned_value_shape (uint_toString n) [] O n O Hd Hne) as Hshape.
      rewrite app_nil_r in Hshape. apply Hshape; [reflexivity | reflexivity|].
      rewrite Hv. change (digits_value []) with 0. change (10 ^ Z.of_nat 0) with 1. ring.
  - destruct (fixed_magnitude n d Hn Hd0) as (Hs & Hex).
    apply denotes_signed; assumption.
Qed.

Lemma fixed_toString_denotes val d :
  denotes (to_string (Ethers.fixed_toString val d)) val d.
Proof.
  unfold Ethers.fixed_toString.
  destruct (Z.ltb_spec val 0) as [Hneg|Hpos].
  - assert (Hn : 0 <= val * -1) by lia.
    pose proof (fixed_body_denotes (val * -1) d true Hn) as H. cbn zeta in H.
    replace (- (val * -1)) with val in H by lia. exact H.
  - exact (fixed_body_denotes val d false Hpos).
Qed.

(** ethers' [formatUnits], whenever it returns, returns an exact decimal
    expansion of value / 10^decimals; and it returns for every value of 512
    signed bits at up to 80 decimals. *)
Lemma ethers_formatUnits_denotes value decimals s :
  Ethers.formatUnits value decimals = inr s -> denotes s value decimals.
Proof.
  unfold Ethers.formatUnits, obind.
  destruct (Ethers.check_format decimals); [discriminate|].
  destruct (Ethers.checkValue value); [discriminate|].
  intros E. injection E as <-. apply fixed_toString_denotes.
Qed.

Lemma ethers_formatUnits_returns value decimals :
  (decimals <= 80)%nat -> - 2 ^ 511 <= value < 2 ^ 511 ->
  Ethers.formatUnits value decimals
  = inr (to_string (Ethers.fixed_toString value decimals)).
Proof.
  intros Hd Hv. unfold Ethers.formatUnits, Ethers.check_format, Ethers.checkValue, obind.
  destruct (Nat.leb_spec decimals 80); [|lia].
  destruct (Z.leb_spec (- 2 ^ 511) value); [|lia].
  destruct (Z.ltb_spec value (2 ^ 511)); [|lia].
  reflexivity.
Qed.

End EthersFacts.

(** ** Logs *)

Module LogFacts.
Local Open Scope list_scope.

Lemma skipn_past {A} (l l' : list A) : skipn (List.length l) (l ++ l') = l'.
Proof. induction l; [reflexivity | assumption]. Qed.

Lemma new_events_appended {A} (m : Async A) w evs :
  log (snd (m w)) = log w ++ evs -> new_events m w = evs.
Proof. intros E. unfold new_events. rewrite E. apply skipn_past. Qed.

Lemma new_events_unchanged {A} (m : Async A) w :
  snd (m w) = w -> new_events m w = [].
Proof.
  intros E. apply new_events_appended. rewrite E, app_nil_r. reflexivity.
Qed.

Lemma tx_states_app l1 l2 : tx_states (l1 ++ l2) = tx_states l1 ++ tx_states l2.
Proof. apply flat_map_app. Qed.

Lemma calls_app l1 l2 : calls (l1 ++ l2) = calls l1 ++ calls l2.
Proof. apply flat_map_app. Qed.

Lemma transfer_amounts_app l1 l2 :
  transfer_amounts (l1 ++ l2) = transfer_amounts l1 ++ transfer_amounts l2.
Proof. apply flat_map_app. Qed.

End LogFacts.

(** Unfolding the plumbing of an async function. *)
Ltac run_async :=
  unfold await; unfold bind, issue, settle, set, ret, throw, try_catch, raise;
  cbn [fst snd cells log].

Ltac flatten_log := repeat rewrite <- app_assoc; cbn [app].

(** ** The read refreshes *)

Module RefreshFacts.
Import UseERC20Interactions LogFacts.
Local Open Scope list_scope.

Lemma refetchBalance_short_circuit contractAddress publicClient userAddress w :
  publicClient = None \/ missing userAddress = true ->
  refetchBalance contractAddress publicClient userAddress w
  = (inr tt, {| cells := apply_update (SetBalance as_idle) (cells w);
                log := log w ++ [Set_ (SetBalance as_idle)] |}).
Proof.
  intros H. unfold refetchBalance.
  destruct publicClient as [pc|], userAddress as [user|]; try reflexivity.
  destruct H as [H|H]; [discriminate|].
  cbn [missing] in H. rewrite H. reflexivity.
Qed.

(** C7: a balance refresh with no account address, or with no read client,
    leaves the balance cell Idle, settles without an error, and issues no
    gateway call; the only thing it does is that one state update. *)
Theorem C7_balance_refresh_without_account
    contractAddress publicClient userAddress w :
  publicClient = None \/ missing userAddress = true ->
  let m := refetchBalance contractAddress publicClient userAddress in
  fst (m w) = inr tt /\
  balance (cells (snd (m w))) = as_idle /\
  calls (new_events m w) = [] /\
  new_events m w = [Set_ (SetBalance as_idle)].
Proof.
  intros H m.
  pose proof (refetchBalance_short_circuit contractAddress publicClient userAddress w H) as E.
  fold m in E.
  assert (Hev : new_events m w = [Set_ (SetBalance as_idle)])
    by (apply new_events_appended; rewrite E; reflexivity).
  rewrite Hev, E. repeat split.
Qed.

(** C7 run on a hook that has a read client but no account. *)
Lemma C7_witness :
  (Some sample_public_client = None \/ missing None = true) /\
  let m := refetchBalance "0xc0" (Some sample_public_client) None in
  fst (m initial_world) = inr tt /\
  balance (cells (snd (m initial_world))) = as_idle /\
  calls (new_events m initial_world) = [] /\
  new_events m initial_world = [Set_ (SetBalance as_idle)].
Proof.
  assert (H : Some sample_public_client = None \/ missing None = true)
    by (right; reflexivity).
  split; [exact H|].
  exact (C7_balance_refresh_without_account "0xc0" (Some sample_public_client) None
           initial_world H).
Defined.

(** C10: a token-info refresh with no read client changes nothing at all:
    the world it leaves is the world it started in, so the token-info cell
    keeps whatever it held and no call is issued.  The balance refresh, in
    the same situation, overwrites its cell with Idle. *)
Theorem C10_token_info_refresh_without_client contractAddress userAddress w :
  refetchTokenInfo contractAddress None w = (inr tt, w) /\
  calls (new_events (refetchTokenInfo contractAddress None) w) = [] /\
  balance (cells (snd (refetchBalance contractAddress None userAddress w))) = as_idle.
Proof.
  split; [reflexivity|]. split.
  - rewrite new_events_unchanged; reflexivity.
  - rewrite refetchBalance_short_circuit by (left; reflexivity). reflexivity.
Qed.

End RefreshFacts.

(** ** Missing preconditions *)

Module PreconditionFacts.
Import LogFacts.
Local Open Scope list_scope.

Lemma executeTransaction_without_client contractAddress publicClient walletClient fn args w :
  walletClient = None \/ publicClient = None ->
  UseERC20Interactions.executeTransaction contractAddress publicClient walletClient fn args w
  = (raise (JsError "Wallet client is required for transactions"), w).
Proof.
  intros [-> | ->]; unfold UseERC20Interactions.executeTransaction.
  - reflexivity.
  - destruct walletClient; reflexivity.
Qed.

(** C8: each operation whose precondition is missing rejects at once: the
    promise settles to a thrown value and the world is the one the call
    started in, so no gateway call was issued and no state cell was
    written.  This holds for [deployToken] without a private key, for each
    of the eight write operations without a wallet client (or without a
    read client), and for [getAllowance] without a read client or without
    a user address. *)
Theorem C8_missing_precondition_rejects_before_any_call :
  (forall fetch privateKey rpcEndpoint network apiUrl params w,
     missing privateKey = true ->
     UseERC20Deploy.deployToken fetch privateKey rpcEndpoint network apiUrl params w
     = (raise (JsError "Private key is required for deployment"), w)) /\
  (forall round_number contractAddress publicClient walletClient userAddress op w,
     walletClient = None \/ publicClient = None ->
     exists t,
       UseERC20Interactions.run round_number contractAddress publicClient walletClient
         userAddress op w = (inl t, w)) /\
  (forall contractAddress publicClient userAddress spender w,
     publicClient = None \/ missing userAddress = true ->
     UseERC20Interactions.getAllowance contractAddress publicClient userAddress spender w
     = (raise (JsError "Public client and user address are required"), w)).
Proof.
  split; [|split].
  - intros fetch privateKey rpcEndpoint network apiUrl params w H.
    unfold UseERC20Deploy.deployToken. destruct privateKey as [key|]; [|reflexivity].
    cbn [missing] in H. rewrite H. reflexivity.
  - intros round_number contractAddress publicClient walletClient userAddress op w H.
    pose proof (executeTransaction_without_client contractAddress publicClient walletClient)
      as Hexec.
    destruct op; cbn [UseERC20Interactions.run];
      unfold UseERC20Interactions.transfer, UseERC20Interactions.approve,
        UseERC20Interactions.transferFrom, UseERC20Interactions.mint,
        UseERC20Interactions.burn, UseERC20Interactions.pause,
        UseERC20Interactions.unpause, UseERC20Interactions.transferOwnership;
      unfold bind, settle;
      try (destruct (Viem.parseUnits round_number amount TOKEN_DECIMALS) as [t|n];
           [exists t; reflexivity|]);
      rewrite Hexec by exact H; eexists; reflexivity.
  - intros contractAddress publicClient userAddress spender w H.
    unfold UseERC20Interactions.getAllowance.
    destruct publicClient as [pc|], userAddress as [user|]; try reflexivity.
    destruct H as [H|H]; [discriminate|].
    cbn [missing] in H. rewrite H. reflexivity.
Qed.

(** A run of C8 at concrete inputs: a deployment without a key, a transfer
    without a wallet, an allowance query without an account. *)
Lemma C8_witness :
  UseERC20Deploy.deployToken (fun _ => inr {| status := 200; json := inl (ThrownValue "") |})
    None None arbitrum None
    {| dp_name := "T"; dp_symbol := "T"; dp_initialSupply := "1"; dp_factoryAddress := None |}
    initial_world
  = (raise (JsError "Private key is required for deployment"), initial_world) /\
  (exists t,
     UseERC20Interactions.run (fun _ => 0%Z) "0xc0" None None None
       (UseERC20Interactions.op_transfer "0x01" "5.5") initial_world
     = (inl t, initial_world)) /\
  UseERC20Interactions.getAllowance "0xc0" None (Some "0xaa") "0x02" initial_world
  = (raise (JsError "Public client and user address are required"), initial_world).
Proof.
  destruct C8_missing_precondition_rejects_before_any_call as (Hd & Hw & Ha).
  split; [|split].
  - apply Hd. reflexivity.
  - apply Hw. left; reflexivity.
  - apply Ha. left; reflexivity.
Defined.

End PreconditionFacts.

(** ** Write and confirm *)

Module WriteFacts.
Import UseERC20Interactions LogFacts.
Local Open Scope list_scope.

Lemma detach_run {A} (m : Async A) w : detach m w = (inr tt, snd (m w)).
Proof. unfold detach. destruct (m w). reflexivity. Qed.

Ltac close_refresh :=
  eexists; split; [flatten_log; reflexivity | repeat split].

Lemma refetchBalance_refresh_only contractAddress publicClient userAddress :
  refresh_only (refetchBalance contractAddress publicClient userAddress).
Proof.
  intros w. unfold refetchBalance.
  destruct publicClient as [pc|], userAddress as [user|];
    try (cbn; close_refresh).
  destruct (Js.truthy user); cbn [negb]; [|cbn; close_refresh].
  run_async.
  destruct (readContract pc contractAddress (fn_balanceOf user)); cbn; close_refresh.
Qed.

Lemma refetchTokenInfo_refresh_only contractAddress publicClient :
  refresh_only (refetchTokenInfo contractAddress publicClient).
Proof.
  intros w. unfold refetchTokenInfo.
  destruct publicClient as [pc|].
  2:{ exists []. cbn. rewrite app_nil_r. repeat split. }
  run_async.
  destruct (readContract pc contractAddress fn_name); [cbn; close_refresh|].
  destruct (readContract pc contractAddress fn_symbol); [cbn; close_refresh|].
  destruct (readContract pc contractAddress fn_decimals); [cbn; close_refresh|].
  destruct (readContract pc contractAddress fn_totalSupply); [cbn; close_refresh|].
  destruct (readContract pc contractAddress fn_owner); [cbn; close_refresh|].
  destruct (readContract pc contractAddress fn_paused); cbn; close_refresh.
Qed.

Lemma executeTransaction_lifecycle contractAddress pc wc fn args w :
  let call := {| cc_address := contractAddress; cc_functionName := fn;
                 cc_args := args; cc_account := account wc |} in
  write_report pc wc call
    (if String.eqb fn "transfer" then last_uint args else []) w
    (executeTransaction contractAddress (Some pc) (Some wc) fn args w).
Proof.
  intros call. unfold write_report, executeTransaction, tx_lifecycle. fold call. run_async.
  assert (Hamt : forall rest,
            transfer_amounts rest = [] ->
            transfer_amounts (Set_ (SetError None) :: Set_ (SetTxState tx_pending)
                              :: Call (SimulateContract call) :: rest)
            = if String.eqb fn "transfer" then last_uint args else []).
  { intros rest Hr.
    change (Set_ (SetError None) :: Set_ (SetTxState tx_pending)
            :: Call (SimulateContract call) :: rest)
      with ([Set_ (SetError None); Set_ (SetTxState tx_pending);
             Call (SimulateContract call)] ++ rest).
    rewrite transfer_amounts_app, Hr, app_nil_r.
    unfold transfer_amounts. cbn [flat_map app call cc_functionName cc_args].
    apply app_nil_r. }
  destruct (simulateContract pc call) as [t|request]; cbn.
  { eexists; split; [flatten_log; reflexivity|].
    repeat split. apply Hamt. reflexivity. }
  destruct (writeContract wc request) as [t|hash]; cbn.
  { eexists; split; [flatten_log; reflexivity|].
    repeat split. apply Hamt. reflexivity. }
  destruct (waitForTransactionReceipt pc hash) as [t|[]]; cbn.
  { eexists; split; [flatten_log; reflexivity|].
    repeat split. apply Hamt. reflexivity. }
  eexists; split; [flatten_log; reflexivity|].
  repeat split. apply Hamt. reflexivity.
Qed.

(** A refresh started after a successful write adds nothing to the
    report. *)
Lemma report_then_refresh {A} pc wc call amounts w hash w1 (r : Async A) :
  write_report pc wc call amounts w (inr hash, w1) ->
  refresh_only r ->
  write_report pc wc call amounts w (inr hash, snd (r w1)).
Proof.
  intros (evs & Hlog & Hhd & Hlife & Htx & Herr & Hamt) Hr.
  destruct (Hr w1) as (evs' & Hlog' & Hst & Ham & Htx' & Herr').
  cbn [fst snd] in *.
  exists (evs ++ evs'). cbn [fst snd]. repeat split.
  - rewrite Hlog', Hlog, app_assoc. reflexivity.
  - rewrite calls_app. destruct (calls evs); [discriminate Hhd | exact Hhd].
  - rewrite tx_states_app, Hst, app_nil_r. exact Hlife.
  - rewrite tx_states_app, Hst, app_nil_r, Htx'. exact Htx.
  - rewrite Herr'. exact Herr.
  - rewrite transfer_amounts_app, Ham, Hamt. apply app_nil_r.
Qed.

Lemma then_refresh pc wc call amounts w (exec : Async Hash) (r : Async unit) :
  write_report pc wc call amounts w (exec w) ->
  refresh_only r ->
  write_report pc wc call amounts w
    ((hash <- exec ;; detach r ;; ret hash) w).
Proof.
  intros H Hr. unfold bind. destruct (exec w) as [[t|hash] w1]; [exact H|].
  rewrite detach_run. apply report_then_refresh; assumption.
Qed.

Lemma then_refresh_twice pc wc call amounts w (exec : Async Hash) (r1 r2 : Async unit) :
  write_report pc wc call amounts w (exec w) ->
  refresh_only r1 -> refresh_only r2 ->
  write_report pc wc call amounts w
    ((hash <- exec ;; detach r1 ;; detach r2 ;; ret hash) w).
Proof.
  intros H Hr1 Hr2. unfold bind. destruct (exec w) as [[t|hash] w1]; [exact H|].
  rewrite !detach_run. cbn [snd].
  apply report_then_refresh; [|assumption].
  apply report_then_refresh; assumption.
Qed.

(** Every write operation of the hook reports as its [executeTransaction]
    does, for the ABI function it names. *)
Lemma run_report round_number contractAddress pc wc userAddress op w :
  amount_ok round_number op ->
  exists args,
    write_report pc wc
      {| cc_address := contractAddress; cc_functionName := function_of op;
         cc_args := args; cc_account := account wc |}
      (if String.eqb (function_of op) "transfer" then last_uint args else []) w
      (run round_number contractAddress (Some pc) (Some wc) userAddress op w).
Proof.
  intros Hok.
  pose proof (refetchBalance_refresh_only contractAddress (Some pc) userAddress) as Hb.
  pose proof (refetchTokenInfo_refresh_only contractAddress (Some pc)) as Hi.
  pose proof (executeTransaction_lifecycle contractAddress pc wc) as Hexec.
  destruct op; cbn [run function_of]; unfold amount_ok in Hok; cbn [amount_of] in Hok;
    try destruct Hok as (n & Hparse);
    unfold transfer, approve, transferFrom, mint, burn, pause, unpause, transferOwnership;
    try (unfold bind at 1, settle; rewrite Hparse);
    eexists;
    first [ apply then_refresh_twice; [apply Hexec | exact Hi | exact Hb]
          | apply then_refresh; [apply Hexec | first [exact Hb | exact Hi]]
          | apply Hexec ].
Qed.

(** The refreshes add no event of a write. *)
Ltac close_quiet :=
  eexists; split; [flatten_log; reflexivity | reflexivity].

Lemma refetchBalance_adds_no_write_event contractAddress publicClient userAddress :
  adds_no_write_event (refetchBalance contractAddress publicClient userAddress).
Proof.
  intros w. unfold refetchBalance.
  destruct publicClient as [pc|], userAddress as [user|];
    try (cbn; close_quiet).
  destruct (Js.truthy user); cbn [negb]; [|cbn; close_quiet].
  run_async.
  destruct (readContract pc contractAddress (fn_balanceOf user)); cbn; close_quiet.
Qed.

Lemma refetchTokenInfo_adds_no_write_event contractAddress publicClient :
  adds_no_write_event (refetchTokenInfo contractAddress publicClient).
Proof.
  intros w. unfold refetchTokenInfo.
  destruct publicClient as [pc|].
  2:{ exists []. cbn. rewrite app_nil_r. split; reflexivity. }
  run_async.
  destruct (readContract pc contractAddress fn_name); [cbn; close_quiet|].
  destruct (readContract pc contractAddress fn_symbol); [cbn; close_quiet|].
  destruct (readContract pc contractAddress fn_decimals); [cbn; close_quiet|].
  destruct (readContract pc contractAddress fn_totalSupply); [cbn; close_quiet|].
  destruct (readContract pc contractAddress fn_owner); [cbn; close_quiet|].
  destruct (readContract pc contractAddress fn_paused); cbn; close_quiet.
Qed.

(** The events of [executeTransaction], in order. *)
Lemma executeTransaction_events contractAddress pc wc fn args w :
  let call := {| cc_address := contractAddress; cc_functionName := fn;
                 cc_args := args; cc_account := account wc |} in
  events_report pc wc call w
    (executeTransaction contractAddress (Some pc) (Some wc) fn args w).
Proof.
  intros call. unfold events_report, executeTransaction, write_events, failure_events.
  fold call. run_async. exists [].
  split; [|reflexivity]. rewrite app_nil_r.
  destruct (simulateContract pc call) as [t|request]; cbn;
    [flatten_log; reflexivity|].
  destruct (writeContract wc request) as [t|hash]; cbn;
    [flatten_log; reflexivity|].
  destruct (waitForTransactionReceipt pc hash) as [t|[]]; cbn;
    flatten_log; reflexivity.
Qed.

Lemma events_then_quiet {A} pc wc call w hash w1 (r : Async A) :
  events_report pc wc call w (inr hash, w1) ->
  adds_no_write_event r ->
  events_report pc wc call w (inr hash, snd (r w1)).
Proof.
  intros (rest & Hlog & Hq) Hr.
  destruct (Hr w1) as (evs & Hlog' & Hq').
  cbn [snd] in *.
  exists (rest ++ evs). cbn [snd]. split.
  - rewrite Hlog', Hlog. rewrite <- !app_assoc. reflexivity.
  - rewrite filter_app, Hq, Hq'. reflexivity.
Qed.

Lemma events_then_refresh pc wc call w (exec : Async Hash) (r : Async unit) :
  events_report pc wc call w (exec w) ->
  adds_no_write_event r ->
  events_report pc wc call w ((hash <- exec ;; detach r ;; ret hash) w).
Proof.
  intros H Hr. unfold bind. destruct (exec w) as [[t|hash] w1]; [exact H|].
  rewrite detach_run. apply events_then_quiet; assumption.
Qed.

Lemma events_then_refresh_twice pc wc call w (exec : Async Hash) (r1 r2 : Async unit) :
  events_report pc wc call w (exec w) ->
  adds_no_write_event r1 -> adds_no_write_event r2 ->
  events_report pc wc call w
    ((hash <- exec ;; detach r1 ;; detach r2 ;; ret hash) w).
Proof.
  intros H Hr1 Hr2. unfold bind. destruct (exec w) as [[t|hash] w1]; [exact H|].
  rewrite !detach_run. cbn [snd].
  apply events_then_quiet; [|assumption].
  apply events_then_quiet; assumption.
Qed.

(** Every write operation of the hook reports as its [executeTransaction]
    does, and its events are those of that write followed by the events of
    the refreshes it starts. *)
Lemma run_report_and_events round_number contractAddress pc wc userAddress op w :
  amount_ok round_number op ->
  exists args,
    let call := {| cc_address := contractAddress; cc_functionName := function_of op;
                   cc_args := args; cc_account := account wc |} in
    write_report pc wc call
      (if String.eqb (function_of op) "transfer" then last_uint args else []) w
      (run round_number contractAddress (Some pc) (Some wc) userAddress op w) /\
    events_report pc wc call w
      (run round_number contractAddress (Some pc) (Some wc) userAddress op w).
Proof.
  intros Hok.
  pose proof (refetchBalance_refresh_only contractAddress (Some pc) userAddress) as Hb.
  pose proof (refetchTokenInfo_refresh_only contractAddress (Some pc)) as Hi.
  pose proof (refetchBalance_adds_no_write_event contractAddress (Some pc) userAddress)
    as Qb.
  pose proof (refetchTokenInfo_adds_no_write_event contractAddress (Some pc)) as Qi.
  pose proof (executeTransaction_lifecycle contractAddress pc wc) as Hexec.
  pose proof (executeTransaction_events contractAddress pc wc) as Qexec.
  destruct op; cbn [run function_of]; unfold amount_ok in Hok; cbn [amount_of] in Hok;
    try destruct Hok as (n & Hparse);
    unfold transfer, approve, transferFrom, mint, burn, pause, unpause, transferOwnership;
    try (unfold bind at 1, settle; rewrite Hparse);
    eexists; cbv zeta; split;
    first [ apply then_refresh_twice; [apply Hexec | exact Hi | exact Hb]
          | apply events_then_refresh_twice; [apply Qexec | exact Qi | exact Qb]
          | apply then_refresh; [apply Hexec | first [exact Hb | exact Hi]]
          | apply events_then_refresh; [apply Qexec | first [exact Qb | exact Qi]]
          | apply Hexec
          | apply Qexec ].
Qed.

(** C1 (amended): for each of the eight write operations, run with both
    clients present and an amount that parses, the write does exactly
    this, in this order: it clears the error cell and sets the transaction
    state to pending, and only then requests the simulation; it submits
    the request the simulation returned; it sets the state to confirming
    with the hash that submission returned, and then issues the wait for
    the receipt of that hash; once the wait returns it sets the state to
    success with the same hash.  When simulate, submit or the wait throws,
    the next events are the normalized error stored and the state set to
    failed with it, nothing of the write follows, and that error is what
    the caller receives.  Whatever follows the write (the refreshes) sets
    no transaction state and no error and issues no simulate, submit or
    wait.  The transaction cell ends in the last state set; the first
    gateway call is the simulation of the operation's ABI function on the
    hook's contract. *)
Theorem C1_write_lifecycle round_number contractAddress pc wc userAddress op w :
  amount_ok round_number op ->
  let m := run round_number contractAddress (Some pc) (Some wc) userAddress op in
  exists call rest,
    cc_address call = contractAddress /\
    cc_functionName call = function_of op /\
    cc_account call = account wc /\
    new_events m w = write_events pc wc call ++ rest /\
    filter is_write_event rest = [] /\
    hd_error (calls (new_events m w)) = Some (SimulateContract call) /\
    tx_lifecycle pc wc call (tx_states (new_events m w)) (fst (m w)) /\
    txState (cells (snd (m w))) = last (tx_states (new_events m w)) tx_idle /\
    error (cells (snd (m w)))
      = match fst (m w) with inl t => Some (normalize t) | inr _ => None end.
Proof.
  intros Hok m.
  destruct (run_report_and_events round_number contractAddress pc wc userAddress op w Hok)
    as (args & (evs & Hlog & Hhd & Hlife & Htx & Herr & _) & (rest & Hevents & Hquiet)).
  fold m in Hlog, Hlife, Htx, Herr, Hevents.
  pose proof (new_events_appended m w _ Hevents) as Hnew.
  rewrite (new_events_appended m w evs Hlog) in Hnew |- *.
  eexists. exists rest.
  repeat split; try eassumption; reflexivity.
Qed.

(** C1 run on the sample gateways: a transfer of 5.5 tokens. *)
Lemma C1_witness :
  amount_ok no_rounding (op_transfer "0x01" "5.5") /\
  let m := run no_rounding "0xc0" (Some sample_public_client) (Some sample_wallet_client)
             (Some "0xaa") (op_transfer "0x01" "5.5") in
  exists call rest,
    cc_address call = "0xc0" /\
    cc_functionName call = "transfer" /\
    cc_account call = Some "0xaa" /\
    new_events m initial_world
      = write_events sample_public_client sample_wallet_client call ++ rest /\
    filter is_write_event rest = [] /\
    hd_error (calls (new_events m initial_world)) = Some (SimulateContract call) /\
    tx_lifecycle sample_public_client sample_wallet_client call
      (tx_states (new_events m initial_world)) (fst (m initial_world)) /\
    txState (cells (snd (m initial_world)))
      = last (tx_states (new_events m initial_world)) tx_idle /\
    error (cells (snd (m initial_world)))
      = match fst (m initial_world) with inl t => Some (normalize t) | inr _ => None end.
Proof.
  assert (Hok : amount_ok no_rounding (op_transfer "0x01" "5.5"))
    by (eexists; vm_compute; reflexivity).
  split; [exact Hok|].
  exact (C1_write_lifecycle no_rounding "0xc0" sample_public_client sample_wallet_client
           (Some "0xaa") (op_transfer "0x01" "5.5") initial_world Hok).
Defined.

(** C1, the order the claim gives: a transfer of 5.5 tokens on the sample
    gateways sets the state to pending before the simulation is requested,
    not after; no gateway call precedes it. *)
Lemma C1_counterexample :
  let m := run no_rounding "0xc0" (Some sample_public_client) (Some sample_wallet_client)
             (Some "0xaa") (op_transfer "0x01" "5.5") in
  let call := {| cc_address := "0xc0"; cc_functionName := "transfer";
                 cc_args := [abi_address "0x01"; abi_uint 5500000000000000000%Z];
                 cc_account := Some "0xaa" |} in
  new_events m initial_world
  = [Set_ (SetError None);
     Set_ (SetTxState tx_pending);
     Call (SimulateContract call);
     Call (WriteContract call);
     Set_ (SetTxState (tx_confirming "0x7e57"));
     Call (WaitForTransactionReceipt "0x7e57");
     Set_ (SetTxState (tx_success "0x7e57"));
     Set_ (SetBalance as_loading);
     Call (ReadContract "0xc0" (fn_balanceOf "0xaa"));
     Set_ (SetBalance (as_success {| bi_balance := 5500000000000000000%Z;
                                     bi_formatted := "5.5" |}))] /\
  calls (firstn 2 (new_events m initial_world)) = [] /\
  nth_error (new_events m initial_world) 1 = Some (Set_ (SetTxState tx_pending)).
Proof. vm_compute. repeat split. Qed.

End WriteFacts.

(** ** Encoding of amounts *)

Module AmountFacts.
Import LogFacts WriteFacts.
Local Open Scope list_scope.
Local Open Scope Z_scope.

Lemma viem_parse_5_5 round_number :
  Viem.parseUnits round_number "5.5" TOKEN_DECIMALS = inr 5500000000000000000.
Proof. vm_compute. reflexivity. Qed.

Lemma ethers_parse_5_5 :
  Ethers.parseUnits "5.5" TOKEN_DECIMALS = inr 5500000000000000000.
Proof. vm_compute. reflexivity. Qed.

Lemma hook_transfer_5_5 round_number contractAddress pc wc userAddress to w :
  write_report pc wc
    {| cc_address := contractAddress; cc_functionName := "transfer";
       cc_args := [abi_address to; abi_uint 5500000000000000000];
       cc_account := account wc |}
    [5500000000000000000] w
    (UseERC20Interactions.transfer round_number contractAddress (Some pc) (Some wc)
       userAddress to "5.5" w).
Proof.
  unfold UseERC20Interactions.transfer.
  unfold bind at 1, settle. rewrite viem_parse_5_5.
  apply then_refresh.
  - apply (executeTransaction_lifecycle contractAddress pc wc "transfer").
  - apply refetchBalance_refresh_only.
Qed.

Lemma hook_transfer_without_client round_number contractAddress publicClient walletClient
    userAddress to amount w :
  walletClient = None \/ publicClient = None ->
  new_events
    (UseERC20Interactions.transfer round_number contractAddress publicClient walletClient
       userAddress to amount) w = [].
Proof.
  intros H. apply new_events_unchanged.
  unfold UseERC20Interactions.transfer, bind, settle.
  destruct (Viem.parseUnits round_number amount TOKEN_DECIMALS); [reflexivity|].
  rewrite PreconditionFacts.executeTransaction_without_client by exact H. reflexivity.
Qed.

Lemma lib_transfer_5_5 ethers contractAddress to key rpc w :
  let m := Interactions.transfer ethers contractAddress to "5.5" key rpc in
  match new_Wallet ethers key with
  | inl _ => new_events m w = []
  | inr _ =>
      hd_error (calls (new_events m w))
        = Some (EthersSend rpc key contractAddress "transfer"
                  [abi_address to; abi_uint 5500000000000000000]) /\
      transfer_amounts (new_events m w) = [5500000000000000000]
  end.
Proof.
  intros m. unfold m, new_events, Interactions.transfer.
  rewrite ethers_parse_5_5. run_async.
  destruct (new_Wallet ethers key) as [t|[]]; cbn [fst snd cells log].
  - rewrite <- (app_nil_r (log w)) at 2. apply skipn_past.
  - destruct (eth_send ethers rpc key contractAddress "transfer"
                [abi_address to; abi_uint 5500000000000000000]) as [t|tx];
      cbn [fst snd cells log].
    + rewrite skipn_past. split; reflexivity.
    + destruct (eth_wait ethers tx) as [t|receipt]; cbn [fst snd cells log];
        flatten_log; rewrite skipn_past; split; reflexivity.
Qed.

(** C4: a transfer of the decimal string "5.5" hands the chain gateway the
    raw amount 5500000000000000000 and no other.  In the hook, with both
    clients present, the first gateway call is the simulation of
    [transfer(to, 5500000000000000000)] and that is the only transfer
    amount handed over; in the ethers helper, once the wallet is built, the
    first gateway call is [transfer(to, 5500000000000000000)].  Whatever
    the clients, no transfer call carries any other amount. *)
Theorem C4_transfer_5_5_encodes_exactly :
  (forall round_number contractAddress pc wc userAddress to w,
     let m := UseERC20Interactions.transfer round_number contractAddress (Some pc) (Some wc)
                userAddress to "5.5" in
     hd_error (calls (new_events m w))
       = Some (SimulateContract
                 {| cc_address := contractAddress; cc_functionName := "transfer";
                    cc_args := [abi_address to; abi_uint 5500000000000000000];
                    cc_account := account wc |}) /\
     transfer_amounts (new_events m w) = [5500000000000000000]) /\
  (forall ethers contractAddress to key rpc w,
     new_Wallet ethers key = inr tt ->
     let m := Interactions.transfer ethers contractAddress to "5.5" key rpc in
     hd_error (calls (new_events m w))
       = Some (EthersSend rpc key contractAddress "transfer"
                 [abi_address to; abi_uint 5500000000000000000]) /\
     transfer_amounts (new_events m w) = [5500000000000000000]) /\
  (forall round_number contractAddress publicClient walletClient userAddress to w,
     Forall (eq 5500000000000000000)
       (transfer_amounts
          (new_events
             (UseERC20Interactions.transfer round_number contractAddress publicClient
                walletClient userAddress to "5.5") w))) /\
  (forall ethers contractAddress to key rpc w,
     Forall (eq 5500000000000000000)
       (transfer_amounts
          (new_events (Interactions.transfer ethers contractAddress to "5.5" key rpc) w))).
Proof.
  assert (Hhook : forall round_number contractAddress pc wc userAddress to w,
     let m := UseERC20Interactions.transfer round_number contractAddress (Some pc) (Some wc)
                userAddress to "5.5" in
     hd_error (calls (new_events m w))
       = Some (SimulateContract
                 {| cc_address := contractAddress; cc_functionName := "transfer";
                    cc_args := [abi_address to; abi_uint 5500000000000000000];
                    cc_account := account wc |}) /\
     transfer_amounts (new_events m w) = [5500000000000000000]).
  { intros round_number contractAddress pc wc userAddress to w m.
    destruct (hook_transfer_5_5 round_number contractAddress pc wc userAddress to w)
      as (evs & Hlog & Hhd & _ & _ & _ & Hamt).
    fold m in Hlog. rewrite (new_events_appended m w evs Hlog). split; assumption. }
  split; [exact Hhook|]. split; [|split].
  - intros ethers contractAddress to key rpc w Hwallet m.
    pose proof (lib_transfer_5_5 ethers contractAddress to key rpc w) as H.
    cbn zeta in H. rewrite Hwallet in H. exact H.
  - intros round_number contractAddress [pc|] [wc|] userAddress to w.
    + destruct (Hhook round_number contractAddress pc wc userAddress to w) as (_ & ->).
      repeat constructor.
    + rewrite hook_transfer_without_client by (left; reflexivity). constructor.
    + rewrite hook_transfer_without_client by (right; reflexivity). constructor.
    + rewrite hook_transfer_without_client by (left; reflexivity). constructor.
  - intros ethers contractAddress to key rpc w.
    pose proof (lib_transfer_5_5 ethers contractAddress to key rpc w) as H.
    cbn zeta in H. destruct (new_Wallet ethers key).
    + rewrite H. constructor.
    + destruct H as (_ & ->). repeat constructor.
Qed.

(** C4 run on the sample gateways. *)
Lemma C4_witness :
  new_Wallet sample_ethers "0x5eed" = inr tt /\
  let m := Interactions.transfer sample_ethers "0xc0" "0x01" "5.5" "0x5eed" "http://rpc" in
  hd_error (calls (new_events m initial_world))
    = Some (EthersSend "http://rpc" "0x5eed" "0xc0" "transfer"
              [abi_address "0x01"; abi_uint 5500000000000000000]) /\
  transfer_amounts (new_events m initial_world) = [5500000000000000000].
Proof.
  split; [reflexivity|].
  destruct C4_transfer_5_5_encodes_exactly as (_ & Hlib & _).
  apply (Hlib sample_ethers "0xc0" "0x01" "0x5eed" "http://rpc" initial_world).
  reflexivity.
Defined.

End AmountFacts.

(** ** The deployment gateway *)

Module DeploymentFacts.
Import LogFacts.
Local Open Scope list_scope.

(** A truthy value is not [undefined]: [new Error] of it has the message
    [String] gives. *)
Lemma new_Error_truthy v :
  truthy_value v = true ->
  new_Error v = obind (ToString v) (fun s => inr (JsError s)).
Proof. destruct v; try reflexivity. discriminate. Qed.

(** Every run of [deployERC20TokenViaAPI], by what the gateway does. *)
Lemma deployERC20TokenViaAPI_run fetch params key rpc url w :
  let req := {| rq_url := (url ++ "/deploy-token")%string;
                rq_method := "POST";
                rq_headers := [("Content-Type", "application/json")%string];
                rq_body := {| rb_name := dp_name params;
                              rb_symbol := dp_symbol params;
                              rb_initialSupply := dp_initialSupply params;
                              rb_factoryAddress := dp_factoryAddress params;
                              rb_privateKey := key;
                              rb_rpcEndpoint := rpc |} |} in
  let w' := {| cells := cells w; log := log w ++ [Call (Fetch req)] |} in
  Deployment.deployERC20TokenViaAPI fetch params key rpc url w
  = match fetch req with
    | inl t => (inl t, w')
    | inr response => (api_outcome response, w')
    end.
Proof.
  intros req w'. unfold Deployment.deployERC20TokenViaAPI. fold req. run_async.
  destruct (fetch req) as [t|response]; cbn [fst snd cells log]; [reflexivity|].
  unfold api_outcome, non_2xx_error, Deployment.unknown_error_body, obind.
  destruct (ok response); cbn [negb].
  - destruct (json response) as [t|result]; [reflexivity|].
    destruct (get_property result "tokenAddress"); [reflexivity|].
    destruct (get_property result "txHash"); [reflexivity|].
    destruct (get_property result "success"); [reflexivity|].
    destruct (get_property result "deployOutput"); [reflexivity|].
    destruct (get_property result "initOutput"); [reflexivity|].
    destruct (get_property result "registerOutput"); reflexivity.
  - destruct (get_property _ "error"); [reflexivity|].
    destruct (new_Error _); reflexivity.
Qed.

(** What [deployERC20TokenViaAPI] does, by what the gateway answers to the
    one request it sends. *)
Lemma deployERC20TokenViaAPI_request fetch params key rpc url w :
  exists req,
    In (Fetch req)
       (calls (new_events (Deployment.deployERC20TokenViaAPI fetch params key rpc url) w)) /\
    (forall response, fetch req = inr response ->
       let m := Deployment.deployERC20TokenViaAPI fetch params key rpc url in
       log (snd (m w)) = log w ++ [Call (Fetch req)] /\
       cells (snd (m w)) = cells w /\
       fst (m w) = api_outcome response).
Proof.
  pose proof (deployERC20TokenViaAPI_run fetch params key rpc url w) as Hrun.
  cbv zeta in Hrun.
  match type of Hrun with context [fetch ?r] => set (req := r) in * end.
  exists req. unfold new_events. rewrite Hrun. split.
  - destruct (fetch req); cbn [snd log]; rewrite skipn_past; left; reflexivity.
  - intros response E. rewrite E. repeat split.
Qed.

(** The hook around it: the same request, and the settled state. *)
Lemma deployToken_request fetch key rpc network url params w :
  Js.truthy key = true ->
  let m := UseERC20Deploy.deployToken fetch (Some key) rpc network url params in
  exists req,
    In (Fetch req) (calls (new_events m w)) /\
    (forall response, fetch req = inr response ->
       match api_outcome response with
       | inl t =>
           fst (m w) = raise (normalize t) /\
           deploymentState (cells (snd (m w))) = dep_error (normalize t) /\
           error (cells (snd (m w))) = Some (normalize t)
       | inr r =>
           fst (m w) = inr r /\
           deploymentState (cells (snd (m w))) = dep_success r
       end).
Proof.
  intros Hk m. unfold m, new_events, UseERC20Deploy.deployToken.
  rewrite Hk. cbn [negb]. run_async.
  rewrite deployERC20TokenViaAPI_run. cbv zeta.
  match goal with |- context [fetch ?r] => set (req := r) end.
  exists req. split.
  - destruct (fetch req) as [t|response]; cbn [fst snd cells log].
    + flatten_log. rewrite skipn_past. left; reflexivity.
    + destruct (api_outcome response); cbn [fst snd cells log];
        flatten_log; rewrite skipn_past; left; reflexivity.
  - intros response E. rewrite E.
    destruct (api_outcome response); cbn [fst snd cells log]; repeat split.
Qed.

(** C2 (amended): when the deployment gateway answers with a status
    outside 200-299 and a JSON body whose [error] field is a non-empty
    string, [deployToken] (called with a private key) ends with the
    deployment state Failed, the error being [new Error] of exactly that
    string; the same error is stored in the error cell and is what the
    caller receives. *)
Theorem C2_gateway_error_message_surfaces
    fetch key rpc network url params w response (body : JsValue) s :
  let m := UseERC20Deploy.deployToken fetch (Some key) rpc network url params in
  Js.truthy key = true ->
  (forall req, In (Fetch req) (calls (new_events m w)) -> fetch req = inr response) ->
  ok response = false ->
  json response = inr body ->
  get_property body "error" = inr (js_string s) ->
  s <> "" ->
  fst (m w) = raise (JsError s) /\
  deploymentState (cells (snd (m w))) = dep_error (JsError s) /\
  error (cells (snd (m w))) = Some (JsError s).
Proof.
  intros m Hk Hfetch Hok Hjson Herr Hs.
  destruct (deployToken_request fetch key rpc network url params w Hk)
    as (req & Hin & Hrun).
  fold m in Hin, Hrun.
  specialize (Hrun response (Hfetch req Hin)).
  unfold api_outcome, non_2xx_error in Hrun.
  rewrite Hok, Hjson in Hrun. cbn [obind] in Hrun. rewrite Herr in Hrun.
  destruct s as [|c s]; [congruence|]. exact Hrun.
Qed.

(** C2 run on the scenario of the specification: HTTP 500 with the body
    [{"error":"insufficient funds"}]. *)
Lemma C2_witness :
  let body := js_object [("error", js_string "insufficient funds")]%string in
  let response := {| status := 500; json := inr body |} in
  let m := UseERC20Deploy.deployToken (fun _ => inr response) (Some "0x5eed") None
             arbitrum None sample_params in
  fst (m initial_world) = raise (JsError "insufficient funds") /\
  deploymentState (cells (snd (m initial_world))) = dep_error (JsError "insufficient funds") /\
  error (cells (snd (m initial_world))) = Some (JsError "insufficient funds").
Proof.
  intros body response m.
  apply (C2_gateway_error_message_surfaces (fun _ => inr response) "0x5eed" None arbitrum
           None sample_params initial_world response body "insufficient funds").
  - reflexivity.
  - intros req _. reflexivity.
  - reflexivity.
  - reflexivity.
  - reflexivity.
  - discriminate.
Defined.

(** The claim as the specification words it fails on an empty error
    string: HTTP 500 with the body [{"error":""}] ends in Failed with the
    fallback message, not with the body's error string. *)
Lemma C2_counterexample :
  let body := js_object [("error", js_string "")]%string in
  let response := {| status := 500; json := inr body |} in
  let m := UseERC20Deploy.deployToken (fun _ => inr response) (Some "0x5eed") None
             arbitrum None sample_params in
  ok response = false /\
  get_property body "error" = inr (js_string "") /\
  deploymentState (cells (snd (m initial_world)))
    = dep_error (JsError "Deployment failed with status 500") /\
  deploymentState (cells (snd (m initial_world))) <> dep_error (JsError "").
Proof.
  cbv zeta. repeat split; try (vm_compute; reflexivity).
  vm_compute. discriminate.
Qed.

(** C5 (amended): on a 2xx answer whose body parses to a JSON value
    other than null, [deployERC20TokenViaAPI] returns the body's
    [tokenAddress], [success], [deployOutput], [initOutput] and
    [registerOutput] as they are ([undefined] for a property the body does
    not have), and the body's [txHash] when that is truthy; a [txHash]
    that is missing or falsy (the empty string, zero, false, null) is
    returned as "0x".  On a 2xx answer whose body is JSON null nothing is
    returned: the call rejects with the TypeError of reading a property
    of null. *)
Theorem C5_deploy_result_passes_gateway_fields
    fetch params key rpc url w response :
  let m := Deployment.deployERC20TokenViaAPI fetch params key rpc url in
  (forall req, In (Fetch req) (calls (new_events m w)) -> fetch req = inr response) ->
  ok response = true ->
  (forall body : JsValue,
     json response = inr body ->
     body <> js_null -> body <> js_undefined ->
     exists r,
       fst (m w) = inr r /\
       get_property body "tokenAddress" = inr (dr_tokenAddress r) /\
       get_property body "success" = inr (dr_success r) /\
       get_property body "deployOutput" = inr (dr_deployOutput r) /\
       get_property body "initOutput" = inr (dr_initOutput r) /\
       get_property body "registerOutput" = inr (dr_registerOutput r) /\
       (forall h, get_property body "txHash" = inr h -> truthy_value h = true ->
                  dr_txHash r = h) /\
       (forall h, get_property body "txHash" = inr h -> truthy_value h = false ->
                  dr_txHash r = js_string "0x")) /\
  (json response = inr js_null ->
   fst (m w) = raise (property_of_null_error "tokenAddress")).
Proof.
  intros m Hfetch Hok.
  destruct (deployERC20TokenViaAPI_request fetch params key rpc url w)
    as (req & Hin & Hrun).
  fold m in Hin.
  destruct (Hrun response (Hfetch req Hin)) as (_ & _ & Hres).
  fold m in Hres. unfold api_outcome in Hres. rewrite Hok in Hres.
  split.
  - intros body Hjson Hnull Hundef. rewrite Hjson in Hres.
    assert (Hget : forall k, exists v, get_property body k = inr v).
    { intros k. destruct body; try (eexists; reflexivity); congruence. }
    destruct (Hget "tokenAddress"%string) as (v1 & E1).
    destruct (Hget "txHash"%string) as (v2 & E2).
    destruct (Hget "success"%string) as (v3 & E3).
    destruct (Hget "deployOutput"%string) as (v4 & E4).
    destruct (Hget "initOutput"%string) as (v5 & E5).
    destruct (Hget "registerOutput"%string) as (v6 & E6).
    cbn [obind] in Hres. rewrite E1, E2, E3, E4, E5, E6 in Hres. cbn [obind] in Hres.
    eexists. split; [exact Hres|].
    cbn [dr_tokenAddress dr_txHash dr_success dr_deployOutput dr_initOutput
         dr_registerOutput].
    rewrite E1, E2, E3, E4, E5, E6. repeat split.
    + intros h E Ht. injection E as <-. unfold or_value. rewrite Ht. reflexivity.
    + intros h E Ht. injection E as <-. unfold or_value. rewrite Ht. reflexivity.
  - intros Hjson. rewrite Hjson in Hres. exact Hres.
Qed.

(** C5 run on a full answer of the gateway. *)
Lemma C5_witness :
  let body := js_object [("tokenAddress", js_string "0x70ce");
                         ("txHash", js_string "0x7e57");
                         ("success", js_boolean true);
                         ("deployOutput", js_string "deployed");
                         ("registerOutput", js_string "registered")]%string in
  let response := {| status := 200; json := inr body |} in
  let m := Deployment.deployERC20TokenViaAPI (fun _ => inr response) sample_params
             "0x5eed" "http://rpc" "http://api" in
  exists r,
    fst (m initial_world) = inr r /\
    get_property body "tokenAddress" = inr (dr_tokenAddress r) /\
    get_property body "success" = inr (dr_success r) /\
    get_property body "deployOutput" = inr (dr_deployOutput r) /\
    get_property body "initOutput" = inr (dr_initOutput r) /\
    get_property body "registerOutput" = inr (dr_registerOutput r) /\
    (forall h, get_property body "txHash" = inr h -> truthy_value h = true ->
               dr_txHash r = h) /\
    (forall h, get_property body "txHash" = inr h -> truthy_value h = false ->
               dr_txHash r = js_string "0x").
Proof.
  intros body response m.
  destruct (C5_deploy_result_passes_gateway_fields (fun _ => inr response) sample_params
              "0x5eed" "http://rpc" "http://api" initial_world response) as (H & _).
  - intros req _. reflexivity.
  - reflexivity.
  - apply H; [reflexivity | discriminate | discriminate].
Defined.

(** The claim as the specification words it fails on an empty [txHash]: the
    result carries "0x", which is not the field of the response body.  It
    also fails on a 2xx answer whose body is JSON null: no result is
    returned at all. *)
Lemma C5_counterexample :
  (let body := js_object [("tokenAddress", js_string "0x70ce");
                          ("txHash", js_string "");
                          ("success", js_boolean true)]%string in
   let response := {| status := 200; json := inr body |} in
   let m := Deployment.deployERC20TokenViaAPI (fun _ => inr response) sample_params
              "0x5eed" "http://rpc" "http://api" in
   ok response = true /\
   exists r, fst (m initial_world) = inr r /\
             dr_txHash r = js_string "0x" /\
             get_property body "txHash" = inr (js_string "") /\
             get_property body "txHash" <> inr (dr_txHash r)) /\
  (let response := {| status := 200; json := inr js_null |} in
   let m := Deployment.deployERC20TokenViaAPI (fun _ => inr response) sample_params
              "0x5eed" "http://rpc" "http://api" in
   ok response = true /\
   fst (m initial_world) = raise (property_of_null_error "tokenAddress")).
Proof.
  cbv zeta. split.
  - split; [reflexivity|].
    eexists. split; [vm_compute; reflexivity|].
    split; [reflexivity|]. split; [reflexivity|].
    vm_compute. discriminate.
  - split; [reflexivity | vm_compute; reflexivity].
Qed.

End DeploymentFacts.

(** ** The registration check *)

Module RegistrationFacts.
Local Open Scope list_scope.

Lemma lower_char_code c :
  nat_of_ascii (Js.lower_char c)
  = if (65 <=? nat_of_ascii c)%nat && (nat_of_ascii c <=? 90)%nat
    then (nat_of_ascii c + 32)%nat else nat_of_ascii c.
Proof.
  unfold Js.lower_char.
  destruct (Nat.leb_spec 65 (nat_of_ascii c)), (Nat.leb_spec (nat_of_ascii c) 90);
    cbn [andb]; try reflexivity.
  apply nat_ascii_embedding. lia.
Qed.

Lemma ascii_eqb_code a b : Ascii.eqb a b = (nat_of_ascii a =? nat_of_ascii b)%nat.
Proof.
  destruct (Ascii.eqb_spec a b) as [->|Hne].
  - symmetry. apply Nat.eqb_refl.
  - symmetry. apply Nat.eqb_neq. intros E. apply Hne.
    rewrite <- (ascii_nat_embedding a), <- (ascii_nat_embedding b), E. reflexivity.
Qed.

(** On every pair of characters, lower-casing both and comparing is the
    case-insensitive comparison. *)
Lemma lower_char_same_letter c1 c2 :
  Ascii.eqb (Js.lower_char c1) (Js.lower_char c2) = same_letter c1 c2.
Proof.
  unfold same_letter, is_upper, is_lower.
  rewrite !ascii_eqb_code, !lower_char_code.
  set (n1 := nat_of_ascii c1). set (n2 := nat_of_ascii c2).
  apply eq_true_iff_eq.
  destruct (Nat.leb_spec 65 n1), (Nat.leb_spec n1 90),
           (Nat.leb_spec 65 n2), (Nat.leb_spec n2 90); cbn [andb];
    rewrite !orb_true_iff, !andb_true_iff, !Nat.eqb_eq, !Nat.leb_le; lia.
Qed.

Lemma toLowerCase_eq_nocase s : forall t,
  String.eqb (Js.toLowerCase s) (Js.toLowerCase t) = eq_nocase s t.
Proof.
  induction s as [|c1 s IH]; intros [|c2 t]; try reflexivity.
  cbn [Js.toLowerCase String.eqb eq_nocase].
  rewrite <- IH, <- lower_char_same_letter.
  destruct (Ascii.eqb (Js.lower_char c1) (Js.lower_char c2)); reflexivity.
Qed.

(** C6: when the factory read [getAllDeployedTokens] throws,
    [isTokenRegistered] resolves to false and throws nothing; when the read
    returns a list of addresses, it resolves to true exactly when one of
    them equals the queried address up to the case of its letters. *)
Theorem C6_registration_check ethers tokenAddress factoryAddress rpcEndpoint w :
  let m := Deployment.isTokenRegistered ethers tokenAddress factoryAddress rpcEndpoint in
  match eth_getAllDeployedTokens ethers rpcEndpoint factoryAddress with
  | inl _ => fst (m w) = inr false
  | inr allTokens =>
      exists b, fst (m w) = inr b /\
                (b = true <->
                 exists addr, In addr allTokens /\ eq_nocase addr tokenAddress = true)
  end.
Proof.
  intros m. unfold m, Deployment.isTokenRegistered. run_async.
  destruct (eth_getAllDeployedTokens ethers rpcEndpoint factoryAddress) as [t|allTokens];
    cbn [fst snd].
  - reflexivity.
  - eexists. split; [reflexivity|].
    rewrite existsb_exists. split.
    + intros (addr & Hin & Heq). exists addr. split; [exact Hin|].
      rewrite <- toLowerCase_eq_nocase. exact Heq.
    + intros (addr & Hin & Heq). exists addr. split; [exact Hin|].
      rewrite toLowerCase_eq_nocase. exact Heq.
Qed.

End RegistrationFacts.

(** ** Formatted amounts *)

Module FormatFacts.
Import LogFacts Decimal DecimalFacts.
Local Open Scope list_scope.
Local Open Scope Z_scope.

Lemma viem_format_1000 :
  Viem.formatUnits 1000000000000000000000 18 = "1000"%string.
Proof. vm_compute. reflexivity. Qed.

Lemma ethers_format_1000 :
  Ethers.formatUnits 1000000000000000000000 18 = inr "1000.0"%string.
Proof. vm_compute. reflexivity. Qed.

Lemma equivalent_1000 : equivalent "1000" "1000.0".
Proof. exists 1000, O, 10000, 1%nat. repeat split. Qed.

Lemma uint256_fits n : uint256 n -> - 2 ^ 511 <= n < 2 ^ 511.
Proof.
  unfold uint256. intros [H0 H1]. split.
  - pose proof (Z.pow_pos_nonneg 2 511). lia.
  - apply Z.lt_trans with (2 ^ 256); [exact H1|].
    apply Z.pow_lt_mono_r; lia.
Qed.

Lemma denotes_at_18 s raw : denotes s raw TOKEN_DECIMALS -> at_18_decimals s raw.
Proof.
  intros H. split; [exact H|].
  intros Hraw d Hd Hden. apply Hd.
  exact (denotes_decimals_unique s raw d TOKEN_DECIMALS Hraw Hden H).
Qed.

(** The token-info snapshot of the hook, when all six reads succeed. *)
Lemma refetchTokenInfo_success contractAddress pc w name symbol decimals totalSupply owner paused :
  readContract pc contractAddress fn_name = inr name ->
  readContract pc contractAddress fn_symbol = inr symbol ->
  readContract pc contractAddress fn_decimals = inr decimals ->
  readContract pc contractAddress fn_totalSupply = inr totalSupply ->
  readContract pc contractAddress fn_owner = inr owner ->
  readContract pc contractAddress fn_paused = inr paused ->
  tokenInfo (cells (snd (UseERC20Interactions.refetchTokenInfo contractAddress (Some pc) w)))
  = as_success
      {| ti_address := contractAddress; ti_name := name; ti_symbol := symbol;
         ti_decimals := decimals; ti_totalSupply := totalSupply;
         ti_formattedTotalSupply := Viem.formatUnits totalSupply decimals;
         ti_owner := owner; ti_paused := paused |}.
Proof.
  intros H1 H2 H3 H4 H5 H6. unfold UseERC20Interactions.refetchTokenInfo. run_async.
  rewrite H1, H2, H3, H4, H5, H6. reflexivity.
Qed.

(** The token-info record of the ethers helper, when all six reads succeed
    and the supply can be formatted. *)
Lemma getTokenInfo_success ethers contractAddress rpc w
    name symbol decimals totalSupply owner paused formatted :
  eth_view ethers rpc contractAddress fn_name = inr name ->
  eth_view ethers rpc contractAddress fn_symbol = inr symbol ->
  eth_view ethers rpc contractAddress fn_decimals = inr decimals ->
  eth_view ethers rpc contractAddress fn_totalSupply = inr totalSupply ->
  eth_view ethers rpc contractAddress fn_owner = inr owner ->
  eth_view ethers rpc contractAddress fn_paused = inr paused ->
  Ethers.formatUnits totalSupply decimals = inr formatted ->
  fst (Interactions.getTokenInfo ethers contractAddress rpc w)
  = inr {| ti_address := contractAddress; ti_name := name; ti_symbol := symbol;
           ti_decimals := decimals; ti_totalSupply := totalSupply;
           ti_formattedTotalSupply := formatted;
           ti_owner := owner; ti_paused := paused |}.
Proof.
  intros H1 H2 H3 H4 H5 H6 H7. unfold Interactions.getTokenInfo. run_async.
  rewrite H1, H2, H3, H4, H5, H6, H7. reflexivity.
Qed.

(** C3: for a token whose [totalSupply] read returns
    1000000000000000000000 and whose [decimals] read returns 18, the
    snapshot of the hook carries the formatted total supply "1000", a
    decimal string equivalent to "1000.0", and the record of the ethers
    helper carries "1000.0" itself; both are exact expansions of
    totalSupply / 10^18. *)
Theorem C3_total_supply_of_1000_tokens :
  (forall contractAddress pc w name symbol owner paused,
     readContract pc contractAddress fn_name = inr name ->
     readContract pc contractAddress fn_symbol = inr symbol ->
     readContract pc contractAddress fn_decimals = inr 18%nat ->
     readContract pc contractAddress fn_totalSupply = inr 1000000000000000000000 ->
     readContract pc contractAddress fn_owner = inr owner ->
     readContract pc contractAddress fn_paused = inr paused ->
     exists info,
       tokenInfo (cells (snd (UseERC20Interactions.refetchTokenInfo contractAddress
                                (Some pc) w))) = as_success info /\
       ti_formattedTotalSupply info = "1000"%string /\
       equivalent (ti_formattedTotalSupply info) "1000.0" /\
       denotes (ti_formattedTotalSupply info) 1000000000000000000000 18) /\
  (forall ethers contractAddress rpc w name symbol owner paused,
     eth_view ethers rpc contractAddress fn_name = inr name ->
     eth_view ethers rpc contractAddress fn_symbol = inr symbol ->
     eth_view ethers rpc contractAddress fn_decimals = inr 18%nat ->
     eth_view ethers rpc contractAddress fn_totalSupply = inr 1000000000000000000000 ->
     eth_view ethers rpc contractAddress fn_owner = inr owner ->
     eth_view ethers rpc contractAddress fn_paused = inr paused ->
     exists info,
       fst (Interactions.getTokenInfo ethers contractAddress rpc w) = inr info /\
       ti_formattedTotalSupply info = "1000.0"%string /\
       denotes (ti_formattedTotalSupply info) 1000000000000000000000 18).
Proof.
  split.
  - intros contractAddress pc w name symbol owner paused H1 H2 H3 H4 H5 H6.
    eexists. split; [apply (refetchTokenInfo_success _ _ _ _ _ _ _ _ _ H1 H2 H3 H4 H5 H6)|].
    cbn [ti_formattedTotalSupply].
    pose proof (ViemFacts.viem_formatUnits_denotes 1000000000000000000000 18) as Hden.
    rewrite viem_format_1000 in *.
    split; [reflexivity|]. split; [exact equivalent_1000 | exact Hden].
  - intros ethers contractAddress rpc w name symbol owner paused H1 H2 H3 H4 H5 H6.
    eexists. split;
      [apply (getTokenInfo_success _ _ _ _ _ _ _ _ _ _ _ H1 H2 H3 H4 H5 H6 ethers_format_1000)|].
    cbn [ti_formattedTotalSupply]. split; [reflexivity|].
    exact (EthersFacts.ethers_formatUnits_denotes _ _ _ ethers_format_1000).
Qed.

(** C3 run on the sample gateways. *)
Lemma C3_witness :
  (exists info,
     tokenInfo (cells (snd (UseERC20Interactions.refetchTokenInfo "0xc0"
                              (Some sample_public_client) initial_world)))
       = as_success info /\
     ti_formattedTotalSupply info = "1000"%string /\
     equivalent (ti_formattedTotalSupply info) "1000.0" /\
     denotes (ti_formattedTotalSupply info) 1000000000000000000000 18) /\
  (exists info,
     fst (Interactions.getTokenInfo sample_ethers "0xc0" "http://rpc" initial_world)
       = inr info /\
     ti_formattedTotalSupply info = "1000.0"%string /\
     denotes (ti_formattedTotalSupply info) 1000000000000000000000 18).
Proof.
  destruct C3_total_supply_of_1000_tokens as (Hhook & Hlib).
  split.
  - apply (Hhook "0xc0"%string sample_public_client initial_world
             "Token"%string "TKN"%string "0x0f"%string false); reflexivity.
  - apply (Hlib sample_ethers "0xc0"%string "http://rpc"%string initial_world
             "Token"%string "TKN"%string "0x0f"%string false); reflexivity.
Defined.

Lemma refetchBalance_success contractAddress pc user w raw :
  Js.truthy user = true ->
  readContract pc contractAddress (fn_balanceOf user) = inr raw ->
  balance (cells (snd (UseERC20Interactions.refetchBalance contractAddress (Some pc)
                         (Some user) w)))
  = as_success {| bi_balance := raw;
                  bi_formatted := Viem.formatUnits raw TOKEN_DECIMALS |}.
Proof.
  intros Hu Hr. unfold UseERC20Interactions.refetchBalance. rewrite Hu. cbn [negb].
  run_async. rewrite Hr. reflexivity.
Qed.

Lemma hook_getAllowance_success contractAddress pc user spender w raw :
  Js.truthy user = true ->
  readContract pc contractAddress (fn_allowance user spender) = inr raw ->
  fst (UseERC20Interactions.getAllowance contractAddress (Some pc) (Some user) spender w)
  = inr {| ai_allowance := raw;
           ai_formatted := Viem.formatUnits raw TOKEN_DECIMALS |}.
Proof.
  intros Hu Hr. unfold UseERC20Interactions.getAllowance. rewrite Hu. cbn [negb].
  run_async. rewrite Hr. reflexivity.
Qed.

Lemma ethers_format_uint256 raw :
  uint256 raw ->
  Ethers.formatUnits raw TOKEN_DECIMALS
  = inr (Js.to_string (Ethers.fixed_toString raw TOKEN_DECIMALS)).
Proof.
  intros H. apply EthersFacts.ethers_formatUnits_returns.
  - unfold TOKEN_DECIMALS. lia.
  - apply uint256_fits. exact H.
Qed.

Lemma lib_getBalance_success ethers contractAddress acct rpc w raw :
  uint256 raw ->
  eth_view ethers rpc contractAddress (fn_balanceOf acct) = inr raw ->
  fst (Interactions.getBalance ethers contractAddress acct rpc w)
  = inr {| bi_balance := raw;
           bi_formatted := Js.to_string (Ethers.fixed_toString raw TOKEN_DECIMALS) |}.
Proof.
  intros Hu Hr. unfold Interactions.getBalance. run_async.
  rewrite Hr, (ethers_format_uint256 raw Hu). reflexivity.
Qed.

Lemma lib_getAllowance_success ethers contractAddress owner spender rpc w raw :
  uint256 raw ->
  eth_view ethers rpc contractAddress (fn_allowance owner spender) = inr raw ->
  fst (Interactions.getAllowance ethers contractAddress owner spender rpc w)
  = inr {| ai_allowance := raw;
           ai_formatted := Js.to_string (Ethers.fixed_toString raw TOKEN_DECIMALS) |}.
Proof.
  intros Hu Hr. unfold Interactions.getAllowance. run_async.
  rewrite Hr, (ethers_format_uint256 raw Hu). reflexivity.
Qed.

(** The token-info record of the ethers helper, when all six reads
    succeed: it is returned exactly when the supply can be formatted at
    the decimals read. *)
Lemma getTokenInfo_result ethers contractAddress rpc w
    name symbol decimals totalSupply owner paused :
  eth_view ethers rpc contractAddress fn_name = inr name ->
  eth_view ethers rpc contractAddress fn_symbol = inr symbol ->
  eth_view ethers rpc contractAddress fn_decimals = inr decimals ->
  eth_view ethers rpc contractAddress fn_totalSupply = inr totalSupply ->
  eth_view ethers rpc contractAddress fn_owner = inr owner ->
  eth_view ethers rpc contractAddress fn_paused = inr paused ->
  fst (Interactions.getTokenInfo ethers contractAddress rpc w)
  = match Ethers.formatUnits totalSupply decimals with
    | inl t => inl t
    | inr formatted =>
        inr {| ti_address := contractAddress; ti_name := name; ti_symbol := symbol;
               ti_decimals := decimals; ti_totalSupply := totalSupply;
               ti_formattedTotalSupply := formatted;
               ti_owner := owner; ti_paused := paused |}
    end.
Proof.
  intros H1 H2 H3 H4 H5 H6. unfold Interactions.getTokenInfo. run_async.
  rewrite H1, H2, H3, H4, H5, H6.
  destruct (Ethers.formatUnits totalSupply decimals); reflexivity.
Qed.

(** C9 (amended): every balance read and every allowance read, in the hook
    and in the ethers helpers, formats the raw amount at the constant 18
    decimals, whatever the token's own [decimals]: the formatted string is
    an exact expansion of raw / 10^18 and, when the amount is not zero, of
    raw / 10^d for no [d] other than 18.  Only the formatted total supply
    of the token information is an expansion at the decimals read from the
    contract: in the snapshot of the hook, and in the record of the ethers
    helper [getTokenInfo], which formats the supply it read at the
    decimals it read and returns whenever those decimals are at most 80
    and the supply is a uint256. *)
Theorem C9_balance_and_allowance_use_18_decimals :
  (forall contractAddress pc user w raw,
     Js.truthy user = true ->
     readContract pc contractAddress (fn_balanceOf user) = inr raw ->
     exists info,
       balance (cells (snd (UseERC20Interactions.refetchBalance contractAddress (Some pc)
                              (Some user) w))) = as_success info /\
       bi_balance info = raw /\
       bi_formatted info = Viem.formatUnits raw TOKEN_DECIMALS /\
       at_18_decimals (bi_formatted info) raw) /\
  (forall contractAddress pc user spender w raw,
     Js.truthy user = true ->
     readContract pc contractAddress (fn_allowance user spender) = inr raw ->
     exists info,
       fst (UseERC20Interactions.getAllowance contractAddress (Some pc) (Some user)
              spender w) = inr info /\
       ai_allowance info = raw /\
       ai_formatted info = Viem.formatUnits raw TOKEN_DECIMALS /\
       at_18_decimals (ai_formatted info) raw) /\
  (forall ethers contractAddress acct rpc w raw,
     uint256 raw ->
     eth_view ethers rpc contractAddress (fn_balanceOf acct) = inr raw ->
     exists info,
       fst (Interactions.getBalance ethers contractAddress acct rpc w) = inr info /\
       bi_balance info = raw /\
       Ethers.formatUnits raw TOKEN_DECIMALS = inr (bi_formatted info) /\
       at_18_decimals (bi_formatted info) raw) /\
  (forall ethers contractAddress owner spender rpc w raw,
     uint256 raw ->
     eth_view ethers rpc contractAddress (fn_allowance owner spender) = inr raw ->
     exists info,
       fst (Interactions.getAllowance ethers contractAddress owner spender rpc w)
         = inr info /\
       ai_allowance info = raw /\
       Ethers.formatUnits raw TOKEN_DECIMALS = inr (ai_formatted info) /\
       at_18_decimals (ai_formatted info) raw) /\
  (forall contractAddress pc w name symbol decimals totalSupply owner paused,
     readContract pc contractAddress fn_name = inr name ->
     readContract pc contractAddress fn_symbol = inr symbol ->
     readContract pc contractAddress fn_decimals = inr decimals ->
     readContract pc contractAddress fn_totalSupply = inr totalSupply ->
     readContract pc contractAddress fn_owner = inr owner ->
     readContract pc contractAddress fn_paused = inr paused ->
     exists info,
       tokenInfo (cells (snd (UseERC20Interactions.refetchTokenInfo contractAddress
                                (Some pc) w))) = as_success info /\
       ti_formattedTotalSupply info = Viem.formatUnits totalSupply decimals /\
       denotes (ti_formattedTotalSupply info) totalSupply decimals) /\
  (forall ethers contractAddress rpc w name symbol decimals totalSupply owner paused,
     eth_view ethers rpc contractAddress fn_name = inr name ->
     eth_view ethers rpc contractAddress fn_symbol = inr symbol ->
     eth_view ethers rpc contractAddress fn_decimals = inr decimals ->
     eth_view ethers rpc contractAddress fn_totalSupply = inr totalSupply ->
     eth_view ethers rpc contractAddress fn_owner = inr owner ->
     eth_view ethers rpc contractAddress fn_paused = inr paused ->
     (forall info,
        fst (Interactions.getTokenInfo ethers contractAddress rpc w) = inr info ->
        ti_decimals info = decimals /\
        ti_totalSupply info = totalSupply /\
        Ethers.formatUnits totalSupply decimals = inr (ti_formattedTotalSupply info) /\
        denotes (ti_formattedTotalSupply info) totalSupply decimals) /\
     ((decimals <= 80)%nat -> uint256 totalSupply ->
      exists info,
        fst (Interactions.getTokenInfo ethers contractAddress rpc w) = inr info)).
Proof.
  split; [|split; [|split; [|split; [|split]]]].
  - intros contractAddress pc user w raw Hu Hr.
    eexists. split; [apply (refetchBalance_success _ _ _ _ _ Hu Hr)|].
    cbn [bi_balance bi_formatted]. repeat split.
    + apply ViemFacts.viem_formatUnits_denotes.
    + apply denotes_at_18, ViemFacts.viem_formatUnits_denotes.
  - intros contractAddress pc user spender w raw Hu Hr.
    eexists. split; [apply (hook_getAllowance_success _ _ _ _ _ _ Hu Hr)|].
    cbn [ai_allowance ai_formatted]. repeat split.
    + apply ViemFacts.viem_formatUnits_denotes.
    + apply denotes_at_18, ViemFacts.viem_formatUnits_denotes.
  - intros ethers contractAddress acct rpc w raw Hu Hr.
    eexists. split; [apply (lib_getBalance_success _ _ _ _ _ _ Hu Hr)|].
    cbn [bi_balance bi_formatted]. split; [reflexivity|].
    split; [apply ethers_format_uint256; exact Hu|].
    apply denotes_at_18, EthersFacts.fixed_toString_denotes.
  - intros ethers contractAddress owner spender rpc w raw Hu Hr.
    eexists. split; [apply (lib_getAllowance_success _ _ _ _ _ _ _ Hu Hr)|].
    cbn [ai_allowance ai_formatted]. split; [reflexivity|].
    split; [apply ethers_format_uint256; exact Hu|].
    apply denotes_at_18, EthersFacts.fixed_toString_denotes.
  - intros contractAddress pc w name symbol decimals totalSupply owner paused
      H1 H2 H3 H4 H5 H6.
    eexists. split; [apply (refetchTokenInfo_success _ _ _ _ _ _ _ _ _ H1 H2 H3 H4 H5 H6)|].
    cbn [ti_formattedTotalSupply]. split; [reflexivity|].
    apply ViemFacts.viem_formatUnits_denotes.
  - intros ethers contractAddress rpc w name symbol decimals totalSupply owner paused
      H1 H2 H3 H4 H5 H6.
    rewrite (getTokenInfo_result _ _ _ w _ _ _ _ _ _ H1 H2 H3 H4 H5 H6).
    split.
    + intros info Hinfo.
      destruct (Ethers.formatUnits totalSupply decimals) as [t|formatted] eqn:Hfmt;
        [discriminate Hinfo|].
      injection Hinfo as <-. cbn [ti_decimals ti_totalSupply ti_formattedTotalSupply].
      repeat split.
      exact (EthersFacts.ethers_formatUnits_denotes _ _ _ Hfmt).
    + intros Hd Hu.
      rewrite (EthersFacts.ethers_formatUnits_returns totalSupply decimals Hd
                 (uint256_fits _ Hu)).
      eexists. reflexivity.
Qed.

(** C9 run on the sample gateways: a balance of 5.5 tokens, read through
    the hook, and the token information of the ethers helper. *)
Lemma C9_witness :
  Js.truthy "0xaa" = true /\
  readContract sample_public_client "0xc0" (fn_balanceOf "0xaa") = inr 5500000000000000000 /\
  (exists info,
     balance (cells (snd (UseERC20Interactions.refetchBalance "0xc0"
                            (Some sample_public_client) (Some "0xaa"%string) initial_world)))
       = as_success info /\
     bi_balance info = 5500000000000000000 /\
     bi_formatted info = Viem.formatUnits 5500000000000000000 TOKEN_DECIMALS /\
     at_18_decimals (bi_formatted info) 5500000000000000000) /\
  (18 <= 80)%nat /\
  uint256 1000000000000000000000 /\
  exists info,
    fst (Interactions.getTokenInfo sample_ethers "0xc0" "http://rpc" initial_world)
    = inr info.
Proof.
  split; [reflexivity|]. split; [reflexivity|].
  destruct C9_balance_and_allowance_use_18_decimals as (Hbal & _ & _ & _ & _ & Hinfo).
  split.
  - apply (Hbal "0xc0"%string sample_public_client "0xaa"%string initial_world
             5500000000000000000); reflexivity.
  - assert (Hd : (18 <= 80)%nat) by lia.
    assert (Hu : uint256 1000000000000000000000) by (unfold uint256; lia).
    split; [exact Hd|]. split; [exact Hu|].
    destruct (Hinfo sample_ethers "0xc0"%string "http://rpc"%string initial_world
                "Token"%string "TKN"%string 18%nat 1000000000000000000000
                "0x0f"%string false
                eq_refl eq_refl eq_refl eq_refl eq_refl eq_refl) as (_ & Hret).
    exact (Hret Hd Hu).
Defined.

(** The claim as the specification words it fails on a zero amount: for a
    token of 6 decimals with an empty balance, the formatted balance "0",
    computed at 18 decimals, is an exact expansion of raw / 10^6 all the
    same; and so is the "0.0" of the ethers helper. *)
Lemma C9_counterexample :
  readContract six_decimals_client "0xc0" fn_decimals = inr 6%nat /\
  6%nat <> TOKEN_DECIMALS /\
  balance (cells (snd (UseERC20Interactions.refetchBalance "0xc0"
                         (Some six_decimals_client) (Some "0xaa"%string) initial_world)))
    = as_success {| bi_balance := 0; bi_formatted := "0" |} /\
  denotes "0" 0 6 /\
  fst (Interactions.getBalance six_decimals_ethers "0xc0" "0xaa" "http://rpc" initial_world)
    = inr {| bi_balance := 0; bi_formatted := "0.0" |} /\
  denotes "0.0" 0 6.
Proof.
  split; [reflexivity|]. split; [discriminate|].
  split; [vm_compute; reflexivity|].
  split; [exists 0, O; split; reflexivity|].
  split; [vm_compute; reflexivity|].
  exists 0, 1%nat; split; reflexivity.
Qed.

End FormatFacts.

(** ** The conversions on concrete amounts *)

Module Examples.
Local Open Scope Z_scope.

Example viem_format_5_5 : Viem.formatUnits 5500000000000000000 18 = "5.5"%string.
Proof. vm_compute. reflexivity. Qed.

Example viem_format_negative : Viem.formatUnits (-1500) 3 = "-1.5"%string.
Proof. vm_compute. reflexivity. Qed.

Example viem_format_small : Viem.formatUnits 15 3 = "0.015"%string.
Proof. vm_compute. reflexivity. Qed.

Example viem_format_no_decimals : Viem.formatUnits 42 0 = "42"%string.
Proof. vm_compute. reflexivity. Qed.

Example ethers_format_small : Ethers.formatUnits 15 3 = inr "0.015"%string.
Proof. vm_compute. reflexivity. Qed.

Example ethers_format_zero : Ethers.formatUnits 0 18 = inr "0.0"%string.
Proof. vm_compute. reflexivity. Qed.

Example ethers_format_too_many_decimals :
  Ethers.formatUnits 1 81 = raise (LibError "INVALID_ARGUMENT" "format.decimals").
Proof. vm_compute. reflexivity. Qed.

Example viem_parse_leading_dot : Viem.parseUnits no_rounding "-.5" 2 = inr (-50).
Proof. vm_compute. reflexivity. Qed.

Example viem_parse_rejects_letters :
  Viem.parseUnits no_rounding "abc" 18 = raise (LibError "InvalidDecimalNumberError" "abc").
Proof. vm_compute. reflexivity. Qed.

Example ethers_parse_rejects_excess_digits :
  Ethers.parseUnits "0.0000000000000000001" 18 = raise (LibError "NUMERIC_FAULT" "underflow").
Proof. vm_compute. reflexivity. Qed.

Example registered_up_to_case :
  fst (Deployment.isTokenRegistered sample_ethers "0xabcd" "0xfac7" "http://rpc" initial_world)
  = inr true.
Proof. vm_compute. reflexivity. Qed.

Example transfer_states :
  tx_states (new_events
    (UseERC20Interactions.transfer no_rounding "0xc0" (Some sample_public_client)
       (Some sample_wallet_client) (Some "0xaa"%string) "0x01" "5.5") initial_world)
  = [tx_pending; tx_confirming "0x7e57"; tx_success "0x7e57"].
Proof. vm_compute. reflexivity. Qed.

End Examples.

(** ** The deployment hook, case by case *)

Module DeployHookFacts.
Import LogFacts.
Local Open Scope list_scope.

Lemma or_else_cases a d :
  Js.or_else a d = match a with Some (String c s) => String c s | _ => d end.
Proof. destruct a as [[|c s]|]; reflexivity. Qed.

(** Every run of [deployToken] with a key, by what the gateway does. *)
Lemma deployToken_run fetch key rpc network url params w :
  Js.truthy key = true ->
  let req := deploy_request key rpc network url params in
  UseERC20Deploy.deployToken fetch (Some key) rpc network url params w =
  match fetch req with
  | inl t => (raise (normalize t), deploy_failed w req (normalize t))
  | inr response =>
      match api_outcome response with
      | inl t => (raise (normalize t), deploy_failed w req (normalize t))
      | inr r => (inr r, deploy_succeeded w req r)
      end
  end.
Proof.
  intros Hk req.
  unfold UseERC20Deploy.deployToken.
  rewrite Hk. cbn [negb]. run_async.
  rewrite DeploymentFacts.deployERC20TokenViaAPI_run. cbv zeta.
  unfold UseERC20Deploy.actualRpcEndpoint, UseERC20Deploy.factoryAddress,
    UseERC20Deploy.deploymentApiUrl, UseERC20Deploy.DEFAULT_DEPLOYMENT_API_URL,
    getRpcEndpoint, getFactoryAddress.
  rewrite !or_else_cases.
  cbn [dp_name dp_symbol dp_initialSupply dp_factoryAddress].
  change {| rq_url := _; rq_method := _; rq_headers := _; rq_body := _ |} with req.
  destruct (fetch req) as [t|response]; cbn [fst snd cells log].
  - unfold deploy_failed. cbn. flatten_log. reflexivity.
  - destruct (api_outcome response) as [t|r]; cbn [fst snd cells log].
    + unfold deploy_failed. cbn. flatten_log. reflexivity.
    + unfold deploy_succeeded. cbn. flatten_log. reflexivity.
Qed.

Lemma deployment_states_app l1 l2 :
  deployment_states (l1 ++ l2) = deployment_states l1 ++ deployment_states l2.
Proof. apply flat_map_app. Qed.

(** X1: a [deployToken] called with a private key always ends in a
    terminal state that agrees with what the caller gets: the deployment
    states it sets are deploying and then either success with the returned
    result (error cell empty) or failed with the thrown error (error cell
    holding it).  It never sets activating, initializing or registering, is
    not busy when it settles, and leaves the other cells alone. *)
Theorem X1_deployToken_ends_terminal fetch key rpc network url params w :
  Js.truthy key = true ->
  let m := UseERC20Deploy.deployToken fetch (Some key) rpc network url params in
  ((exists r, fst (m w) = inr r /\
              deployment_states (new_events m w) = [dep_deploying; dep_success r] /\
              deploymentState (cells (snd (m w))) = dep_success r /\
              error (cells (snd (m w))) = None) \/
   (exists e, fst (m w) = raise e /\
              deployment_states (new_events m w) = [dep_deploying; dep_error e] /\
              deploymentState (cells (snd (m w))) = dep_error e /\
              error (cells (snd (m w))) = Some e)) /\
  UseERC20Deploy.isDeploying (cells (snd (m w))) = false /\
  tokenInfo (cells (snd (m w))) = tokenInfo (cells w) /\
  balance (cells (snd (m w))) = balance (cells w) /\
  txState (cells (snd (m w))) = txState (cells w).
Proof.
  intros Hk m.
  pose proof (deployToken_run fetch key rpc network url params w Hk) as Hrun.
  cbv zeta in Hrun. fold m in Hrun.
  set (req := deploy_request key rpc network url params) in *.
  assert (Hfail : forall e, m w = (raise e, deploy_failed w req e) ->
    ((exists r, fst (m w) = inr r /\
              deployment_states (new_events m w) = [dep_deploying; dep_success r] /\
              deploymentState (cells (snd (m w))) = dep_success r /\
              error (cells (snd (m w))) = None) \/
     (exists e, fst (m w) = raise e /\
              deployment_states (new_events m w) = [dep_deploying; dep_error e] /\
              deploymentState (cells (snd (m w))) = dep_error e /\
              error (cells (snd (m w))) = Some e)) /\
    UseERC20Deploy.isDeploying (cells (snd (m w))) = false /\
    tokenInfo (cells (snd (m w))) = tokenInfo (cells w) /\
    balance (cells (snd (m w))) = balance (cells w) /\
    txState (cells (snd (m w))) = txState (cells w)).
  { intros e E.
    assert (Hev : new_events m w = skipn (List.length (log w)) (log (deploy_failed w req e)))
      by (unfold new_events; rewrite E; reflexivity).
    unfold deploy_failed in Hev. cbn [log] in Hev. rewrite skipn_past in Hev.
    rewrite Hev, E. split; [right; exists e|]; repeat split. }
  destruct (fetch req) as [t|response]; [exact (Hfail _ Hrun)|].
  destruct (api_outcome response) as [t|r]; [exact (Hfail _ Hrun)|].
  assert (Hev : new_events m w
                = skipn (List.length (log w)) (log (snd (m w))))
    by reflexivity.
  rewrite Hrun in Hev. unfold deploy_succeeded in Hev. cbn [snd log] in Hev.
  rewrite skipn_past in Hev.
  rewrite Hev, Hrun. split; [left; eexists|]; repeat split.
Qed.

(** X1 run on a gateway that answers 200 with an empty body object. *)
Lemma X1_witness :
  let response := {| status := 200; json := inr (js_object []) |} in
  let m := UseERC20Deploy.deployToken (fun _ => inr response) (Some "0x5eed") None
             arbitrum None sample_params in
  ((exists r, fst (m initial_world) = inr r /\
              deployment_states (new_events m initial_world) = [dep_deploying; dep_success r] /\
              deploymentState (cells (snd (m initial_world))) = dep_success r /\
              error (cells (snd (m initial_world))) = None) \/
   (exists e, fst (m initial_world) = raise e /\
              deployment_states (new_events m initial_world) = [dep_deploying; dep_error e] /\
              deploymentState (cells (snd (m initial_world))) = dep_error e /\
              error (cells (snd (m initial_world))) = Some e)) /\
  UseERC20Deploy.isDeploying (cells (snd (m initial_world))) = false /\
  tokenInfo (cells (snd (m initial_world))) = tokenInfo (cells initial_world) /\
  balance (cells (snd (m initial_world))) = balance (cells initial_world) /\
  txState (cells (snd (m initial_world))) = txState (cells initial_world).
Proof.
  intros response m.
  apply (X1_deployToken_ends_terminal (fun _ => inr response) "0x5eed" None arbitrum None
           sample_params initial_world).
  reflexivity.
Defined.

(** X2: whatever the gateway does, a [deployToken] called with a private
    key issues exactly one gateway call: a POST to the API URL (by default
    http://localhost:4000) followed by /deploy-token, whose body carries
    the private key, the RPC endpoint of the options or else the one of
    the network, and the factory address of the parameters or else the one
    of the network; an empty endpoint or address counts as absent. *)
Theorem X2_deployToken_sends_one_request fetch key rpc network url params w :
  Js.truthy key = true ->
  calls (new_events (UseERC20Deploy.deployToken fetch (Some key) rpc network url params) w)
  = [Fetch (deploy_request key rpc network url params)].
Proof.
  intros Hk.
  pose proof (deployToken_run fetch key rpc network url params w Hk) as Hrun.
  cbv zeta in Hrun. unfold new_events. rewrite Hrun.
  destruct (fetch _) as [t|response]; [|destruct (api_outcome response)];
    cbn [snd log deploy_failed deploy_succeeded]; rewrite skipn_past; reflexivity.
Qed.

(** X2 run with no endpoint and no factory address given: the network's
    defaults are sent. *)
Lemma X2_witness :
  calls (new_events
           (UseERC20Deploy.deployToken (fun _ => inl (ThrownValue "offline")) (Some "0x5eed")
              None arbitrum_sepolia None sample_params) initial_world)
  = [Fetch {| rq_url := "http://localhost:4000/deploy-token";
              rq_method := "POST";
              rq_headers := [("Content-Type", "application/json")];
              rq_body := {| rb_name := "Token"; rb_symbol := "TKN";
                            rb_initialSupply := "1000";
                            rb_factoryAddress :=
                              Some "0xed088fd93517b0d0c3a3e4d2e2c419fb58570556";
                            rb_privateKey := "0x5eed";
                            rb_rpcEndpoint := "https://sepolia-rollup.arbitrum.io/rpc" |} |}].
Proof.
  apply (X2_deployToken_sends_one_request (fun _ => inl (ThrownValue "offline")) "0x5eed"
           None arbitrum_sepolia None sample_params initial_world).
  reflexivity.
Defined.

(** X3: for an answer outside 200-299, what [deployToken] fails with
    depends on the body alone.  When the body is not JSON it is an [Error]
    with the message "Unknown error".  When the body is a JSON value other
    than null, it depends on the [error] property of it: missing or falsy
    (the empty string, zero, false, null), the message is "Deployment
    failed with status N"; truthy, the message is what [String] gives for
    it, whatever its type, which for an empty array is the empty message;
    and when [String] throws, as on an object that has a [toString]
    property, that TypeError is what [deployToken] fails with.  When the
    body is JSON null it fails with the TypeError of reading a property of
    null, which the fallback for unparseable bodies does not cover. *)
Theorem X3_non_2xx_message fetch key rpc network url params w response :
  Js.truthy key = true ->
  fetch (deploy_request key rpc network url params) = inr response ->
  ok response = false ->
  let m := UseERC20Deploy.deployToken fetch (Some key) rpc network url params in
  (forall t, json response = inl t -> fst (m w) = raise (JsError "Unknown error")) /\
  (forall body message,
     json response = inr body ->
     get_property body "error" = inr message ->
     truthy_value message = false ->
     fst (m w) = raise (JsError ("Deployment failed with status "
                                 ++ Js.nat_toString (status response))%string)) /\
  (forall body message,
     json response = inr body ->
     get_property body "error" = inr message ->
     truthy_value message = true ->
     match ToString message with
     | inr s => fst (m w) = raise (JsError s)
     | inl t => fst (m w) = raise (normalize t)
     end) /\
  (json response = inr js_null ->
   fst (m w) = raise (property_of_null_error "error") /\
   deploymentState (cells (snd (m w))) = dep_error (property_of_null_error "error")).
Proof.
  intros Hk Hfetch Hok m.
  pose proof (deployToken_run fetch key rpc network url params w Hk) as Hrun.
  cbv zeta in Hrun. fold m in Hrun.
  unfold api_outcome, non_2xx_error in Hrun. rewrite Hfetch, Hok in Hrun.
  split; [|split; [|split]].
  - intros t E. rewrite E in Hrun. rewrite Hrun. reflexivity.
  - intros body message E Hget Hfalse. rewrite E in Hrun.
    cbn [obind] in Hrun. rewrite Hget in Hrun. cbn [obind] in Hrun.
    unfold or_value in Hrun.
    rewrite Hfalse in Hrun. rewrite Hrun. reflexivity.
  - intros body message E Hget Htrue. rewrite E in Hrun.
    cbn [obind] in Hrun. rewrite Hget in Hrun. cbn [obind] in Hrun.
    unfold or_value in Hrun.
    rewrite Htrue, (DeploymentFacts.new_Error_truthy message Htrue) in Hrun.
    destruct (ToString message) as [t|s]; rewrite Hrun; reflexivity.
  - intros E. rewrite E in Hrun. rewrite Hrun. split; reflexivity.
Qed.

(** X3 run on HTTP 404 with the body [{"error":[]}]: the error property is
    truthy and [String] of it is empty, so the error has the empty
    message. *)
Lemma X3_witness :
  fst (UseERC20Deploy.deployToken
         (fun _ => inr {| status := 404;
                          json := inr (js_object [("error"%string, js_array [])]) |})
         (Some "0x5eed") None arbitrum None sample_params initial_world)
  = raise (JsError "").
Proof.
  destruct (X3_non_2xx_message
              (fun _ => inr {| status := 404;
                               json := inr (js_object [("error"%string, js_array [])]) |})
              "0x5eed" None arbitrum None sample_params initial_world
              {| status := 404; json := inr (js_object [("error"%string, js_array [])]) |}
              eq_refl eq_refl eq_refl) as (_ & _ & H & _).
  exact (H (js_object [("error"%string, js_array [])]) (js_array [])
           eq_refl eq_refl eq_refl).
Defined.

(** X4: when the request itself fails, or a 2xx body does not parse,
    [deployToken] fails with the thrown value normalized: an [Error] is
    kept as it is, any other value [v] becomes [new Error(String(v))]; that
    error is stored in both cells and re-thrown. *)
Theorem X4_transport_failure_is_normalized fetch key rpc network url params w t :
  Js.truthy key = true ->
  let req := deploy_request key rpc network url params in
  fetch req = inl t \/
  (exists response, fetch req = inr response /\ ok response = true /\
                    json response = inl t) ->
  let m := UseERC20Deploy.deployToken fetch (Some key) rpc network url params in
  fst (m w) = raise (normalize t) /\
  deploymentState (cells (snd (m w))) = dep_error (normalize t) /\
  error (cells (snd (m w))) = Some (normalize t) /\
  (forall v, t = ThrownValue v -> normalize t = JsError v) /\
  (forall e, t = ThrownError e -> normalize t = e).
Proof.
  intros Hk req H m.
  pose proof (deployToken_run fetch key rpc network url params w Hk) as Hrun.
  cbv zeta in Hrun. fold req in Hrun. fold m in Hrun.
  assert (E : m w = (raise (normalize t), deploy_failed w req (normalize t))).
  { destruct H as [H | (response & H1 & H2 & H3)].
    - rewrite H in Hrun. exact Hrun.
    - unfold api_outcome in Hrun. rewrite H1, H2, H3 in Hrun. exact Hrun. }
  rewrite E. repeat split.
  - intros v ->. reflexivity.
  - intros e ->. reflexivity.
Qed.

(** X4 run on a network failure that throws a plain string. *)
Lemma X4_witness :
  let m := UseERC20Deploy.deployToken (fun _ => inl (ThrownValue "offline")) (Some "0x5eed")
             None arbitrum None sample_params in
  fst (m initial_world) = raise (JsError "offline") /\
  deploymentState (cells (snd (m initial_world))) = dep_error (JsError "offline") /\
  error (cells (snd (m initial_world))) = Some (JsError "offline").
Proof.
  intros m.
  destruct (X4_transport_failure_is_normalized (fun _ => inl (ThrownValue "offline"))
              "0x5eed" None arbitrum None sample_params initial_world (ThrownValue "offline")
              eq_refl (or_introl eq_refl)) as (H1 & H2 & H3 & _).
  repeat split; assumption.
Defined.

End DeployHookFacts.

(** ** The read refreshes, case by case *)

Module RefreshRunFacts.
Import UseERC20Interactions LogFacts.
Local Open Scope list_scope.

Lemma refetchBalance_run contractAddress pc user w :
  Js.truthy user = true ->
  refetchBalance contractAddress (Some pc) (Some user) w =
  (inr tt,
   balance_refreshed w contractAddress user
     match readContract pc contractAddress (fn_balanceOf user) with
     | inl t => as_error (normalize t)
     | inr raw => as_success {| bi_balance := raw;
                                bi_formatted := Viem.formatUnits raw TOKEN_DECIMALS |}
     end).
Proof.
  intros Hu. unfold refetchBalance, balance_refreshed. rewrite Hu. cbn [negb]. run_async.
  destruct (readContract pc contractAddress (fn_balanceOf user));
    cbn; flatten_log; reflexivity.
Qed.

Lemma refetchTokenInfo_run contractAddress pc :
  exists final,
    (forall w, refetchTokenInfo contractAddress (Some pc) w
               = (inr tt, token_info_refreshed w contractAddress final)) /\
    ((exists info, final = as_success info) \/ (exists e, final = as_error e)) /\
    ((exists info, final = as_success info) <-> token_reads_return pc contractAddress).
Proof.
  unfold refetchTokenInfo, token_info_refreshed, token_reads_return. run_async.
  destruct (readContract pc contractAddress fn_name) as [t|v1].
  { eexists. split; [intros w; cbn; flatten_log; reflexivity|].
    split; [right; eexists; reflexivity|].
    split; [intros (? & [=]) | intros ((? & [=]) & _)]. }
  destruct (readContract pc contractAddress fn_symbol) as [t|v2].
  { eexists. split; [intros w; cbn; flatten_log; reflexivity|].
    split; [right; eexists; reflexivity|].
    split; [intros (? & [=]) | intros (_ & (? & [=]) & _)]. }
  destruct (readContract pc contractAddress fn_decimals) as [t|v3].
  { eexists. split; [intros w; cbn; flatten_log; reflexivity|].
    split; [right; eexists; reflexivity|].
    split; [intros (? & [=]) | intros (_ & _ & (? & [=]) & _)]. }
  destruct (readContract pc contractAddress fn_totalSupply) as [t|v4].
  { eexists. split; [intros w; cbn; flatten_log; reflexivity|].
    split; [right; eexists; reflexivity|].
    split; [intros (? & [=]) | intros (_ & _ & _ & (? & [=]) & _)]. }
  destruct (readContract pc contractAddress fn_owner) as [t|v5].
  { eexists. split; [intros w; cbn; flatten_log; reflexivity|].
    split; [right; eexists; reflexivity|].
    split; [intros (? & [=]) | intros (_ & _ & _ & _ & (? & [=]) & _)]. }
  destruct (readContract pc contractAddress fn_paused) as [t|v6].
  { eexists. split; [intros w; cbn; flatten_log; reflexivity|].
    split; [right; eexists; reflexivity|].
    split; [intros (? & [=]) | intros (_ & _ & _ & _ & _ & (? & [=]))]. }
  eexists. split; [intros w; cbn; flatten_log; reflexivity|].
  split; [left; eexists; reflexivity|].
  split; [intros _ | intros _; eexists; reflexivity].
  repeat split; eexists; reflexivity.
Qed.

Lemma calls_map_Call cs : calls (map Call cs) = cs.
Proof. induction cs as [|c cs IH]; [reflexivity|]. cbn. unfold calls in IH. rewrite IH. reflexivity. Qed.

Lemma token_info_states_map_Call cs : token_info_states (map Call cs) = [].
Proof. induction cs as [|c cs IH]; [reflexivity | exact IH]. Qed.

(** X5: the two read refreshes never reject, whatever the options of the
    hook and whatever the gateway does: a failing read ends up in the state
    cell, not in the promise. *)
Theorem X5_refreshes_never_reject contractAddress publicClient userAddress w :
  fst (refetchBalance contractAddress publicClient userAddress w) = inr tt /\
  fst (refetchTokenInfo contractAddress publicClient w) = inr tt.
Proof.
  split.
  - destruct publicClient as [pc|], userAddress as [user|];
      try (rewrite RefreshFacts.refetchBalance_short_circuit;
           [reflexivity | first [left; reflexivity | right; reflexivity]]).
    destruct (Js.truthy user) eqn:Hu.
    + rewrite refetchBalance_run by exact Hu. reflexivity.
    + rewrite RefreshFacts.refetchBalance_short_circuit; [reflexivity|].
      right. cbn [missing]. rewrite Hu. reflexivity.
  - destruct publicClient as [pc|]; [|reflexivity].
    destruct (refetchTokenInfo_run contractAddress pc) as (final & Hrun & _).
    rewrite Hrun. reflexivity.
Qed.

(** X6: a balance refresh with a read client and an account sets the
    balance cell to loading and then to its final value, issues exactly one
    read, [balanceOf(account)], and touches no other cell.  The final value
    is success with the raw balance when the read returns, and failed with
    the normalized thrown value when it throws. *)
Theorem X6_balance_refresh_with_account contractAddress pc user w :
  Js.truthy user = true ->
  let m := refetchBalance contractAddress (Some pc) (Some user) in
  let final := balance (cells (snd (m w))) in
  calls (new_events m w) = [ReadContract contractAddress (fn_balanceOf user)] /\
  balance_states (new_events m w) = [as_loading; final] /\
  (forall raw, readContract pc contractAddress (fn_balanceOf user) = inr raw ->
     exists formatted, final = as_success {| bi_balance := raw; bi_formatted := formatted |}) /\
  (forall t, readContract pc contractAddress (fn_balanceOf user) = inl t ->
     final = as_error (normalize t)) /\
  tokenInfo (cells (snd (m w))) = tokenInfo (cells w) /\
  txState (cells (snd (m w))) = txState (cells w) /\
  error (cells (snd (m w))) = error (cells w).
Proof.
  intros Hu m final. unfold final, new_events, m.
  rewrite refetchBalance_run by exact Hu.
  cbn [snd cells log balance_refreshed balance tokenInfo txState error].
  rewrite skipn_past. repeat split.
  - intros raw ->. eexists. reflexivity.
  - intros t ->. reflexivity.
Qed.

(** X6 run on the sample hook. *)
Lemma X6_witness :
  let m := refetchBalance "0xc0" (Some sample_public_client) (Some "0xaa"%string) in
  let final := balance (cells (snd (m initial_world))) in
  calls (new_events m initial_world) = [ReadContract "0xc0" (fn_balanceOf "0xaa")] /\
  balance_states (new_events m initial_world) = [as_loading; final].
Proof.
  intros m final.
  destruct (X6_balance_refresh_with_account "0xc0"%string sample_public_client
              "0xaa"%string initial_world eq_refl) as (H1 & H2 & _).
  split; assumption.
Defined.

(** X7: a token-info refresh with a read client issues all six reads, in
    the order name, symbol, decimals, totalSupply, owner, paused, whether
    or not some of them throw; it sets the token-info cell to loading and
    then to success, when all six reads return, or to failed otherwise, and
    touches no other cell. *)
Theorem X7_token_info_refresh_reads_all_six contractAddress pc w :
  let m := refetchTokenInfo contractAddress (Some pc) in
  let final := tokenInfo (cells (snd (m w))) in
  calls (new_events m w) = token_info_reads contractAddress /\
  token_info_states (new_events m w) = [as_loading; final] /\
  ((exists info, final = as_success info) \/ (exists e, final = as_error e)) /\
  ((exists info, final = as_success info) <-> token_reads_return pc contractAddress) /\
  balance (cells (snd (m w))) = balance (cells w) /\
  txState (cells (snd (m w))) = txState (cells w) /\
  error (cells (snd (m w))) = error (cells w).
Proof.
  intros m final. unfold final, new_events, m.
  destruct (refetchTokenInfo_run contractAddress pc) as (fin & Hrun & Hcases & Hiff).
  rewrite Hrun.
  cbn [snd cells log token_info_refreshed balance tokenInfo txState error].
  rewrite skipn_past.
  split; [reflexivity|]. split; [reflexivity|].
  split; [exact Hcases|]. split; [exact Hiff|]. repeat split.
Qed.

(** X8: what a refresh leaves in its cell depends on the gateway and the
    options only, not on the state the hook was in: started from any two
    worlds, the balance refresh leaves the same balance cell, and, with a
    read client, the token-info refresh leaves the same token-info cell. *)
Theorem X8_refresh_forgets_previous_state contractAddress publicClient pc userAddress w1 w2 :
  balance (cells (snd (refetchBalance contractAddress publicClient userAddress w1)))
  = balance (cells (snd (refetchBalance contractAddress publicClient userAddress w2))) /\
  tokenInfo (cells (snd (refetchTokenInfo contractAddress (Some pc) w1)))
  = tokenInfo (cells (snd (refetchTokenInfo contractAddress (Some pc) w2))).
Proof.
  split.
  - destruct publicClient as [pc'|], userAddress as [user|];
      try (rewrite !RefreshFacts.refetchBalance_short_circuit;
           [reflexivity | first [left; reflexivity | right; reflexivity] ..]).
    destruct (Js.truthy user) eqn:Hu.
    + rewrite !refetchBalance_run by exact Hu. reflexivity.
    + rewrite !RefreshFacts.refetchBalance_short_circuit;
        [reflexivity | right; cbn [missing]; rewrite Hu; reflexivity ..].
  - destruct (refetchTokenInfo_run contractAddress pc) as (final & Hrun & _).
    rewrite !Hrun. reflexivity.
Qed.

(** X9: the hook's [getAllowance], with a read client and an account,
    issues exactly one read, [allowance(account, spender)], and writes no
    state cell at all.  When the read throws, the thrown value reaches the
    caller as it is, without being normalized; when it returns, the caller
    gets the raw allowance. *)
Theorem X9_getAllowance_reads_once contractAddress pc user spender w :
  Js.truthy user = true ->
  let m := getAllowance contractAddress (Some pc) (Some user) spender in
  calls (new_events m w) = [ReadContract contractAddress (fn_allowance user spender)] /\
  cells (snd (m w)) = cells w /\
  (forall t, readContract pc contractAddress (fn_allowance user spender) = inl t ->
     fst (m w) = inl t) /\
  (forall raw, readContract pc contractAddress (fn_allowance user spender) = inr raw ->
     exists info, fst (m w) = inr info /\ ai_allowance info = raw).
Proof.
  intros Hu m. unfold m, new_events, getAllowance. rewrite Hu. cbn [negb]. run_async.
  destruct (readContract pc contractAddress (fn_allowance user spender)) as [t|raw];
    cbn [fst snd cells log]; rewrite skipn_past; repeat split.
  - intros t' [= <-]. reflexivity.
  - intros raw [=].
  - intros t [=].
  - intros raw' [= <-]. eexists. split; reflexivity.
Qed.

(** X9 run on the sample hook. *)
Lemma X9_witness :
  let m := getAllowance "0xc0" (Some sample_public_client) (Some "0xaa"%string) "0x02" in
  calls (new_events m initial_world)
    = [ReadContract "0xc0" (fn_allowance "0xaa" "0x02")] /\
  cells (snd (m initial_world)) = cells initial_world.
Proof.
  intros m.
  destruct (X9_getAllowance_reads_once "0xc0"%string sample_public_client "0xaa"%string
              "0x02"%string initial_world eq_refl) as (H1 & H2 & _).
  split; assumption.
Defined.

End RefreshRunFacts.

(** ** The gateway calls of a write *)

Module WriteCallFacts.
Import UseERC20Interactions LogFacts WriteFacts.
Local Open Scope list_scope.



Lemma emits_nothing : emits_calls (ret tt) [].
Proof. intros w. exists []. split; [symmetry; apply app_nil_r | reflexivity]. Qed.









(** X12: a write operation whose amount [parseUnits] rejects fails before
    anything happens: the caller gets what [parseUnits] threw, and the
    world is untouched, so the transaction state does not become pending
    or failed, the error cell is not set, and no gateway call is issued;
    this is so whether or not the clients are present. *)
Theorem X12_unparseable_amount_changes_nothing
    round_number contractAddress publicClient walletClient userAddress op amount t w :
  amount_of op = Some amount ->
  Viem.parseUnits round_number amount TOKEN_DECIMALS = inl t ->
  run round_number contractAddress publicClient walletClient userAddress op w = (inl t, w).
Proof.
  intros Ha Hp.
  destruct op; cbn [amount_of] in Ha; try discriminate; injection Ha as ->;
    cbn [run];
    unfold transfer, approve, transferFrom, mint, burn;
    unfold bind at 1, settle; rewrite Hp; reflexivity.
Qed.

(** X12 run on a transfer of "abc". *)
Lemma X12_witness :
  run no_rounding "0xc0" (Some sample_public_client) (Some sample_wallet_client)
    (Some "0xaa"%string) (op_transfer "0x01" "abc") initial_world
  = (raise (LibError "InvalidDecimalNumberError" "abc"), initial_world).
Proof.
  apply (X12_unparseable_amount_changes_nothing no_rounding "0xc0"%string
           (Some sample_public_client) (Some sample_wallet_client) (Some "0xaa"%string)
           (op_transfer "0x01" "abc") "abc"%string).
  - reflexivity.
  - vm_compute. reflexivity.
Defined.

(** X13: a write operation of the hook that ran (both clients, an amount
    that parses) never leaves the hook busy: when it settles, the
    transaction state is success with the returned hash or failed with the
    thrown error, so [isLoading] is false. *)
Theorem X13_settled_write_is_not_loading
    round_number contractAddress pc wc userAddress op w :
  amount_ok round_number op ->
  let m := run round_number contractAddress (Some pc) (Some wc) userAddress op in
  isLoading (cells (snd (m w))) = false /\
  match fst (m w) with
  | inr hash => txState (cells (snd (m w))) = tx_success hash
  | inl t => txState (cells (snd (m w))) = tx_error (normalize t)
  end.
Proof.
  intros Hok m.
  destruct (run_report round_number contractAddress pc wc userAddress op w Hok)
    as (args & evs & _ & _ & Hlife & Htx & _).
  fold m in Hlife, Htx. unfold isLoading. rewrite Htx.
  unfold tx_lifecycle in Hlife.
  destruct (simulateContract pc _) as [t|request].
  { destruct Hlife as (-> & ->). split; reflexivity. }
  destruct (writeContract wc request) as [t|hash].
  { destruct Hlife as (-> & ->). split; reflexivity. }
  destruct (waitForTransactionReceipt pc hash) as [t|u].
  { destruct Hlife as (-> & ->). split; reflexivity. }
  destruct Hlife as (-> & ->). split; reflexivity.
Qed.

(** X13 run on the sample gateways. *)
Lemma X13_witness :
  let m := run no_rounding "0xc0" (Some sample_public_client) (Some sample_wallet_client)
             (Some "0xaa"%string) op_pause in
  isLoading (cells (snd (m initial_world))) = false /\
  match fst (m initial_world) with
  | inr hash => txState (cells (snd (m initial_world))) = tx_success hash
  | inl t => txState (cells (snd (m initial_world))) = tx_error (normalize t)
  end.
Proof.
  intros m.
  apply (X13_settled_write_is_not_loading no_rounding "0xc0"%string sample_public_client
           sample_wallet_client (Some "0xaa"%string) op_pause initial_world).
  exact I.
Defined.

End WriteCallFacts.

(** ** The ethers helpers *)

Module LibFacts.
Import LogFacts.
Local Open Scope list_scope.

Ltac unfold_lib_writes :=
  unfold Interactions.transfer, Interactions.approve, Interactions.transferFrom,
    Interactions.mint, Interactions.burn, Interactions.pause, Interactions.unpause,
    Interactions.transferOwnership.

(** X14: an ethers write helper validates before it sends: when the wallet
    cannot be built from the private key, or when the amount is rejected
    by [parseUnits], the helper rejects with that very thrown value and
    the world is untouched, so no gateway call has been issued. *)
Theorem X14_lib_write_validates_before_sending ethers contractAddress op key rpc w :
  (forall t, new_Wallet ethers key = inl t ->
     Interactions.run_write ethers contractAddress op key rpc w = (inl t, w)) /\
  (forall amount t,
     new_Wallet ethers key = inr tt ->
     lib_amount_of op = Some amount ->
     Ethers.parseUnits amount TOKEN_DECIMALS = inl t ->
     Interactions.run_write ethers contractAddress op key rpc w = (inl t, w)).
Proof.
  split.
  - intros t Hw. destruct op; cbn [Interactions.run_write]; unfold_lib_writes;
      unfold bind at 1, settle; rewrite Hw; reflexivity.
  - intros amount t Hw Ha Hp.
    destruct op; cbn [lib_amount_of] in Ha; try discriminate; injection Ha as ->;
      cbn [Interactions.run_write]; unfold_lib_writes;
      unfold bind at 1, settle; rewrite Hw;
      unfold bind at 1; rewrite Hp; reflexivity.
Qed.

(** X14 run on a transfer of "1e18", which is not a decimal number. *)
Lemma X14_witness :
  Interactions.run_write sample_ethers "0xc0" (Interactions.lw_transfer "0x01" "1e18")
    "0x5eed" "http://rpc" initial_world
  = (raise (LibError "INVALID_ARGUMENT" "1e18"), initial_world).
Proof.
  destruct (X14_lib_write_validates_before_sending sample_ethers "0xc0"%string
              (Interactions.lw_transfer "0x01" "1e18") "0x5eed"%string "http://rpc"%string
              initial_world) as (_ & H).
  apply (H "1e18"%string).
  - reflexivity.
  - reflexivity.
  - vm_compute. reflexivity.
Defined.

Lemma send_and_wait_run ethers rpc key contractAddress fn args w :
  let m := send_and_wait ethers rpc key contractAddress fn args in
  cells (snd (m w)) = cells w /\
  match eth_send ethers rpc key contractAddress fn args with
  | inl t => fst (m w) = inl t /\
             log (snd (m w)) = log w ++ [Call (EthersSend rpc key contractAddress fn args)]
  | inr tx => fst (m w) = eth_wait ethers tx /\
              log (snd (m w)) = log w ++ [Call (EthersSend rpc key contractAddress fn args);
                                          Call (EthersWait tx)]
  end.
Proof.
  cbv zeta. unfold send_and_wait. run_async.
  destruct (eth_send ethers rpc key contractAddress fn args) as [t|tx];
    cbn [fst snd cells log]; [repeat split|].
  destruct (eth_wait ethers tx) as [t|receipt]; cbn [fst snd cells log];
    flatten_log; repeat split.
Qed.

Lemma lib_write_reduces ethers contractAddress op key rpc :
  new_Wallet ethers key = inr tt ->
  lib_amount_ok op ->
  exists args,
    (forall amount, lib_amount_of op = Some amount ->
       exists n, Ethers.parseUnits amount TOKEN_DECIMALS = inr n /\ last_uint args = [n]) /\
    forall w, Interactions.run_write ethers contractAddress op key rpc w
              = send_and_wait ethers rpc key contractAddress (lib_function_of op) args w.
Proof.
  intros Hw Hok.
  destruct op; unfold lib_amount_ok in Hok; cbn [lib_amount_of] in *;
    try destruct Hok as (n & Hparse);
    eexists;
    (split;
     [ | intros w; cbn [Interactions.run_write lib_function_of]; unfold_lib_writes;
         unfold send_and_wait;
         unfold bind at 1, settle; rewrite Hw;
         try (unfold bind at 1; rewrite Hparse); reflexivity ]);
    first [ intros a [= <-]; exists n; split; [exact Hparse | reflexivity]
          | intros a [=] ].
Qed.

(** X15: an ethers write helper whose wallet is built and whose amount
    parses sends exactly one transaction, to the ABI function it is named
    after, with the parsed amount as its last argument; it waits for that
    transaction only when the send returned, returns what the wait gives
    and passes on unchanged whatever the send or the wait throws.  It
    never touches the state cells. *)
Theorem X15_lib_write_sends_then_waits ethers contractAddress op key rpc w :
  new_Wallet ethers key = inr tt ->
  lib_amount_ok op ->
  let m := Interactions.run_write ethers contractAddress op key rpc in
  exists args,
    (forall amount, lib_amount_of op = Some amount ->
       exists n, Ethers.parseUnits amount TOKEN_DECIMALS = inr n /\ last_uint args = [n]) /\
    cells (snd (m w)) = cells w /\
    let send := EthersSend rpc key contractAddress (lib_function_of op) args in
    match eth_send ethers rpc key contractAddress (lib_function_of op) args with
    | inl t => fst (m w) = inl t /\ calls (new_events m w) = [send]
    | inr tx => fst (m w) = eth_wait ethers tx /\
                calls (new_events m w) = [send; EthersWait tx]
    end.
Proof.
  intros Hw Hok m.
  destruct (lib_write_reduces ethers contractAddress op key rpc Hw Hok)
    as (args & Hamt & Hrun).
  exists args. split; [exact Hamt|].
  pose proof (send_and_wait_run ethers rpc key contractAddress (lib_function_of op) args w)
    as H.
  cbv zeta in H. unfold new_events, m. rewrite Hrun.
  destruct H as (Hcells & H). split; [exact Hcells|]. cbv zeta.
  destruct (eth_send ethers rpc key contractAddress (lib_function_of op) args) as [t|tx];
    destruct H as (Hfst & Hlog); rewrite Hlog, skipn_past; split; try assumption; reflexivity.
Qed.

(** X15 run on the sample gateway: a burn of 2 tokens. *)
Lemma X15_witness :
  let m := Interactions.run_write sample_ethers "0xc0" (Interactions.lw_burn "2")
             "0x5eed" "http://rpc" in
  exists args,
    last_uint args = [2000000000000000000%Z] /\
    fst (m initial_world) = inr "0x7e57"%string /\
    calls (new_events m initial_world)
    = [EthersSend "http://rpc" "0x5eed" "0xc0" "burn" args; EthersWait "0x7e57"].
Proof.
  intros m.
  assert (Hok : lib_amount_ok (Interactions.lw_burn "2"))
    by (eexists; vm_compute; reflexivity).
  destruct (X15_lib_write_sends_then_waits sample_ethers "0xc0"%string
              (Interactions.lw_burn "2") "0x5eed"%string "http://rpc"%string initial_world
              eq_refl Hok) as (args & Hamt & _ & Hsend).
  exists args.
  destruct (Hamt "2"%string eq_refl) as (n & Hn & Hlast).
  assert (n = 2000000000000000000%Z) as ->.
  { assert (E : Ethers.parseUnits "2" TOKEN_DECIMALS = inr 2000000000000000000%Z)
      by (vm_compute; reflexivity).
    rewrite E in Hn. injection Hn as <-. reflexivity. }
  split; [exact Hlast|].
  cbn zeta in Hsend. cbn [sample_ethers eth_send eth_wait lib_function_of] in Hsend.
  exact Hsend.
Defined.

(** X16: the ethers read helpers only read.  [getBalance] and
    [getAllowance] issue exactly one view call each and [getTokenInfo]
    exactly its six, in the order name, symbol, decimals, totalSupply,
    owner, paused, whatever those calls do; none of them writes a state
    cell; and a thrown balance or allowance read reaches the caller as it
    is. *)
Theorem X16_lib_reads_only_read ethers contractAddress account owner spender rpc w :
  (let m := Interactions.getBalance ethers contractAddress account rpc in
   calls (new_events m w) = [EthersView rpc contractAddress (fn_balanceOf account)] /\
   cells (snd (m w)) = cells w /\
   (forall t, eth_view ethers rpc contractAddress (fn_balanceOf account) = inl t ->
      fst (m w) = inl t)) /\
  (let m := Interactions.getAllowance ethers contractAddress owner spender rpc in
   calls (new_events m w) = [EthersView rpc contractAddress (fn_allowance owner spender)] /\
   cells (snd (m w)) = cells w /\
   (forall t, eth_view ethers rpc contractAddress (fn_allowance owner spender) = inl t ->
      fst (m w) = inl t)) /\
  (let m := Interactions.getTokenInfo ethers contractAddress rpc in
   calls (new_events m w) = lib_token_info_reads rpc contractAddress /\
   cells (snd (m w)) = cells w).
Proof.
  split; [|split].
  - cbv zeta. unfold new_events, Interactions.getBalance. run_async.
    destruct (eth_view ethers rpc contractAddress (fn_balanceOf account)) as [t|raw];
      cbn [fst snd cells log].
    + rewrite skipn_past. repeat split. intros t' [= <-]. reflexivity.
    + destruct (Ethers.formatUnits raw TOKEN_DECIMALS); cbn [fst snd cells log];
        rewrite skipn_past; repeat split; intros t' [=].
  - cbv zeta. unfold new_events, Interactions.getAllowance. run_async.
    destruct (eth_view ethers rpc contractAddress (fn_allowance owner spender)) as [t|raw];
      cbn [fst snd cells log].
    + rewrite skipn_past. repeat split. intros t' [= <-]. reflexivity.
    + destruct (Ethers.formatUnits raw TOKEN_DECIMALS); cbn [fst snd cells log];
        rewrite skipn_past; repeat split; intros t' [=].
  - cbv zeta. unfold new_events, Interactions.getTokenInfo. run_async.
    destruct (eth_view ethers rpc contractAddress fn_name);
      cbn [fst snd cells log]; [flatten_log; rewrite skipn_past; split; reflexivity|].
    destruct (eth_view ethers rpc contractAddress fn_symbol);
      cbn [fst snd cells log]; [flatten_log; rewrite skipn_past; split; reflexivity|].
    destruct (eth_view ethers rpc contractAddress fn_decimals) as [|decimals];
      cbn [fst snd cells log]; [flatten_log; rewrite skipn_past; split; reflexivity|].
    destruct (eth_view ethers rpc contractAddress fn_totalSupply) as [|totalSupply];
      cbn [fst snd cells log]; [flatten_log; rewrite skipn_past; split; reflexivity|].
    destruct (eth_view ethers rpc contractAddress fn_owner);
      cbn [fst snd cells log]; [flatten_log; rewrite skipn_past; split; reflexivity|].
    destruct (eth_view ethers rpc contractAddress fn_paused);
      cbn [fst snd cells log]; [flatten_log; rewrite skipn_past; split; reflexivity|].
    destruct (Ethers.formatUnits totalSupply decimals);
      cbn [fst snd cells log]; flatten_log; rewrite skipn_past; split; reflexivity.
Qed.

(** X16 run on a gateway whose reads all throw. *)
Lemma X16_witness :
  let down := {| new_Wallet := fun _ => inr tt;
                 eth_view := fun _ _ f => inl (ThrownValue "rpc down");
                 eth_send := fun _ _ _ _ _ => inr "0x7e57"%string;
                 eth_wait := fun tx => inr tx;
                 eth_getAllDeployedTokens := fun _ _ => inr [] |} in
  fst (Interactions.getBalance down "0xc0" "0xaa" "http://rpc" initial_world)
    = inl (ThrownValue "rpc down") /\
  calls (new_events (Interactions.getTokenInfo down "0xc0" "http://rpc") initial_world)
    = lib_token_info_reads "http://rpc" "0xc0".
Proof.
  intros down.
  destruct (X16_lib_reads_only_read down "0xc0"%string "0xaa"%string "0xaa"%string
              "0x02"%string "http://rpc"%string initial_world)
    as ((_ & _ & Hbal) & _ & (Hinfo & _)).
  split; [apply Hbal; reflexivity | exact Hinfo].
Defined.

End LibFacts.

(** ** Formatting and parsing back *)

Module RoundTripFacts.
Import Js JsFacts SurgeryFacts.
Local Open Scope list_scope.
Local Open Scope Z_scope.

Lemma drop_leading_zeros_idem s :
  drop_leading_zeros (drop_leading_zeros s) = drop_leading_zeros s.
Proof.
  induction s as [|c s IH]; [reflexivity|].
  cbn [drop_leading_zeros]. destruct (Ascii.eqb c zero_char) eqn:E; [exact IH|].
  cbn [drop_leading_zeros]. rewrite E. reflexivity.
Qed.

Lemma trim_trailing_zeros_idem s :
  trim_trailing_zeros (trim_trailing_zeros s) = trim_trailing_zeros s.
Proof.
  unfold trim_trailing_zeros. rewrite rev_involutive, drop_leading_zeros_idem. reflexivity.
Qed.

(** The shape of what viem's [formatUnits] prints. *)
Lemma viem_magnitude_shape n d (neg : bool) :
  0 <= n ->
  let display := padStart d (uint_toString n) in
  let cut := (List.length display - d)%nat in
  let integer := firstn cut display in
  let fraction := trim_trailing_zeros (skipn cut display) in
  exists whole frac j,
    to_string
      ((if neg then [minus_char] else []) ++
       (match integer with [] => [zero_char] | _ => integer end) ++
       (match fraction with [] => [] | _ => dot_char :: fraction end))
    = to_string (sign_of neg ++ whole ++ dotted frac) /\
    all_digits whole = true /\ whole <> [] /\ all_digits frac = true /\
    trim_trailing_zeros frac = frac /\
    (List.length frac + j = d)%nat /\
    digits_value whole * 10 ^ Z.of_nat d + digits_value frac * 10 ^ Z.of_nat j = n.
Proof.
  intros Hn display cut integer fraction.
  destruct (uint_toString_spec n Hn) as (Hd & Hne & Hv).
  destruct (padStart_spec d (uint_toString n)) as (p & Epad & Hlen).
  fold display in Epad, Hlen.
  assert (Hdd : all_digits display = true).
  { rewrite Epad, all_digits_app, all_digits_repeat_zero, Hd. reflexivity. }
  assert (Hdv : digits_value display = n).
  { rewrite Epad, digits_value_app, digits_value_repeat_zero, Hv. ring. }
  destruct (ViemFacts.cut_digits display d Hdd Hlen) as (j & Hi & Hf & Hl & Hval).
  fold cut in Hi, Hf, Hl, Hval. fold integer in Hi, Hval. fold fraction in Hf, Hl, Hval.
  destruct (ViemFacts.whole_or_zero integer Hi) as (Hw & Hwne & Hwv).
  cbv zeta in Hw, Hwne, Hwv.
  exists (match integer with [] => [zero_char] | _ => integer end), fraction, j.
  split; [reflexivity|].
  repeat split; try assumption.
  - apply trim_trailing_zeros_idem.
  - rewrite Hwv, Hval. exact Hdv.
Qed.

Lemma viem_format_shape v d :
  exists whole frac j,
    Viem.formatUnits v d = to_string (sign_of (v <? 0) ++ whole ++ dotted frac) /\
    all_digits whole = true /\ whole <> [] /\ all_digits frac = true /\
    trim_trailing_zeros frac = frac /\
    (List.length frac + j = d)%nat /\
    digits_value whole * 10 ^ Z.of_nat d + digits_value frac * 10 ^ Z.of_nat j = Z.abs v.
Proof.
  unfold Viem.formatUnits, bigint_toString.
  destruct (Z.ltb_spec v 0) as [Hneg|Hpos].
  - cbn [startsWith_minus skipn]. rewrite Ascii.eqb_refl.
    assert (Hn : 0 <= - v) by lia.
    destruct (viem_magnitude_shape (- v) d true Hn) as (whole & frac & j & E & H).
    exists whole, frac, j. split; [exact E|].
    replace (Z.abs v) with (- v) by lia. exact H.
  - destruct (uint_toString_spec v Hpos) as (Hd & Hne & _).
    pose proof (startsWith_minus_digits (uint_toString v) [] Hd Hne) as Hs.
    rewrite app_nil_r in Hs. rewrite Hs.
    destruct (viem_magnitude_shape v d false Hpos) as (whole & frac & j & E & H).
    exists whole, frac, j. split; [exact E|].
    replace (Z.abs v) with v by lia. exact H.
Qed.

Lemma split_dot_signed neg whole frac :
  all_digits whole = true ->
  split_dot (sign_of neg ++ whole ++ dotted frac)
  = (sign_of neg ++ whole, match frac with [] => None | _ => Some frac end).
Proof.
  intros Hw.
  assert (H : split_dot (whole ++ dotted frac)
              = (whole, match frac with [] => None | _ => Some frac end)).
  { destruct frac; cbn [dotted].
    - rewrite app_nil_r. apply split_dot_digits. exact Hw.
    - apply split_dot_digits_dot. exact Hw. }
  destruct neg; cbn [sign_of app]; [|exact H].
  change (split_dot (minus_char :: whole ++ dotted frac))
    with (let '(a, b) := split_dot (whole ++ dotted frac) in (minus_char :: a, b)).
  rewrite H. reflexivity.
Qed.

Lemma startsWith_minus_signed neg whole rest :
  all_digits whole = true -> whole <> [] ->
  startsWith_minus (sign_of neg ++ whole ++ rest) = neg.
Proof.
  intros Hw Hne. destruct neg; cbn [sign_of app].
  - cbn [startsWith_minus]. apply Ascii.eqb_refl.
  - apply startsWith_minus_digits; assumption.
Qed.

Lemma strip_sign (neg : bool) (body : chars) :
  (if neg then skipn 1 (sign_of neg ++ body) else sign_of neg ++ body) = body.
Proof. destruct neg; reflexivity. Qed.

Lemma matches_decimal_signed neg whole frac :
  all_digits whole = true -> whole <> [] -> all_digits frac = true ->
  matches_decimal (sign_of neg ++ whole ++ dotted frac) = true.
Proof.
  intros Hw Hne Hf. unfold matches_decimal.
  rewrite startsWith_minus_signed by assumption.
  rewrite strip_sign.
  pose proof (split_dot_signed false whole frac Hw) as H. cbn [sign_of app] in H.
  rewrite H, Hw. destruct frac; [reflexivity | exact Hf].
Qed.

Lemma BigInt_signed (neg : bool) ds :
  all_digits ds = true -> ds <> [] ->
  BigInt ((if neg then [minus_char] else []) ++ ds)
  = Some (if neg then - digits_value ds else digits_value ds).
Proof.
  intros Hd Hne. destruct neg; cbn [app].
  - cbn [BigInt]. rewrite Ascii.eqb_refl, Hd. destruct ds; [congruence | reflexivity].
  - destruct ds as [|c ds]; [congruence|].
    cbn [BigInt]. cbn [all_digits forallb] in Hd.
    pose proof Hd as Hd'. apply andb_prop in Hd' as [Hc _].
    rewrite (is_digit_not_minus _ Hc). cbn [all_digits forallb]. rewrite Hd. reflexivity.
Qed.

(** viem's [parseUnits] on a string of that shape. *)
Lemma viem_parse_shape round_number neg whole frac j d :
  d <> O ->
  all_digits whole = true -> whole <> [] -> all_digits frac = true ->
  trim_trailing_zeros frac = frac ->
  (List.length frac + j = d)%nat ->
  Viem.parseUnits round_number (to_string (sign_of neg ++ whole ++ dotted frac)) d
  = inr (let n := digits_value whole * 10 ^ Z.of_nat d
                  + digits_value frac * 10 ^ Z.of_nat j in
         if neg then - n else n).
Proof.
  intros Hd0 Hw Hne Hf Htrim Hlen. unfold Viem.parseUnits.
  rewrite of_to_string, matches_decimal_signed by assumption. cbn [negb].
  rewrite split_dot_signed by assumption.
  pose proof (startsWith_minus_signed neg whole [] Hw Hne) as Hs.
  rewrite app_nil_r in Hs. rewrite Hs, strip_sign.
  assert (Ef : trim_trailing_zeros
                 match match frac with [] => None | _ :: _ => Some frac end with
                 | Some f => f
                 | None => [zero_char]
                 end = frac).
  { destruct frac; [reflexivity | exact Htrim]. }
  rewrite Ef.
  destruct (Nat.eqb_spec d 0) as [|_]; [contradiction|].
  destruct (Nat.ltb_spec d (List.length frac)) as [Hlt|_]; [lia|].
  unfold obind, Viem.BigInt_or_throw, of_option, padEnd.
  assert (Hj : (d - List.length frac)%nat = j) by lia.
  rewrite Hj.
  rewrite (BigInt_signed neg (whole ++ frac ++ repeat zero_char j)).
  - rewrite !digits_value_app, digits_value_repeat_zero, !length_app, repeat_length.
    replace (List.length frac + j)%nat with d by lia.
    f_equal. destruct neg; f_equal; ring.
  - rewrite !all_digits_app, Hw, Hf, all_digits_repeat_zero. reflexivity.
  - destruct whole; [congruence | discriminate].
Qed.

Lemma viem_round_trip round_number v d :
  d <> O -> Viem.parseUnits round_number (Viem.formatUnits v d) d = inr v.
Proof.
  intros Hd.
  destruct (viem_format_shape v d) as (whole & frac & j & E & Hw & Hne & Hf & Ht & Hl & Hv).
  rewrite E, (viem_parse_shape round_number (v <? 0) whole frac j d) by assumption.
  cbv zeta. rewrite Hv. f_equal. destruct (Z.ltb_spec v 0); lia.
Qed.

(** X17: formatting an amount and parsing it back loses nothing.  For
    every bigint and every positive number of decimals, viem's
    [parseUnits] of [formatUnits] is the bigint itself; hence, in the hook,
    a transfer whose amount is the formatted balance of a balance read
    hands the gateway exactly the raw balance that was read. *)
Theorem X17_formatted_balance_parses_back :
  (forall round_number v d,
     d <> O -> Viem.parseUnits round_number (Viem.formatUnits v d) d = inr v) /\
  (forall round_number contractAddress pc wc userAddress to raw w,
     let formatted := Viem.formatUnits raw TOKEN_DECIMALS in
     let m := UseERC20Interactions.transfer round_number contractAddress (Some pc) (Some wc)
                userAddress to formatted in
     hd_error (calls (new_events m w))
     = Some (SimulateContract
               {| cc_address := contractAddress; cc_functionName := "transfer";
                  cc_args := [abi_address to; abi_uint raw];
                  cc_account := account wc |})).
Proof.
  split; [exact viem_round_trip|].
  intros round_number contractAddress pc wc userAddress to raw w formatted m.
  assert (Hrep : write_report pc wc
            {| cc_address := contractAddress; cc_functionName := "transfer";
               cc_args := [abi_address to; abi_uint raw]; cc_account := account wc |}
            [raw] w (m w)).
  { unfold m, UseERC20Interactions.transfer.
    unfold bind at 1, settle. unfold formatted.
    rewrite viem_round_trip by discriminate.
    apply WriteFacts.then_refresh.
    - apply (WriteFacts.executeTransaction_lifecycle contractAddress pc wc "transfer").
    - apply WriteFacts.refetchBalance_refresh_only. }
  destruct Hrep as (evs & Hlog & Hhd & _).
  rewrite (LogFacts.new_events_appended m w evs Hlog). exact Hhd.
Qed.

(** ethers: the padding loop of [parseUnits] only appends zeros, and with
    fuel for [decimals] rounds it reaches [decimals] characters. *)
Lemma pad_decimal_spec fuel d : forall s,
  exists k, Ethers.pad_decimal fuel d s = s ++ repeat zero_char k /\
            ((d <= List.length (Ethers.pad_decimal fuel d s))%nat \/
             (List.length s + 4 * fuel <= List.length (Ethers.pad_decimal fuel d s))%nat).
Proof.
  induction fuel as [|fuel IH]; intros s.
  - exists O. cbn [Ethers.pad_decimal repeat]. rewrite app_nil_r.
    split; [reflexivity | right; lia].
  - cbn [Ethers.pad_decimal]. destruct (Nat.ltb_spec (List.length s) d) as [Hlt|Hge].
    + destruct (IH (s ++ Ethers.Zeros)) as (k & E & Hl).
      exists (4 + k)%nat. split.
      * rewrite E, <- app_assoc. reflexivity.
      * destruct Hl as [Hl|Hl]; [left; exact Hl | right].
        rewrite length_app in Hl. cbn [Ethers.Zeros List.length] in Hl. lia.
    + exists O. cbn [repeat]. rewrite app_nil_r. split; [reflexivity | left; exact Hge].
Qed.

Lemma firstn_of_repeat {A} (x : A) n : forall k,
  (n <= k)%nat -> firstn n (repeat x k) = repeat x n.
Proof.
  induction n as [|n IH]; intros k H; [reflexivity|].
  destruct k as [|k]; [lia|]. cbn [repeat firstn]. f_equal. apply IH. lia.
Qed.

Lemma skipn_keeps_zeros n : forall l,
  forallb (Ascii.eqb zero_char) l = true ->
  forallb (Ascii.eqb zero_char) (skipn n l) = true.
Proof.
  induction n as [|n IH]; intros l H; [exact H|].
  destruct l as [|c l]; [reflexivity|].
  cbn [forallb] in H. apply andb_prop in H as [_ H]. cbn [skipn]. apply IH. exact H.
Qed.

Lemma zeros_are_zeros k : forallb (Ascii.eqb zero_char) (repeat zero_char k) = true.
Proof. induction k; [reflexivity | exact IHk]. Qed.

Lemma firstn_padded frac k d :
  (List.length frac <= d)%nat -> (d <= List.length frac + k)%nat ->
  firstn d (frac ++ repeat zero_char k) = frac ++ repeat zero_char (d - List.length frac).
Proof.
  intros H1 H2. rewrite firstn_app, firstn_all2 by exact H1.
  f_equal. apply firstn_of_repeat. lia.
Qed.

Lemma skipn_padded frac k d :
  (List.length frac <= d)%nat ->
  forallb (Ascii.eqb zero_char) (skipn d (frac ++ repeat zero_char k)) = true.
Proof.
  intros H1. rewrite skipn_app, skipn_all2 by exact H1. cbn [app].
  apply skipn_keeps_zeros, zeros_are_zeros.
Qed.

(** ethers' [parseUnits] on a signed decimal string. *)
Lemma ethers_parse_shape (neg : bool) whole frac j d :
  (d <= 80)%nat ->
  all_digits whole = true -> whole <> [] -> all_digits frac = true ->
  (List.length frac + j = d)%nat ->
  let n := digits_value whole * 10 ^ Z.of_nat d + digits_value frac * 10 ^ Z.of_nat j in
  - 2 ^ 511 <= (if neg then - n else n) < 2 ^ 511 ->
  Ethers.parseUnits (to_string (sign_of neg ++ whole ++ dotted frac)) d
  = inr (if neg then - n else n).
Proof.
  intros Hd80 Hw Hne Hf Hlen n Hrange. unfold Ethers.parseUnits.
  rewrite of_to_string, startsWith_minus_signed, strip_sign by assumption.
  pose proof (split_dot_signed false whole frac Hw) as Hsplit.
  cbn [sign_of app] in Hsplit. rewrite Hsplit.
  rewrite matches_decimal_signed by assumption.
  assert (Em3 : match match frac with [] => None | _ :: _ => Some frac end with
                | Some f => f
                | None => []
                end = frac) by (destruct frac; reflexivity).
  rewrite Em3.
  assert (Hpos : (0 <? List.length whole + List.length frac)%nat = true).
  { apply Nat.ltb_lt. destruct whole; [congruence | cbn [List.length]; lia]. }
  rewrite Hpos. cbn [andb negb].
  unfold Ethers.check_format. destruct (Nat.leb_spec d 80) as [_|]; [|lia].
  cbn [obind].
  destruct (pad_decimal_spec d d frac) as (k & Epad & Hk).
  assert (Hlenpad : (d <= List.length frac + k)%nat).
  { rewrite Epad, length_app, repeat_length in Hk. lia. }
  rewrite Epad, skipn_padded by lia. cbn [negb].
  rewrite firstn_padded by lia.
  replace (d - List.length frac)%nat with j by lia.
  replace (match whole with [] => [zero_char] | _ :: _ => whole end) with whole
    by (destruct whole; [congruence | reflexivity]).
  rewrite (BigInt_signed neg (whole ++ frac ++ repeat zero_char j)).
  - cbn [of_option obind].
    assert (Ev : (if neg then - digits_value (whole ++ frac ++ repeat zero_char j)
                  else digits_value (whole ++ frac ++ repeat zero_char j))
                 = if neg then - n else n).
    { unfold n. rewrite !digits_value_app, digits_value_repeat_zero, !length_app,
        repeat_length.
      replace (List.length frac + j)%nat with d by lia.
      destruct neg; f_equal; ring. }
    rewrite Ev. unfold Ethers.checkValue.
    destruct (Z.leb_spec (- 2 ^ 511) (if neg then - n else n)); [|lia].
    destruct (Z.ltb_spec (if neg then - n else n) (2 ^ 511)); [|lia].
    reflexivity.
  - rewrite !all_digits_app, Hw, Hf, all_digits_repeat_zero. reflexivity.
  - destruct whole; [congruence | discriminate].
Qed.

(** ethers' [parseUnits] reads a string of digits as that many whole
    tokens. *)
Lemma ethers_parse_whole_number ds d :
  (d <= 80)%nat -> all_digits ds = true -> ds <> [] ->
  digits_value ds * 10 ^ Z.of_nat d < 2 ^ 511 ->
  Ethers.parseUnits (to_string ds) d = inr (digits_value ds * 10 ^ Z.of_nat d).
Proof.
  intros Hd Hds Hne Hb.
  pose proof (ethers_parse_shape false ds [] d d Hd Hds Hne eq_refl eq_refl) as H.
  cbv zeta in H. cbn [sign_of dotted app] in H. rewrite app_nil_r in H.
  change (digits_value []) with 0 in H.
  replace (digits_value ds * 10 ^ Z.of_nat d + 0 * 10 ^ Z.of_nat d)
    with (digits_value ds * 10 ^ Z.of_nat d) in H by ring.
  apply H. pose proof (digits_value_nonneg ds Hds). pose proof (pow10_pos d).
  pose proof (Z.pow_pos_nonneg 2 511). split; [nia | exact Hb].
Qed.

(** The shape of what ethers prints for a fixed-point number. *)
Lemma ethers_magnitude_shape n d :
  0 <= n -> d <> O ->
  let str1 := Ethers.pad_whole (S d) d (uint_toString n) in
  let index := (List.length str1 - d)%nat in
  let str2 := firstn index str1 ++ dot_char :: skipn index str1 in
  exists whole frac j,
    Ethers.trim_decimal (Ethers.trim_whole str2) = whole ++ dotted frac /\
    all_digits whole = true /\ whole <> [] /\ all_digits frac = true /\
    (List.length frac + j = d)%nat /\
    digits_value whole * 10 ^ Z.of_nat d + digits_value frac * 10 ^ Z.of_nat j = n.
Proof.
  intros Hn Hd0 str1 index str2.
  destruct (uint_toString_spec n Hn) as (Hd & Hne & Hv).
  destruct (EthersFacts.pad_whole_enough d (uint_toString n)) as (p & Epad & Hlen).
  fold str1 in Epad, Hlen.
  assert (Hds : all_digits str1 = true).
  { rewrite Epad, all_digits_app, all_digits_repeat_zero, Hd. reflexivity. }
  assert (Hval : digits_value str1 = n).
  { rewrite Epad, digits_value_app, digits_value_repeat_zero, Hv. ring. }
  assert (Hcat : str1 = firstn index str1 ++ skipn index str1)
    by (symmetry; apply firstn_skipn).
  assert (Hlf : List.length (skipn index str1) = d)
    by (rewrite length_skipn; unfold index; lia).
  assert (Hlw : List.length (firstn index str1) = index)
    by (apply firstn_length_le; unfold index; lia).
  set (whole := firstn index str1) in *. set (frac0 := skipn index str1) in *.
  rewrite Hcat, all_digits_app in Hds. apply andb_prop in Hds as [Hw Hf].
  assert (Hwne : whole <> []).
  { intros E. rewrite E in Hlw. cbn [List.length] in Hlw. unfold index in Hlw. lia. }
  assert (Hfne : frac0 <> []).
  { intros E. rewrite E in Hlf. cbn [List.length] in Hlf. congruence. }
  destruct (EthersFacts.trim_whole_spec whole frac0 Hw Hwne)
    as (z & whole' & Ew & Ewh & Hwne').
  destruct (EthersFacts.trim_decimal_spec whole' frac0 Hf Hfne)
    as (k & frac & Et & Efr & Hfrne).
  exists whole', frac, k. unfold str2. rewrite Ew, Et.
  assert (Hw' : all_digits whole' = true).
  { rewrite Ewh, all_digits_app in Hw. apply andb_prop in Hw as [_ H]. exact H. }
  assert (Hf' : all_digits frac = true).
  { rewrite Efr, all_digits_app in Hf. apply andb_prop in Hf as [H _]. exact H. }
  split; [destruct frac; [congruence | reflexivity]|].
  repeat split; try assumption.
  - rewrite Efr, length_app, repeat_length in Hlf. exact Hlf.
  - rewrite <- Hval, Hcat, digits_value_app, Hlf.
    rewrite Ewh, Efr, !digits_value_app, !digits_value_repeat_zero, repeat_length. ring.
Qed.

Lemma ethers_body_shape n d (neg : bool) :
  0 <= n ->
  exists whole frac j,
    (if Nat.eqb d 0 then sign_of neg ++ uint_toString n
     else
       let str1 := Ethers.pad_whole (S d) d (uint_toString n) in
       let index := (List.length str1 - d)%nat in
       let str2 := firstn index str1 ++ dot_char :: skipn index str1 in
       sign_of neg ++ Ethers.trim_decimal (Ethers.trim_whole str2))
    = sign_of neg ++ whole ++ dotted frac /\
    all_digits whole = true /\ whole <> [] /\ all_digits frac = true /\
    (List.length frac + j = d)%nat /\
    digits_value whole * 10 ^ Z.of_nat d + digits_value frac * 10 ^ Z.of_nat j = n.
Proof.
  intros Hn. destruct (Nat.eqb_spec d 0) as [->|Hd0].
  - destruct (uint_toString_spec n Hn) as (Hd & Hne & Hv).
    exists (uint_toString n), [], O. cbn [dotted]. rewrite app_nil_r.
    repeat split; try assumption.
    rewrite Hv. change (digits_value []) with 0. change (10 ^ Z.of_nat 0) with 1. ring.
  - destruct (ethers_magnitude_shape n d Hn Hd0) as (whole & frac & j & E & H).
    exists whole, frac, j. cbv zeta in E |- *. rewrite E. split; [reflexivity | exact H].
Qed.

Lemma ethers_format_shape val d :
  exists whole frac j,
    Ethers.fixed_toString val d = sign_of (val <? 0) ++ whole ++ dotted frac /\
    all_digits whole = true /\ whole <> [] /\ all_digits frac = true /\
    (List.length frac + j = d)%nat /\
    digits_value whole * 10 ^ Z.of_nat d + digits_value frac * 10 ^ Z.of_nat j = Z.abs val.
Proof.
  unfold Ethers.fixed_toString.
  destruct (Z.ltb_spec val 0) as [Hneg|Hpos].
  - assert (Hn : 0 <= val * -1) by lia.
    destruct (ethers_body_shape (val * -1) d true Hn) as (whole & frac & j & E & H).
    exists whole, frac, j. split; [exact E|].
    replace (Z.abs val) with (val * -1) by lia. exact H.
  - destruct (ethers_body_shape val d false Hpos) as (whole & frac & j & E & H).
    exists whole, frac, j. split; [exact E|].
    replace (Z.abs val) with val by lia. exact H.
Qed.

Lemma ethers_round_trip v d s :
  Ethers.formatUnits v d = inr s -> Ethers.parseUnits s d = inr v.
Proof.
  unfold Ethers.formatUnits, Ethers.check_format, Ethers.checkValue, obind.
  destruct (Nat.leb_spec d 80) as [Hd|]; [|discriminate].
  destruct (Z.leb_spec (- 2 ^ 511) v) as [Hlo|]; [|discriminate].
  destruct (Z.ltb_spec v (2 ^ 511)) as [Hhi|]; [|discriminate].
  cbn [andb]. intros [= <-].
  destruct (ethers_format_shape v d) as (whole & frac & j & E & Hw & Hne & Hf & Hl & Hv).
  rewrite E.
  pose proof (ethers_parse_shape (v <? 0) whole frac j d Hd Hw Hne Hf Hl) as H.
  cbv zeta in H. rewrite Hv in H.
  assert (Es : (if v <? 0 then - Z.abs v else Z.abs v) = v)
    by (destruct (Z.ltb_spec v 0); lia).
  rewrite Es in H. apply H. lia.
Qed.

(** X18: in the ethers helpers too, formatting and parsing back loses
    nothing: whenever ethers' [formatUnits] returns a string for a value,
    [parseUnits] of that string at the same decimals is the value; hence a
    [transfer] whose amount is the formatted balance of a uint256 balance
    sends exactly that raw balance. *)
Theorem X18_lib_formatted_balance_parses_back :
  (forall v d s, Ethers.formatUnits v d = inr s -> Ethers.parseUnits s d = inr v) /\
  (forall ethers contractAddress to key rpc raw formatted w,
     new_Wallet ethers key = inr tt ->
     Ethers.formatUnits raw TOKEN_DECIMALS = inr formatted ->
     hd_error (calls (new_events
                 (Interactions.transfer ethers contractAddress to formatted key rpc) w))
     = Some (EthersSend rpc key contractAddress "transfer"
               [abi_address to; abi_uint raw])).
Proof.
  split; [exact ethers_round_trip|].
  intros ethers contractAddress to key rpc raw formatted w Hw Hf.
  assert (E : Interactions.transfer ethers contractAddress to formatted key rpc w
              = send_and_wait ethers rpc key contractAddress "transfer"
                  [abi_address to; abi_uint raw] w).
  { unfold Interactions.transfer, send_and_wait.
    unfold bind at 1, settle. rewrite Hw.
    unfold bind at 1. rewrite (ethers_round_trip _ _ _ Hf). reflexivity. }
  unfold new_events. rewrite E.
  pose proof (LibFacts.send_and_wait_run ethers rpc key contractAddress "transfer"
                [abi_address to; abi_uint raw] w) as H.
  cbv zeta in H. destruct H as (_ & H).
  destruct (eth_send ethers rpc key contractAddress "transfer"
              [abi_address to; abi_uint raw]) as [t|tx];
    destruct H as (_ & Hlog); rewrite Hlog, LogFacts.skipn_past; reflexivity.
Qed.

(** X17 and X18 run on a balance of 5.5 tokens. *)
Lemma X17_witness :
  Viem.parseUnits no_rounding (Viem.formatUnits 5500000000000000000 18) 18
  = inr 5500000000000000000.
Proof.
  destruct X17_formatted_balance_parses_back as (H & _).
  apply H. discriminate.
Defined.

Lemma X18_witness :
  Ethers.parseUnits "5.5" 18 = inr 5500000000000000000.
Proof.
  destruct X18_lib_formatted_balance_parses_back as (H & _).
  apply H. vm_compute. reflexivity.
Defined.

End RoundTripFacts.

(** ** The signed deployment calls and the registration check *)

Module DeploymentWriteFacts.
Import DeploymentWrites Js JsFacts SurgeryFacts.
Local Open Scope list_scope.
Local Open Scope Z_scope.

(** X19: the two signed deployment calls read the same supply string in
    different units.  For a supply written as a whole number N (a
    non-empty string of digits), [initializeToken] sends [init] with the
    raw supply N, whereas [registerTokenInFactory] sends [registerToken]
    with N * 10^18; each is the first call the function makes. *)
Theorem X19_init_and_register_read_supply_in_different_units
    signer StringToBigInt contractAddress tokenAddress factoryAddress name symbol ds key rpc l :
  sg_new_Wallet signer key = inr tt ->
  all_digits ds = true -> ds <> [] ->
  StringToBigInt (to_string ds) = inr (digits_value ds) ->
  digits_value ds * 10 ^ 18 < 2 ^ 511 ->
  (exists rest,
     snd (initializeToken signer StringToBigInt contractAddress name symbol (to_string ds)
            key rpc l)
     = l ++ SendTx rpc key contractAddress "init"
              [arg_string name; arg_string symbol; arg_uint (digits_value ds)] :: rest) /\
  (exists rest,
     snd (registerTokenInFactory signer tokenAddress name symbol (to_string ds)
            factoryAddress key rpc l)
     = l ++ SendTx rpc key factoryAddress "registerToken"
              [arg_address tokenAddress; arg_string name; arg_string symbol;
               arg_uint (digits_value ds * 10 ^ 18)] :: rest).
Proof.
  intros Hw Hd Hne Hbig Hfit.
  assert (Hparse : Ethers.parseUnits (to_string ds) 18 = inr (digits_value ds * 10 ^ 18)).
  { apply (RoundTripFacts.ethers_parse_whole_number ds 18); try assumption. lia. }
  split.
  - unfold initializeToken, tbind, tsettle, tawait, tret. rewrite Hw, Hbig.
    destruct (sg_send signer rpc key contractAddress "init" _) as [t|tx]; cbn [snd].
    + exists []. reflexivity.
    + destruct (sg_wait signer tx); cbn [snd]; rewrite <- app_assoc; eexists; reflexivity.
  - unfold registerTokenInFactory, tbind, tsettle, tawait, tret. rewrite Hw, Hparse.
    destruct (sg_send signer rpc key factoryAddress "registerToken" _) as [t|tx]; cbn [snd].
    + exists []. reflexivity.
    + destruct (sg_wait signer tx); cbn [snd]; rewrite <- app_assoc; eexists; reflexivity.
Qed.

(** X19 run on a supply of "1000". *)
Lemma X19_witness :
  (exists rest,
     snd (initializeToken sample_signer decimal_BigInt "0x70ce" "Token" "TKN" "1000"
            "0x5eed" "http://rpc" [])
     = [] ++ SendTx "http://rpc" "0x5eed" "0x70ce" "init"
               [arg_string "Token"; arg_string "TKN"; arg_uint 1000] :: rest) /\
  (exists rest,
     snd (registerTokenInFactory sample_signer "0x70ce" "Token" "TKN" "1000"
            "0xfac7" "0x5eed" "http://rpc" [])
     = [] ++ SendTx "http://rpc" "0x5eed" "0xfac7" "registerToken"
               [arg_address "0x70ce"; arg_string "Token"; arg_string "TKN";
                arg_uint (1000 * 10 ^ 18)] :: rest).
Proof.
  apply (X19_init_and_register_read_supply_in_different_units sample_signer decimal_BigInt
           "0x70ce"%string "0x70ce"%string "0xfac7"%string "Token"%string "TKN"%string
           (of_string "1000") "0x5eed"%string "http://rpc"%string []).
  - reflexivity.
  - reflexivity.
  - discriminate.
  - reflexivity.
  - vm_compute. reflexivity.
Defined.

(** X20: the two signed deployment calls validate before they send: when
    the wallet cannot be built from the key, or when the supply is
    rejected ([BigInt] throws for [initializeToken], [parseEther] for
    [registerTokenInFactory]), the function rejects with that thrown value
    and has made no call. *)
Theorem X20_signed_calls_validate_before_sending
    signer StringToBigInt contractAddress tokenAddress factoryAddress name symbol supply
    key rpc l t :
  (sg_new_Wallet signer key = inl t ->
   initializeToken signer StringToBigInt contractAddress name symbol supply key rpc l
     = (inl t, l) /\
   registerTokenInFactory signer tokenAddress name symbol supply factoryAddress key rpc l
     = (inl t, l)) /\
  (sg_new_Wallet signer key = inr tt -> StringToBigInt supply = inl t ->
   initializeToken signer StringToBigInt contractAddress name symbol supply key rpc l
     = (inl t, l)) /\
  (sg_new_Wallet signer key = inr tt -> Ethers.parseUnits supply 18 = inl t ->
   registerTokenInFactory signer tokenAddress name symbol supply factoryAddress key rpc l
     = (inl t, l)).
Proof.
  unfold initializeToken, registerTokenInFactory, tbind, tsettle.
  split; [|split].
  - intros Hw. rewrite Hw. split; reflexivity.
  - intros Hw Hb. rewrite Hw, Hb. reflexivity.
  - intros Hw Hp. rewrite Hw, Hp. reflexivity.
Qed.

(** X20 run with a key the wallet rejects. *)
Lemma X20_witness :
  let signer := {| sg_new_Wallet := fun _ => inl (ThrownValue "invalid private key");
                   sg_send := fun _ _ _ _ _ => inr "0x7e57"%string;
                   sg_wait := fun tx => inr tx |} in
  initializeToken signer decimal_BigInt "0x70ce" "Token" "TKN" "1000" "" "http://rpc" []
    = (inl (ThrownValue "invalid private key"), []) /\
  registerTokenInFactory signer "0x70ce" "Token" "TKN" "1000" "0xfac7" "" "http://rpc" []
    = (inl (ThrownValue "invalid private key"), []).
Proof.
  intros signer.
  destruct (X20_signed_calls_validate_before_sending signer decimal_BigInt
              "0x70ce"%string "0x70ce"%string "0xfac7"%string "Token"%string "TKN"%string
              "1000"%string ""%string "http://rpc"%string []
              (ThrownValue "invalid private key")) as (H & _).
  apply H. reflexivity.
Defined.

End DeploymentWriteFacts.

Module RegistrationMoreFacts.
Import LogFacts.
Local Open Scope list_scope.

Lemma eq_nocase_lower s t :
  eq_nocase s t = true -> Js.toLowerCase s = Js.toLowerCase t.
Proof.
  intros H. rewrite <- RegistrationFacts.toLowerCase_eq_nocase in H.
  apply String.eqb_eq. exact H.
Qed.

(** X21: the registration check does not depend on the letter case of the
    address it is asked about: two addresses that differ only in case (a
    checksummed address and its lower-case form, say) get the same answer.
    The check issues exactly one gateway call, the factory read, and
    writes no state cell. *)
Theorem X21_registration_check_ignores_case
    ethers tokenAddress tokenAddress' factoryAddress rpcEndpoint w :
  eq_nocase tokenAddress tokenAddress' = true ->
  let m := Deployment.isTokenRegistered ethers tokenAddress factoryAddress rpcEndpoint in
  let m' := Deployment.isTokenRegistered ethers tokenAddress' factoryAddress rpcEndpoint in
  fst (m w) = fst (m' w) /\
  calls (new_events m w) = [EthersGetAllDeployedTokens rpcEndpoint factoryAddress] /\
  cells (snd (m w)) = cells w.
Proof.
  intros Heq m m'. unfold m, m', new_events, Deployment.isTokenRegistered.
  rewrite (eq_nocase_lower _ _ Heq). run_async.
  destruct (eth_getAllDeployedTokens ethers rpcEndpoint factoryAddress);
    cbn [fst snd cells log]; rewrite skipn_past; repeat split.
Qed.

(** X21 run on an address in two spellings. *)
Lemma X21_witness :
  let m := Deployment.isTokenRegistered sample_ethers "0xABCD" "0xfac7" "http://rpc" in
  let m' := Deployment.isTokenRegistered sample_ethers "0xabcd" "0xfac7" "http://rpc" in
  fst (m initial_world) = fst (m' initial_world) /\
  calls (new_events m initial_world) = [EthersGetAllDeployedTokens "http://rpc" "0xfac7"] /\
  cells (snd (m initial_world)) = cells initial_world.
Proof.
  apply (X21_registration_check_ignores_case sample_ethers "0xABCD"%string "0xabcd"%string
           "0xfac7"%string "http://rpc"%string initial_world).
  reflexivity.
Defined.

End RegistrationMoreFacts.
